(** * gopherbone/ssd1306: the SSD1306 display driver, embedded and verified

    A shallow embedding of [ssd1306/ssd1306.go] (the revision with signed
    [int] coordinates, [Line], [Circle], [Rectangle] and [Char]).

    Conventions of the embedding.
    - Go's [int] has 64 bits and wraps around ([wrap]); a [float64] has 53
      significant bits ([round53]).  The drawing code is embedded twice.
      [Point], [Line], [Circle], [Rectangle] and [Char] compute with
      unbounded integers: they are the code as long as no [int] operation
      overflows and every [float64] of [Line] is exact.  Module [machine]
      holds [Line], [Circle], [Rectangle] and [Char] with the wrap-around
      and the rounding written out; there a loop whose number of turns is
      not fixed by a constant takes it as an argument, and a loop that is
      [Exhausted] for every number of turns does not end.  For coordinates
      of at most 32 bits, what the first embedding returns the second
      returns as well ([machine_Line_returns], [machine_Circle_returns],
      [machine_Rectangle_lines_returns], [machine_Char_agrees]), which is
      how the statements about module [machine] are proved.  [New]
      computes the length of the buffer with wrap-around.
    - [/] and [%] on [int] truncate toward zero: [Z.quot] and [Z.rem].
    - [uint(v)] is [v mod 2^64] (2^32 on a 32-bit target; the driver uses
      it for shift counts and for the index into the font table only, where
      both agree); a shift of a [byte] by eight or more positions yields
      zero, and a left shift is truncated to eight bits.
    - The framebuffer [buf] is a [list Z] of bytes; indexing outside of it
      is the run-time panic of Go, the outcome [Fault].
    - The reset pin ([gpio]) and the bus ([i2c]) are external: every call to
      them is appended to a log, and an environment decides, from the log,
      whether the call fails.
    - Over unbounded integers, loops whose number of turns is not fixed
      by their bounds carry a budget; the outcome [Exhausted] is shown not
      to occur there.

    Package [gpio] ([gpio/gpio.go]) is embedded on its own, in module
    [gpio]: its functions run over the calls of packages [os] and [fmt] on
    the sysfs files, which are logged with their arguments and answered by
    a world; a deferred [Close] is the last call of the function that
    registered it. *)

From Stdlib Require Import ZArith List Lia String Bool DecimalString.
From stdpp Require Import base numbers list.
Import ListNotations.

Local Open Scope Z_scope.

(** ** Outcomes of driver code *)

Inductive outcome (A : Type) : Type :=
| Done (a : A)   (* normal return *)
| Fault          (* run-time panic: index or slice bounds out of range *)
| Exhausted.       (* the iteration budget of the model ran out *)

Arguments Done {A} a.
Arguments Fault {A}.
Arguments Exhausted {A}.

Definition obind {A B : Type} (m : outcome A) (k : A -> outcome B) : outcome B :=
  match m with
  | Done a => k a
  | Fault => Fault
  | Exhausted => Exhausted
  end.

Notation "'do' x <- m ; k" := (obind m (fun x => k))
  (at level 10, x name, m at level 100, k at level 200).

(** ** Bytes, shifts and colours *)

Definition to_uint (v : Z) : Z := v mod 2 ^ 64.

(* b << n on a byte, n unsigned *)
Definition byte_shl (b n : Z) : Z :=
  if 8 <=? n then 0 else Z.shiftl b n mod 256.

(* b >> n on a byte, n unsigned *)
Definition byte_shr (b n : Z) : Z :=
  if 8 <=? n then 0 else Z.shiftr b n.

(** ** Machine arithmetic *)

(* int: 64 bits, two's complement *)
Definition MinInt : Z := - 2 ^ 63.
Definition MaxInt : Z := 2 ^ 63 - 1.

(* what an int operation yields whose exact result is z *)
Definition wrap (z : Z) : Z := (z - MinInt) mod 2 ^ 64 + MinInt.

(* What a float64 conversion or operation yields whose exact result is the
   integer z: z rounded to 53 significant bits, to the nearest, ties to the
   even significand.  (The float64 values of the driver are integers below
   2^66 in magnitude, so that neither fractions nor infinities occur.) *)
Definition round53 (z : Z) : Z :=
  let a := Z.abs z in
  if a <? 2 ^ 53 then z
  else
    let e := Z.log2 a - 52 in
    let q := Z.shiftr a e in
    let r := a - Z.shiftl q e in
    let half := Z.shiftl 1 (e - 1) in
    let q' := if (half <? r) || ((r =? half) && Z.odd q) then q + 1 else q in
    Z.sgn z * Z.shiftl q' e.

(* values of at most 32 bits *)
Definition int32 (z : Z) : Prop := - 2 ^ 31 <= z < 2 ^ 31.

(* image/color: Gray16 is a struct with one uint16 field *)
Record Gray16 : Type := { Y : Z }.

Definition White : Gray16 := {| Y := 65535 |}.
Definition Black : Gray16 := {| Y := 0 |}.

(* c == color.White *)
Definition is_white (c : Gray16) : bool := Y c =? 65535.

(** ** Constants of ssd1306.go *)

Definition IFACE_SPI : Z := 0.
Definition IFACE_I2C : Z := 1.

Definition CONTRAST : Z := 129.              (* 0x81 *)
Definition INVERSE_OFF : Z := 166.           (* 0xa6 *)
Definition DISP_OFF : Z := 174.              (* 0xae *)
Definition DISP_ON : Z := 175.               (* 0xaf *)
Definition ADDRESS_MODE : Z := 32.           (* 0x20 *)
Definition ADDRESS_MODE_HORI : Z := 0.
Definition START_LINE : Z := 64.             (* 0x40 *)
Definition HORI_MIRROR : Z := 161.           (* 0xa1 *)
Definition MUX_RATIO : Z := 168.             (* 0xa8 *)
Definition VERT_MIRROR : Z := 200.           (* 0xc8 *)
Definition VERT_SHIFT : Z := 211.            (* 0xd3 *)
Definition COM_CONFIG : Z := 218.            (* 0xda *)
Definition COM_CONFIG2 : Z := 2.
Definition COM_CONFIG2_ALT : Z := 16.
Definition CLOCK_FREQ : Z := 213.            (* 0xd5 *)
Definition PRECHARGE : Z := 217.             (* 0xd9 *)
Definition VCOMH_DESELECT_LEVEL : Z := 219.  (* 0xdb *)
Definition CHARGE_PUMP : Z := 141.           (* 0x8d *)
Definition CHARGE_PUMP_ON : Z := 20.         (* 0x14 *)

(** ** The display *)

(* The handles [rst] and [i2cbus] of the struct are represented by the
   log of calls made through them. *)
Record SSD1306 : Type := {
  iface : Z;
  width : Z;
  height : Z;
  buf : list Z
}.

Definition with_buf (d : SSD1306) (b : list Z) : SSD1306 :=
  {| iface := iface d; width := width d; height := height d; buf := b |}.

Definition len (b : list Z) : Z := Z.of_nat (length b).

(* buf[i] = f(buf[i]), with Go's bounds check *)
Definition buf_modify (f : Z -> Z) (i : Z) (b : list Z) : outcome (list Z) :=
  if (0 <=? i) && (i <? len b) then Done (alter f (Z.to_nat i) b) else Fault.

(* b[lo:hi]; the buffer comes from make([]byte, n), so cap(b) = len(b) *)
Definition slice (b : list Z) (lo hi : Z) : outcome (list Z) :=
  if (0 <=? lo) && (lo <=? hi) && (hi <=? len b)
  then Done (take (Z.to_nat (hi - lo)) (drop (Z.to_nat lo) b))
  else Fault.

(* The statement that recurs in Point, Rectangle and Char:
     if c == color.White { buf[element] |= m } else { buf[element] &^= m } *)
Definition blend (c : Gray16) (m v : Z) : Z :=
  if is_white c then Z.lor v m else Z.ldiff v m.

Definition store (d : SSD1306) (element m : Z) (c : Gray16) : outcome SSD1306 :=
  do b <- buf_modify (blend c m) element (buf d);
  Done (with_buf d b).

(** ** Framebuffer *)

Definition Clear (d : SSD1306) (c : Gray16) : SSD1306 :=
  let block := if is_white c then 255 else 0 in
  with_buf d (map (fun _ => block) (buf d)).

Definition Point (d : SSD1306) (x y : Z) (c : Gray16) : outcome SSD1306 :=
  if (x >=? width d) || (y >=? height d) || (x <? 0) || (y <? 0) then Done d
  else
    let element := width d * (y ÷ 8) + x in
    store d element (byte_shl 1 (to_uint y mod 8)) c.

(** ** Rasterizer *)

(* Over unbounded integers; module [machine] below has the same functions
   over machine integers. *)

(* The loop of Line.  dx, dy, err and e2 are float64 in the source and
   hold integers only; they are exact as long as they stay below 2^53. *)
Fixpoint Line_loop (fuel : nat) (d : SSD1306) (x0 y0 x1 y1 sx sy dx dy err : Z)
    (c : Gray16) : outcome SSD1306 :=
  match fuel with
  | O => Exhausted
  | S fuel' =>
      do d1 <- Point d x0 y0 c;
      if (x0 =? x1) && (y0 =? y1) then Done d1
      else
        let e2 := 2 * err in
        let err' := if e2 >? - dy then err - dy else err in
        let x0' := if e2 >? - dy then x0 + sx else x0 in
        if (x0' =? x1) && (y0 =? y1) then Point d1 x0' y0 c
        else
          let err'' := if e2 <? dx then err' + dx else err' in
          let y0' := if e2 <? dx then y0 + sy else y0 in
          Line_loop fuel' d1 x0' y0' x1 y1 sx sy dx dy err'' c
  end.

Definition Line (d : SSD1306) (x0 y0 x1 y1 : Z) (c : Gray16) : outcome SSD1306 :=
  let dx := Z.abs (x1 - x0) in
  let dy := Z.abs (y1 - y0) in
  let sx := if x0 <? x1 then 1 else -1 in
  let sy := if y0 <? y1 then 1 else -1 in
  let err := dx - dy in
  Line_loop (S (Z.to_nat (dx + dy))) d x0 y0 x1 y1 sx sy dx dy err c.

(* the eight symmetric points plotted by one turn of Circle's loop *)
Definition Circle_octants (d : SSD1306) (x0 y0 x y : Z) (c : Gray16) : outcome SSD1306 :=
  do d <- Point d (x0 + x) (y0 + y) c;
  do d <- Point d (x0 - x) (y0 + y) c;
  do d <- Point d (x0 + x) (y0 - y) c;
  do d <- Point d (x0 - x) (y0 - y) c;
  do d <- Point d (x0 + y) (y0 + x) c;
  do d <- Point d (x0 - y) (y0 + x) c;
  do d <- Point d (x0 + y) (y0 - x) c;
  Point d (x0 - y) (y0 - x) c.

Fixpoint Circle_loop (fuel : nat) (d : SSD1306) (x0 y0 f ddF_x ddF_y x y : Z)
    (c : Gray16) : outcome SSD1306 :=
  if x <? y then
    match fuel with
    | O => Exhausted
    | S fuel' =>
        let y' := if f >=? 0 then y - 1 else y in
        let ddF_y' := if f >=? 0 then ddF_y + 2 else ddF_y in
        let f' := if f >=? 0 then f + ddF_y' else f in
        let x' := x + 1 in
        let ddF_x' := ddF_x + 2 in
        let f'' := f' + ddF_x' in
        do d1 <- Circle_octants d x0 y0 x' y' c;
        Circle_loop fuel' d1 x0 y0 f'' ddF_x' ddF_y' x' y' c
    end
  else Done d.

Definition Circle (d : SSD1306) (x0 y0 radius : Z) (c : Gray16) : outcome SSD1306 :=
  let f := 1 - radius in
  let ddF_x := 1 in
  let ddF_y := -2 * radius in
  let x := 0 in
  let y := radius in
  do d <- Point d x0 (y0 + radius) c;
  do d <- Point d x0 (y0 - radius) c;
  do d <- Point d (x0 + radius) y0 c;
  do d <- Point d (x0 - radius) y0 c;
  Circle_loop (Z.to_nat radius) d x0 y0 f ddF_x ddF_y x y c.

(* One masked fill of Rectangle:
     for x := x0; x <= x1; x++ { element = width*page + x; buf[element] op= b }
   [n] counts the turns that remain. *)
Fixpoint Rectangle_fill (n : nat) (d : SSD1306) (x page b : Z) (c : Gray16)
    : outcome SSD1306 :=
  match n with
  | O => Done d
  | S n' =>
      let element := width d * page + x in
      do d1 <- store d element b c;
      Rectangle_fill n' d1 (x + 1) page b c
  end.

(* number of turns of  for v := lo; v <= hi; v++ *)
Definition turns (lo hi : Z) : nat := Z.to_nat (hi - lo + 1).

(* for ; y0 / 8 < y1 / 8; y0 = (y0 / 8 * 8 + 8) { fill with ^byte(0) } *)
Fixpoint Rectangle_pages (fuel : nat) (d : SSD1306) (x0 y0 x1 y1 : Z) (c : Gray16)
    : outcome SSD1306 :=
  if y0 ÷ 8 <? y1 ÷ 8 then
    match fuel with
    | O => Exhausted
    | S fuel' =>
        let b := 255 in
        do d1 <- Rectangle_fill (turns x0 x1) d x0 (y0 ÷ 8) b c;
        Rectangle_pages fuel' d1 x0 (y0 ÷ 8 * 8 + 8) x1 y1 c
    end
  else Done d.

(* for y := y0; y <= y1; y++ { Line(x0, y, x1, y, c) } *)
Fixpoint Rectangle_rows (n : nat) (d : SSD1306) (x0 y x1 : Z) (c : Gray16)
    : outcome SSD1306 :=
  match n with
  | O => Done d
  | S n' =>
      do d1 <- Line d x0 y x1 y c;
      Rectangle_rows n' d1 x0 (y + 1) x1 c
  end.

Definition Rectangle (d : SSD1306) (x0 y0 x1 y1 : Z) (c : Gray16) : outcome SSD1306 :=
  if (x0 >? x1) || (y0 >? y1) then Done d
  else if (x0 =? x1) || (y0 =? y1) then Line d x0 y0 x1 y1 c
  else if y0 ÷ 8 <? y1 ÷ 8 then
    let b := byte_shl 255 (to_uint (Z.rem y0 8 - 1)) in
    do d1 <- Rectangle_fill (turns x0 x1) d x0 (y0 ÷ 8) b c;
    do d2 <- Rectangle_pages (Z.to_nat (y1 ÷ 8 - y0 ÷ 8)) d1 x0 y0 x1 y1 c;
    let b := byte_shr 255 (to_uint (7 - Z.rem y1 8)) in
    Rectangle_fill (turns x0 x1) d2 x0 (y1 ÷ 8) b c
  else Rectangle_rows (turns y0 y1) d x0 y0 x1 c.

(* font[i], with Go's bounds check; the table itself lives in a file of
   the package that is not part of the sources at hand, so it is an
   argument of Char. *)
Definition font_at (font : list Z) (i : Z) : outcome Z :=
  match (if (0 <=? i) && (i <? len font) then font !! Z.to_nat i else None) with
  | Some g => Done g
  | None => Fault
  end.

(* for i := 0; i < 5 && x + i < width; i++ { buf[base+i] op= shift(font[uint(5*r+i)]) } *)
Fixpoint Char_loop (n : nat) (font : list Z) (shift : Z -> Z) (d : SSD1306)
    (base x i r : Z) (c : Gray16) : outcome SSD1306 :=
  match n with
  | O => Done d
  | S n' =>
      if x + i <? width d then
        do g <- font_at font (to_uint (5 * r + i));
        do d1 <- store d (base + i) (shift g) c;
        Char_loop n' font shift d1 base x (i + 1) r c
      else Done d
  end.

Definition Char (font : list Z) (d : SSD1306) (x y : Z) (c : Gray16) (r : Z)
    : outcome (SSD1306 * Z) :=
  let bufi := width d * (y ÷ 8) + x in
  let bufiup := bufi - width d in
  if (x >=? width d) || (y >=? height d) then Done (d, -1)
  else if (r <? 0) || (r >? 127) then Done (d, -1)
  else
    do d1 <- (if (bufi <? width d * height d ÷ 8) && (bufi >=? 0)
              then Char_loop 5 font (fun g => byte_shr g (to_uint (8 - Z.rem y 8)))
                     d bufi x 0 r c
              else Done d);
    do d2 <- (if (bufiup <? width d * height d ÷ 8) && (bufiup >=? 0)
              then Char_loop 5 font (fun g => byte_shl g (to_uint (Z.rem y 8)))
                     d1 bufiup x 0 r c
              else Done d1);
    Done (d2, 0).

(** ** The rasterizer over machine integers *)

(* Line, Circle, Rectangle and Char once more, with the arithmetic of Go:
   every int operation that can leave the range of int is wrapped, every
   float64 operation is rounded.  A loop whose number of turns is not
   fixed by a constant takes the number of turns it may make as an
   argument, and is [Exhausted] when they do not suffice.  Point is the
   one above: behind its guard x and y are on the screen, and it has no
   other arithmetic than the index of the byte. *)
Module machine.

(* float64(v) for an int v *)
Definition float64 (v : Z) : Z := round53 v.

(* The loop of Line, [for { ... }]; dx, dy, err and e2 are float64.
   [fuel] is the number of turns the loop may take. *)
Fixpoint Line_loop (fuel : nat) (d : SSD1306) (x0 y0 x1 y1 sx sy dx dy err : Z)
    (c : Gray16) : outcome SSD1306 :=
  match fuel with
  | O => Exhausted
  | S fuel' =>
      do d1 <- Point d x0 y0 c;
      if (x0 =? x1) && (y0 =? y1) then Done d1
      else
        let e2 := round53 (2 * err) in
        let err' := if e2 >? - dy then round53 (err - dy) else err in
        let x0' := if e2 >? - dy then wrap (x0 + sx) else x0 in
        if (x0' =? x1) && (y0 =? y1) then Point d1 x0' y0 c
        else
          let err'' := if e2 <? dx then round53 (err' + dx) else err' in
          let y0' := if e2 <? dx then wrap (y0 + sy) else y0 in
          Line_loop fuel' d1 x0' y0' x1 y1 sx sy dx dy err'' c
  end.

Definition Line (fuel : nat) (d : SSD1306) (x0 y0 x1 y1 : Z) (c : Gray16)
    : outcome SSD1306 :=
  let dx := Z.abs (round53 (float64 x1 - float64 x0)) in
  let dy := Z.abs (round53 (float64 y1 - float64 y0)) in
  let sx := if x0 <? x1 then 1 else -1 in
  let sy := if y0 <? y1 then 1 else -1 in
  let err := round53 (dx - dy) in
  Line_loop fuel d x0 y0 x1 y1 sx sy dx dy err c.

(* the eight symmetric points plotted by one turn of Circle's loop *)
Definition Circle_octants (d : SSD1306) (x0 y0 x y : Z) (c : Gray16) : outcome SSD1306 :=
  do d <- Point d (wrap (x0 + x)) (wrap (y0 + y)) c;
  do d <- Point d (wrap (x0 - x)) (wrap (y0 + y)) c;
  do d <- Point d (wrap (x0 + x)) (wrap (y0 - y)) c;
  do d <- Point d (wrap (x0 - x)) (wrap (y0 - y)) c;
  do d <- Point d (wrap (x0 + y)) (wrap (y0 + x)) c;
  do d <- Point d (wrap (x0 - y)) (wrap (y0 + x)) c;
  do d <- Point d (wrap (x0 + y)) (wrap (y0 - x)) c;
  Point d (wrap (x0 - y)) (wrap (y0 - x)) c.

(* for x < y { ... } *)
Fixpoint Circle_loop (fuel : nat) (d : SSD1306) (x0 y0 f ddF_x ddF_y x y : Z)
    (c : Gray16) : outcome SSD1306 :=
  if x <? y then
    match fuel with
    | O => Exhausted
    | S fuel' =>
        let y' := if f >=? 0 then wrap (y - 1) else y in
        let ddF_y' := if f >=? 0 then wrap (ddF_y + 2) else ddF_y in
        let f' := if f >=? 0 then wrap (f + ddF_y') else f in
        let x' := wrap (x + 1) in
        let ddF_x' := wrap (ddF_x + 2) in
        let f'' := wrap (f' + ddF_x') in
        do d1 <- Circle_octants d x0 y0 x' y' c;
        Circle_loop fuel' d1 x0 y0 f'' ddF_x' ddF_y' x' y' c
    end
  else Done d.

Definition Circle (fuel : nat) (d : SSD1306) (x0 y0 radius : Z) (c : Gray16)
    : outcome SSD1306 :=
  let f := wrap (1 - radius) in
  let ddF_x := 1 in
  let ddF_y := wrap (-2 * radius) in
  let x := 0 in
  let y := radius in
  do d <- Point d x0 (wrap (y0 + radius)) c;
  do d <- Point d x0 (wrap (y0 - radius)) c;
  do d <- Point d (wrap (x0 + radius)) y0 c;
  do d <- Point d (wrap (x0 - radius)) y0 c;
  Circle_loop fuel d x0 y0 f ddF_x ddF_y x y c.

(* for x := x0; x <= x1; x++ { element = width*page + x; buf[element] op= b } *)
Fixpoint Rectangle_fill (fuel : nat) (d : SSD1306) (x x1 page b : Z) (c : Gray16)
    : outcome SSD1306 :=
  if x <=? x1 then
    match fuel with
    | O => Exhausted
    | S fuel' =>
        let element := wrap (wrap (width d * page) + x) in
        do d1 <- store d element b c;
        Rectangle_fill fuel' d1 (wrap (x + 1)) x1 page b c
    end
  else Done d.

(* for ; y0 / 8 < y1 / 8; y0 = (y0 / 8 * 8 + 8) { fill with ^byte(0) };
   [n] is the number of turns the loop inside may make *)
Fixpoint Rectangle_pages (fuel n : nat) (d : SSD1306) (x0 y0 x1 y1 : Z) (c : Gray16)
    : outcome SSD1306 :=
  if y0 ÷ 8 <? y1 ÷ 8 then
    match fuel with
    | O => Exhausted
    | S fuel' =>
        let b := 255 in
        do d1 <- Rectangle_fill n d x0 x1 (y0 ÷ 8) b c;
        Rectangle_pages fuel' n d1 x0 (wrap (wrap (y0 ÷ 8 * 8) + 8)) x1 y1 c
    end
  else Done d.

(* for y := y0; y <= y1; y++ { Line(x0, y, x1, y, c) } *)
Fixpoint Rectangle_rows (fuel n : nat) (d : SSD1306) (x0 y x1 y1 : Z) (c : Gray16)
    : outcome SSD1306 :=
  if y <=? y1 then
    match fuel with
    | O => Exhausted
    | S fuel' =>
        do d1 <- Line n d x0 y x1 y c;
        Rectangle_rows fuel' n d1 x0 (wrap (y + 1)) x1 y1 c
    end
  else Done d.

(* [n] is the number of turns each loop of Rectangle and of the Lines it
   draws may make *)
Definition Rectangle (n : nat) (d : SSD1306) (x0 y0 x1 y1 : Z) (c : Gray16)
    : outcome SSD1306 :=
  if (x0 >? x1) || (y0 >? y1) then Done d
  else if (x0 =? x1) || (y0 =? y1) then Line n d x0 y0 x1 y1 c
  else if y0 ÷ 8 <? y1 ÷ 8 then
    let b := byte_shl 255 (to_uint (Z.rem y0 8 - 1)) in
    do d1 <- Rectangle_fill n d x0 x1 (y0 ÷ 8) b c;
    do d2 <- Rectangle_pages n n d1 x0 y0 x1 y1 c;
    let b := byte_shr 255 (to_uint (7 - Z.rem y1 8)) in
    Rectangle_fill n d2 x0 x1 (y1 ÷ 8) b c
  else Rectangle_rows n n d x0 y0 x1 y1 c.

(* for i := 0; i < 5 && x + i < width; i++ { buf[base+i] op= shift(font[uint(5*r+i)]) }
   i stays below 5, and r is a rune between 0 and 127 here *)
Fixpoint Char_loop (n : nat) (font : list Z) (shift : Z -> Z) (d : SSD1306)
    (base x i r : Z) (c : Gray16) : outcome SSD1306 :=
  match n with
  | O => Done d
  | S n' =>
      if wrap (x + i) <? width d then
        do g <- font_at font (to_uint (5 * r + i));
        do d1 <- store d (wrap (base + i)) (shift g) c;
        Char_loop n' font shift d1 base x (i + 1) r c
      else Done d
  end.

Definition Char (font : list Z) (d : SSD1306) (x y : Z) (c : Gray16) (r : Z)
    : outcome (SSD1306 * Z) :=
  let bufi := wrap (wrap (width d * (y ÷ 8)) + x) in
  let bufiup := wrap (bufi - width d) in
  if (x >=? width d) || (y >=? height d) then Done (d, -1)
  else if (r <? 0) || (r >? 127) then Done (d, -1)
  else
    do d1 <- (if (bufi <? wrap (width d * height d) ÷ 8) && (bufi >=? 0)
              then Char_loop 5 font (fun g => byte_shr g (to_uint (8 - Z.rem y 8)))
                     d bufi x 0 r c
              else Done d);
    do d2 <- (if (bufiup <? wrap (width d * height d) ÷ 8) && (bufiup >=? 0)
              then Char_loop 5 font (fun g => byte_shl g (to_uint (Z.rem y 8)))
                     d1 bufiup x 0 r c
              else Done d1);
    Done (d2, 0).

End machine.

(** ** The pin and the bus *)

Inductive event : Type :=
| Export (pin : Z)                     (* gpio.Export *)
| NewBus (addr bus : Z)                (* i2c.NewBus *)
| SetDirection (dir : string)          (* GPIO.SetDirection *)
| SetValue (v : Z)                     (* GPIO.SetValue *)
| Sleep (ms : Z)                       (* time.Sleep *)
| WriteI2C (dc : Z) (data : list Z)    (* Bus.WriteI2C *)
| Unexport.                            (* GPIO.Unexport *)

(* Go's error values; [None] is nil *)
Definition error : Type := string.

(* The environment answers a call from the log that ends with it. *)
Definition environment : Type := list event -> option error.

(* What a method with receiver *SSD1306 can read and change: the struct,
   and through its handles the outside world. *)
Record session : Type := {
  disp : SSD1306;
  log : list event
}.

Definition IO (A : Type) : Type := session -> outcome (A * session).

Definition io_ret {A : Type} (a : A) : IO A := fun s => Done (a, s).

Definition io_bind {A B : Type} (m : IO A) (k : A -> IO B) : IO B :=
  fun s => do r <- m s; k (fst r) (snd r).

Definition io_lift {A : Type} (m : outcome A) : IO A :=
  fun s => do a <- m; Done (a, s).

(* read a field of the receiver *)
Definition self : IO SSD1306 := fun s => Done (disp s, s).

Definition call (env : environment) (e : event) : IO (option error) :=
  fun s =>
    let log' := log s ++ [e] in
    Done (env log', {| disp := disp s; log := log' |}).

Notation "'io' x <- m ; k" := (io_bind m (fun x => k))
  (at level 10, x name, m at level 100, k at level 200).

(** ** Command framer *)

Definition WriteCmd (env : environment) (cmd : list Z) : IO (option error) :=
  io d <- self;
  if iface d =? IFACE_I2C then
    let dc := if len cmd =? 1 then 128 (* 0x80 *) else 0 in
    call env (WriteI2C dc cmd)
  else io_ret None.

Definition WriteData (env : environment) (data : list Z) : IO (option error) :=
  io d <- self;
  if iface d =? IFACE_I2C then
    let dc := if len data =? 1 then 192 (* 0xc0 *) else 64 (* 0x40 *) in
    call env (WriteI2C dc data)
  else io_ret None.

(** ** Display session *)

(* the largest size the allocator accepts (64-bit Linux) *)
Definition maxAlloc : Z := 2 ^ 48.

(* make([]byte, n) panics for a negative n and for an n beyond the limit
   of the allocator; below it the memory is taken to be there *)
Definition make (n : Z) : outcome (list Z) :=
  if (n <? 0) || (maxAlloc <? n) then Fault else Done (replicate (Z.to_nat n) 0).

Definition set_disp (d : SSD1306) : IO unit :=
  fun s => Done (tt, {| disp := d; log := log s |}).

(* New starts from new(SSD1306), the zero struct, and an empty log *)
Definition New (env : environment) (rstpin iface addr bus width height : Z)
    : outcome (option error * session) :=
  let zero := {| iface := 0; width := 0; height := 0; buf := [] |} in
  (io err <- call env (Export rstpin);
   match err with
   | Some _ => io_ret err
   | None =>
       io _ <- set_disp {| iface := iface; width := 0; height := 0; buf := [] |};
       io err <- (if iface =? IFACE_I2C then call env (NewBus addr bus) else io_ret None);
       match err with
       | Some _ => io_ret err
       | None =>
           io b <- io_lift (make (wrap (width * height) ÷ 8));
           io _ <- set_disp {| iface := iface; width := width; height := height; buf := b |};
           io_ret err
       end
   end) {| disp := zero; log := [] |}.

Definition Close (env : environment) : IO unit :=
  io _ <- WriteData env [174 (* 0xae *)];
  io _ <- call env Unexport;
  io_ret tt.

Definition setup_sequence : list Z :=
  [ DISP_OFF;
    Z.lor START_LINE 0;
    ADDRESS_MODE; ADDRESS_MODE_HORI;
    CONTRAST; 207 (* 0xcf *);
    HORI_MIRROR;
    INVERSE_OFF;
    MUX_RATIO; 63 (* 0x3f *);
    VERT_SHIFT; 0;
    VERT_MIRROR;
    CLOCK_FREQ; 240 (* 0xf0 *);
    PRECHARGE; 241 (* 0xf1 *);
    COM_CONFIG; Z.lor COM_CONFIG2 COM_CONFIG2_ALT;
    VCOMH_DESELECT_LEVEL; 64 (* 0x40 *);
    CHARGE_PUMP; CHARGE_PUMP_ON;
    DISP_ON ].

Definition Setup (env : environment) : IO (option error) :=
  io err <- call env (SetDirection "out");
  match err with
  | Some _ => io_ret err
  | None =>
      io err <- call env (SetValue 0);
      match err with
      | Some _ => io_ret err
      | None =>
          io _ <- call env (Sleep 3);
          io err <- call env (SetValue 1);
          match err with
          | Some _ => io_ret err
          | None =>
              (* the result of WriteCmd is not assigned to err *)
              io _ <- WriteCmd env setup_sequence;
              io_ret err
          end
      end
  end.

(* for i := 0; i < len(buf); i += 32 { err = WriteData(buf[i:i+32]); ... } *)
Fixpoint Draw_loop (fuel : nat) (env : environment) (i : Z) : IO (option error) :=
  io d <- self;
  if i <? len (buf d) then
    match fuel with
    | O => fun _ => Exhausted
    | S fuel' =>
        io chunk <- io_lift (slice (buf d) i (i + 32));
        io err <- WriteData env chunk;
        match err with
        | Some _ => io_ret err
        | None => Draw_loop fuel' env (i + 32)
        end
    end
  else io_ret None.

Definition Draw (env : environment) : IO (option error) :=
  io d <- self;
  if iface d =? IFACE_I2C then Draw_loop (length (buf d)) env 0
  else io_ret None.

(** ** Vocabulary of the statements *)

(* the data model's invariant: the height is a whole number of pages and
   the buffer holds width * height / 8 bytes *)
Definition wf (d : SSD1306) : Prop :=
  0 <= width d /\ 0 <= height d /\ Z.rem (height d) 8 = 0 /\
  len (buf d) = width d * height d ÷ 8.

Definition on_screen (d : SSD1306) (x y : Z) : Prop :=
  0 <= x < width d /\ 0 <= y < height d.

(* buf[j], or None outside of the buffer *)
Definition byte_at (b : list Z) (j : Z) : option Z :=
  if 0 <=? j then b !! Z.to_nat j else None.

(* the state of pixel (x, y): bit y%8 of byte width*(y/8) + x *)
Definition pixel (d : SSD1306) (x y : Z) : option bool :=
  if (0 <=? x) && (x <? width d) && (0 <=? y) && (y <? height d)
  then (fun v => Z.testbit v (y mod 8)) <$> byte_at (buf d) (width d * (y ÷ 8) + x)
  else None.

(* an all-clear display, as New leaves it *)
Definition blank (i w h : Z) : SSD1306 :=
  {| iface := i; width := w; height := h; buf := replicate (Z.to_nat (w * h ÷ 8)) 0 |}.

Definition fresh (d : SSD1306) : session := {| disp := d; log := [] |}.

(* the frames on the bus: prefix byte and payload of every WriteI2C *)
Definition frames (l : list event) : list (Z * list Z) :=
  omap (fun e => match e with WriteI2C dc data => Some (dc, data) | _ => None end) l.

(* what a run adds to the log *)
Definition emitted {A : Type} (m : IO A) (s : session) : list event :=
  match m s with
  | Done (_, s') => drop (length (log s)) (log s')
  | _ => []
  end.

(* the k-th 32-byte window of the buffer *)
Definition chunk (b : list Z) (k : nat) : list Z := take 32 (drop (32 * k) b).

Definition chunks (b : list Z) (n : nat) : list (list Z) := map (chunk b) (seq 0 n).

(* the chunks as Draw frames them: multi-byte data transfers *)
Definition data_frames (cs : list (list Z)) : list event := map (WriteI2C 64) cs.

(* The invariant of Line's loop toward (x1, y1): rx and ry are the
   distances still to go, the steps sx and sy point toward the end point,
   and err is the error term of Bresenham's algorithm. *)
Definition line_inv (x1 y1 sx sy dx dy x y err rx ry : Z) : Prop :=
  0 <= rx <= dx /\ 0 <= ry <= dy /\
  x1 - x = sx * rx /\ y1 - y = sy * ry /\
  (sx = 1 \/ sx = -1) /\ (sy = 1 \/ sy = -1) /\
  err = dx - dy - (dx - rx) * dy + (dy - ry) * dx.

(* column k of the glyph of r in the font table *)
Definition glyph_byte (font : list Z) (r k : Z) : Z :=
  default 0 (font !! Z.to_nat (5 * r + k)).

(* a font table with the 5x7 letter A at code 65 and blank cells elsewhere *)
Definition sample_font : list Z :=
  replicate 325 0 ++ [126; 17; 17; 17; 126] ++ replicate 310 0.

(* The invariant of Circle's loop for radius r: the two increments follow
   x and y, f is the midpoint decision value, and (x, y) is within y of
   the circle. *)
Definition circle_inv (r x y f ddF_x ddF_y : Z) : Prop :=
  ddF_x = 2 * x + 1 /\ ddF_y = -2 * y /\
  f = x * x + 2 * x + 1 + y * y - y - r * r /\
  0 <= x /\ y <= r /\
  - y <= x * x + y * y - r * r <= y.

(* same geometry, same buffer length *)
Definition same_shape (d d' : SSD1306) : Prop :=
  width d' = width d /\ height d' = height d /\ iface d' = iface d /\
  length (buf d') = length (buf d).

(* the bus refuses every transfer, the pin works *)
Definition bus_down (e : error) : environment :=
  fun l => match last l with Some (WriteI2C _ _) => Some e | _ => None end.

Definition quiet : environment := fun _ => None.

(** ** Package gpio: the pin, over the sysfs files *)

(* gpio.go talks to the kernel through os.Stat, os.OpenFile, File.Seek,
   File.Close, fmt.Fprintf and fmt.Fscanf.  These are external: each call
   is logged with its arguments (for Fprintf the formatted text), and a
   world answers it from the log that ends with it. *)
Module gpio.

Local Open Scope string_scope.

(* error values: those of package os, with what os.IsNotExist says of
   them, and those made by fmt.Errorf *)
Inductive gerror : Type :=
| OsError (not_exist : bool) (msg : string)
| Errorf (msg : string).

Definition IsNotExist (e : gerror) : bool :=
  match e with
  | OsError b _ => b
  | Errorf _ => false
  end.

(* an open *os.File *)
Definition file : Type := Z.

Inductive call : Type :=
| Stat (name : string)
| OpenFile (name : string) (flag perm : Z)
| Fprintf (f : file) (text : string)
| Fscanf (f : file) (format : string)
| Seek (f : file) (offset whence : Z)
| FileClose (f : file).

(* What a call gives back: its error; the file of OpenFile; for Fscanf the
   number of items read and what it left in the integer or string
   variable it was given. *)
Record answer : Type := {
  ans_err : option gerror;
  ans_file : file;
  ans_n : Z;
  ans_int : Z;
  ans_str : string
}.

Definition world : Type := list call -> answer.

(* type GPIO struct { Pin int; ValueFile *os.File } *)
Record GPIO : Type := {
  Pin : Z;
  ValueFile : option file
}.

Record state : Type := {
  self : GPIO;
  calls : list call
}.

Definition M (A : Type) : Type := state -> A * state.

Definition ret {A : Type} (a : A) : M A := fun s => (a, s).

Definition bind {A B : Type} (m : M A) (k : A -> M B) : M B :=
  fun s => let r := m s in k (fst r) (snd r).

Notation "'gp' x <- m ; k" := (bind m (fun x => k))
  (at level 10, x name, m at level 100, k at level 200).

Definition ask (w : world) (c : call) : M answer :=
  fun s =>
    let l := (calls s ++ [c])%list in
    (w l, {| self := self s; calls := l |}).

Definition this : M GPIO := fun s => (self s, s).

Definition set_ValueFile (f : option file) : M unit :=
  fun s => (tt, {| self := {| Pin := Pin (self s); ValueFile := f |}; calls := calls s |}).

Definition O_RDONLY : Z := 0.
Definition O_WRONLY : Z := 1.
Definition O_RDWR : Z := 2.
Definition perm_0666 : Z := 438.

(* the verb %d of package fmt *)
Definition itoa (z : Z) : string := NilZero.string_of_int (Z.to_int z).

(* Export works on the struct it has just made with new(GPIO); the state
   it is run in holds that zero struct. *)
Definition new_GPIO : GPIO := {| Pin := 0; ValueFile := None |}.

Definition set_self (g : GPIO) : M unit :=
  fun s => (tt, {| self := g; calls := calls s |}).

Definition Export (w : world) (pin : Z) : M (option gerror) :=
  gp st <- ask w (Stat ("/sys/class/gpio/gpio" ++ itoa pin));
  let finish (err : option gerror) : M (option gerror) :=
    gp _ <- set_self {| Pin := pin; ValueFile := None |};
    ret err in
  match ans_err st with
  | Some e =>
      if IsNotExist e then
        gp o <- ask w (OpenFile "/sys/class/gpio/export" O_WRONLY perm_0666);
        match ans_err o with
        | Some e1 => ret (Some e1)
        | None =>
            let f := ans_file o in
            (* defer f.Close() *)
            gp p <- ask w (Fprintf f (itoa pin));
            match ans_err p with
            | Some e2 =>
                gp _ <- ask w (FileClose f);
                ret (Some e2)
            | None =>
                gp err <- finish None;
                gp _ <- ask w (FileClose f);
                ret err
            end
        end
      else finish (Some e)
  | None => finish None
  end.

Definition CloseValue : world -> M (option gerror) :=
  fun w =>
    gp g <- this;
    (* the result of Close is not assigned to err *)
    gp _ <- match ValueFile g with
            | Some f => gp _ <- ask w (FileClose f); ret tt
            | None => ret tt   (* Close on a nil *os.File does nothing *)
            end;
    gp _ <- set_ValueFile None;
    ret None.

Definition Unexport (w : world) : M (option gerror) :=
  gp g <- this;
  gp err <- match ValueFile g with
            | Some _ => CloseValue w
            | None => ret None
            end;
  match err with
  | Some e => ret (Some e)
  | None =>
      gp o <- ask w (OpenFile "/sys/class/gpio/unexport" O_WRONLY perm_0666);
      match ans_err o with
      | Some e => ret (Some e)
      | None =>
          let f := ans_file o in
          gp g' <- this;
          gp p <- ask w (Fprintf f (itoa (Pin g')));
          gp _ <- ask w (FileClose f);
          ret (ans_err p)
      end
  end.

(* The opening lines shared by Value and SetValue: use the cached value
   file after rewinding it, or open the value file of the pin and defer
   its Close.  The result is the error of OpenFile, or the file and
   whether a Close is pending. *)
Definition value_file (w : world) (flag : Z) : M (gerror + file * bool) :=
  gp g <- this;
  match ValueFile g with
  | None =>
      gp o <- ask w (OpenFile ("/sys/class/gpio/gpio" ++ itoa (Pin g) ++ "/value")
                       flag perm_0666);
      match ans_err o with
      | Some e => ret (inl e)
      | None => ret (inr (ans_file o, true))
      end
  | Some f =>
      gp _ <- ask w (Seek f 0 0);
      ret (inr (f, false))
  end.

Definition run_deferred (w : world) (f : file) (pending : bool) : M unit :=
  if pending then gp _ <- ask w (FileClose f); ret tt else ret tt.

Definition Value (w : world) : M (Z * option gerror) :=
  gp r <- value_file w O_RDONLY;
  match r with
  | inl e => ret (0%Z, Some e)
  | inr (f, pending) =>
      gp g <- this;
      gp a <- ask w (Fscanf f "%d");
      let value := ans_int a in
      let n := ans_n a in
      let err :=
        if negb (n =? 1)%Z
        then Some (Errorf ("Bad number of values read from /sys/class/gpio/gpio"
                             ++ itoa (Pin g) ++ "/value: " ++ itoa n))
        else ans_err a in
      gp _ <- run_deferred w f pending;
      ret (value, err)
  end.

Definition SetValue (w : world) (value : Z) : M (option gerror) :=
  if negb (value =? 0)%Z && negb (value =? 1)%Z
  then ret (Some (Errorf ("Invalid value: " ++ itoa value)))
  else
    gp r <- value_file w O_WRONLY;
    match r with
    | inl e => ret (Some e)
    | inr (f, pending) =>
        gp p <- ask w (Fprintf f (itoa value));
        gp _ <- run_deferred w f pending;
        ret (ans_err p)
    end.

Definition OpenValue (w : world) : M (option gerror) :=
  gp g <- this;
  gp o <- ask w (OpenFile ("/sys/class/gpio/gpio" ++ itoa (Pin g) ++ "/value")
                   O_RDWR perm_0666);
  (* os.OpenFile returns a nil file together with an error *)
  gp _ <- set_ValueFile (match ans_err o with
                         | Some _ => None
                         | None => Some (ans_file o)
                         end);
  ret (ans_err o).

(* Direction and Edge: read one word from the file leaf of the pin *)
Definition read_word (w : world) (leaf : string) : M (string * option gerror) :=
  gp g <- this;
  gp o <- ask w (OpenFile ("/sys/class/gpio/gpio" ++ itoa (Pin g) ++ "/" ++ leaf)
                   O_RDONLY perm_0666);
  match ans_err o with
  | Some e => ret ("", Some e)
  | None =>
      let f := ans_file o in
      gp a <- ask w (Fscanf f "%s");
      let n := ans_n a in
      let err :=
        if negb (n =? 1)%Z
        then Some (Errorf ("Bad number of values read from /sys/class/gpio/gpio"
                             ++ itoa (Pin g) ++ "/" ++ leaf ++ ": " ++ itoa n))
        else ans_err a in
      gp _ <- ask w (FileClose f);
      ret (ans_str a, err)
  end.

(* SetDirection and SetEdge after their check: write one word to the file
   leaf of the pin *)
Definition write_word (w : world) (leaf text : string) : M (option gerror) :=
  gp g <- this;
  gp o <- ask w (OpenFile ("/sys/class/gpio/gpio" ++ itoa (Pin g) ++ "/" ++ leaf)
                   O_WRONLY perm_0666);
  match ans_err o with
  | Some e => ret (Some e)
  | None =>
      let f := ans_file o in
      gp p <- ask w (Fprintf f text);
      gp _ <- ask w (FileClose f);
      ret (ans_err p)
  end.

Definition Direction (w : world) : M (string * option gerror) := read_word w "direction".

Definition SetDirection (w : world) (dir : string) : M (option gerror) :=
  if negb (dir =? "in") && negb (dir =? "out")
  then ret (Some (Errorf ("Invalid direction: " ++ dir)))
  else write_word w "direction" dir.

Definition Edge (w : world) : M (string * option gerror) := read_word w "edge".

Definition SetEdge (w : world) (edge : string) : M (option gerror) :=
  if negb (edge =? "none") && negb (edge =? "rising") &&
     negb (edge =? "falling") && negb (edge =? "both")
  then ret (Some (Errorf ("Invalid edge: " ++ edge)))
  else write_word w "edge" edge.

(** *** Vocabulary of the statements about gpio *)

(* what a call of the package adds to the log *)
Definition made {A : Type} (m : M A) (s : state) : list call :=
  drop (length (calls s)) (calls (snd (m s))).

(* closing a file takes one handle on it away *)
Fixpoint close_one (f : file) (held : list file) : list file :=
  match held with
  | []%list => []%list
  | (g :: held')%list => if (g =? f)%Z then held' else (g :: close_one f held')%list
  end.

(* the files that are open after the calls of l, made after the log pre,
   when those of held were open before *)
Fixpoint still_open (w : world) (pre l : list call) (held : list file) : list file :=
  match l with
  | []%list => held
  | (c :: l')%list =>
      let here := (pre ++ [c])%list in
      let held' :=
        match c with
        | OpenFile _ _ _ =>
            match ans_err (w here) with
            | None => (ans_file (w here) :: held)%list
            | Some _ => held
            end
        | FileClose f => close_one f held
        | _ => held
        end in
      still_open w here l' held'
  end.

(* the files the struct refers to *)
Definition handles (g : GPIO) : list file :=
  match ValueFile g with
  | Some f => [f]%list
  | None => []%list
  end.

(* a method keeps the books: if the open files are those the struct
   refers to before the call, they are so after it *)
Definition accounted {A : Type} (w : world) (m : M A) : Prop :=
  forall s : state,
    still_open w (calls s) (made m s) (handles (self s)) = handles (self (snd (m s))).

(* a world in which every call succeeds and every OpenFile yields file 3 *)
Definition calm : world :=
  fun _ => {| ans_err := None; ans_file := 3; ans_n := 1; ans_int := 1; ans_str := "out" |}.

(* a world in which no pin is exported yet: Stat finds nothing, every
   other call succeeds *)
Definition unexported : world :=
  fun l =>
    match last l with
    | Some (Stat _) =>
        {| ans_err := Some (OsError true "no such file or directory");
           ans_file := 0; ans_n := 0; ans_int := 0; ans_str := "" |}
    | _ => calm l
    end.

(* a world without the sysfs tree: nothing exists *)
Definition barren : world :=
  fun _ => {| ans_err := Some (OsError true "no such file or directory");
              ans_file := 0; ans_n := 0; ans_int := 0; ans_str := "" |}.

End gpio.

(** * Properties *)

(** ** Command framer *)

Lemma len_is_1 (l : list Z) : (len l =? 1) = (length l =? 1)%nat.
Proof.
  unfold len.
  destruct (Z.eqb_spec (Z.of_nat (length l)) 1), (Nat.eqb_spec (length l) 1);
    try reflexivity; lia.
Qed.

Section Framer.
Variable env : environment.
Variable s : session.
Hypothesis bus : iface (disp s) = IFACE_I2C.

Lemma WriteCmd_emitted (cmd : list Z) :
  emitted (WriteCmd env cmd) s =
    [WriteI2C (if (length cmd =? 1)%nat then 128 else 0) cmd].
Proof.
  unfold emitted, WriteCmd, io_bind, self, call, obind. cbn.
  rewrite bus, len_is_1. cbn.
  rewrite drop_app_length. reflexivity.
Qed.

Lemma WriteData_emitted (data : list Z) :
  emitted (WriteData env data) s =
    [WriteI2C (if (length data =? 1)%nat then 192 else 64) data].
Proof.
  unfold emitted, WriteData, io_bind, self, call, obind. cbn.
  rewrite bus, len_is_1. cbn.
  rewrite drop_app_length. reflexivity.
Qed.
End Framer.

(** C8.  The framer picks the prefix byte from the length of the payload
    alone: a one-byte command is sent under 0x80 and any other command
    under 0x00, a one-byte data transfer under 0xc0 and any other under
    0x40; the four prefixes are pairwise distinct; two payloads of the same
    length get the same prefix whatever they contain, and the payload is
    passed on as it is. *)
Theorem framer_prefix_from_length (env : environment) (s : session) (p q : list Z) :
  iface (disp s) = IFACE_I2C ->
  (exists dc, frames (emitted (WriteCmd env p) s) = [(dc, p)] /\
     (length p = 1%nat -> dc = 128) /\ (length p <> 1%nat -> dc = 0)) /\
  (exists dc, frames (emitted (WriteData env p) s) = [(dc, p)] /\
     (length p = 1%nat -> dc = 192) /\ (length p <> 1%nat -> dc = 64)) /\
  NoDup [128; 0; 192; 64] /\
  (length p = length q ->
     fst <$> frames (emitted (WriteCmd env p) s) = fst <$> frames (emitted (WriteCmd env q) s) /\
     fst <$> frames (emitted (WriteData env p) s) = fst <$> frames (emitted (WriteData env q) s)).
Proof.
  intros bus. repeat split.
  - rewrite WriteCmd_emitted by assumption.
    eexists. split; [reflexivity|].
    split; intros H.
    + rewrite H. reflexivity.
    + apply Nat.eqb_neq in H. rewrite H. reflexivity.
  - rewrite WriteData_emitted by assumption.
    eexists. split; [reflexivity|].
    split; intros H.
    + rewrite H. reflexivity.
    + apply Nat.eqb_neq in H. rewrite H. reflexivity.
  - repeat constructor; rewrite ?elem_of_cons, ?elem_of_nil; intros H; 
      repeat (destruct H as [H|H]; try discriminate H); exact H.
  - rewrite !WriteCmd_emitted by assumption. rewrite H. reflexivity.
  - rewrite !WriteData_emitted by assumption. rewrite H. reflexivity.
Qed.

Lemma framer_prefix_from_length_witness :
  iface (disp (fresh (blank IFACE_I2C 128 64))) = IFACE_I2C /\
  frames (emitted (WriteCmd quiet [DISP_OFF]) (fresh (blank IFACE_I2C 128 64)))
    = [(128, [DISP_OFF])].
Proof.
  split; [reflexivity|].
  destruct (framer_prefix_from_length quiet (fresh (blank IFACE_I2C 128 64))
              [DISP_OFF] [DISP_ON] eq_refl) as [[dc [H [H1 _]]] _].
  rewrite H, (H1 eq_refl). reflexivity.
Defined.

(** ** Display session: teardown and bring-up *)

(* With a pin and a bus that answer, New yields the all-clear display and
   has exported the pin and opened the bus. *)
Lemma wrap_small (z : Z) : MinInt <= z <= MaxInt -> wrap z = z.
Proof.
  unfold wrap, MinInt, MaxInt. intros H.
  rewrite Z.mod_small by lia. lia.
Qed.

Lemma New_blank (pin addr bus w h : Z) :
  0 <= w * h -> w * h ÷ 8 <= maxAlloc ->
  New quiet pin IFACE_I2C addr bus w h
    = Done (None, {| disp := blank IFACE_I2C w h; log := [Export pin; NewBus addr bus] |}).
Proof.
  intros Hn Hmax.
  assert (Hq : 0 <= w * h ÷ 8 /\ w * h <= 8 * maxAlloc + 7)
    by (Z.to_euclidean_division_equations; lia).
  unfold New, io_bind, obind, call, set_disp, io_lift, io_ret, make, quiet, blank.
  cbn. rewrite wrap_small by (unfold MinInt, MaxInt, maxAlloc in *; lia).
  destruct (Z.ltb_spec (w * h ÷ 8) 0); [lia|].
  destruct (Z.ltb_spec maxAlloc (w * h ÷ 8)); [lia | reflexivity].
Qed.

Lemma blank_wf (i w h : Z) : 0 <= w -> 0 <= h -> Z.rem h 8 = 0 -> wf (blank i w h).
Proof.
  intros Hw Hh H8. unfold wf, blank, len. cbn.
  rewrite length_replicate. repeat split; try assumption.
  apply Z2Nat.id. apply Z.quot_pos; nia.
Qed.

(** C5.  On a bus display Close transmits the power-off opcode 0xae through
    WriteData, so that it travels under the single-byte data prefix 0xc0
    and not under the command prefix 0x80 with which WriteCmd would send
    it; the pin is released after that transfer. *)
Theorem Close_sends_data_frame (env : environment) (w h : Z) (b : list Z) (l : list event) :
  let d := {| iface := IFACE_I2C; width := w; height := h; buf := b |} in
  Close env {| disp := d; log := l |}
    = Done (tt, {| disp := d; log := l ++ [WriteI2C 192 [DISP_OFF]; Unexport] |}) /\
  emitted (WriteCmd env [DISP_OFF]) {| disp := d; log := l |} = [WriteI2C 128 [DISP_OFF]].
Proof.
  intros d. split.
  - unfold Close, io_bind, obind, WriteData, self, call, io_ret. cbn.
    rewrite <- app_assoc. reflexivity.
  - apply WriteCmd_emitted. reflexivity.
Qed.

(* Setup hands back the error of the first pin call that fails. *)
Lemma Setup_pin_error (env : environment) (s : session) (e : error) :
  (env (log s ++ [SetDirection "out"]) = Some e \/
   (env (log s ++ [SetDirection "out"]) = None /\
    (env (log s ++ [SetDirection "out"; SetValue 0]) = Some e \/
     (env (log s ++ [SetDirection "out"; SetValue 0]) = None /\
      env (log s ++ [SetDirection "out"; SetValue 0; Sleep 3; SetValue 1]) = Some e)))) ->
  exists s', Setup env s = Done (Some e, s') /\ disp s' = disp s.
Proof.
  intros H. unfold Setup, io_bind, obind, call, io_ret. cbn.
  destruct H as [H | [H0 [H | [H1 H]]]].
  - rewrite H. cbn. eauto.
  - rewrite H0. cbn. rewrite <- app_assoc. cbn. rewrite H. cbn. eauto.
  - rewrite H0. cbn. rewrite <- app_assoc. cbn. rewrite H1. cbn.
    rewrite <- !app_assoc. cbn. rewrite H. cbn. eauto.
Qed.

(* Once the three pin calls have succeeded Setup returns nil, whatever
   the bus answers to the configuration frame. *)
Lemma Setup_nil_after_pin (env : environment) (s : session) :
  env (log s ++ [SetDirection "out"]) = None ->
  env (log s ++ [SetDirection "out"; SetValue 0]) = None ->
  env (log s ++ [SetDirection "out"; SetValue 0; Sleep 3; SetValue 1]) = None ->
  exists s', Setup env s = Done (None, s') /\ disp s' = disp s.
Proof.
  intros H0 H1 H2. unfold Setup, io_bind, obind, call, io_ret. cbn.
  rewrite H0. cbn. rewrite <- app_assoc. cbn. rewrite H1. cbn.
  rewrite <- !app_assoc. cbn. rewrite H2. cbn.
  unfold WriteCmd, io_bind, self, call, io_ret. cbn.
  destruct (iface (disp s) =? IFACE_I2C); cbn; eauto.
Qed.

(** C4.  When the three pin calls succeed and the bus refuses the
    configuration frame, Setup still returns nil: the result of WriteCmd is
    dropped, so the transport error does not reach the caller. *)
Theorem Setup_drops_bus_error (e : error) (w h : Z) (b : list Z) :
  let d := {| iface := IFACE_I2C; width := w; height := h; buf := b |} in
  let sent := [SetDirection "out"; SetValue 0; Sleep 3; SetValue 1;
               WriteI2C 0 setup_sequence] in
  Setup (bus_down e) (fresh d) = Done (None, {| disp := d; log := sent |}) /\
  bus_down e sent = Some e /\
  WriteCmd (bus_down e) setup_sequence
    {| disp := d; log := [SetDirection "out"; SetValue 0; Sleep 3; SetValue 1] |}
    = Done (Some e, {| disp := d; log := sent |}).
Proof.
  cbn. repeat split.
Qed.

(** ** Framebuffer: Point *)

Ltac zq := Z.to_euclidean_division_equations; lia.
Ltac znq := Z.to_euclidean_division_equations; nia.

Lemma pages_len (w h : Z) : Z.rem h 8 = 0 -> w * h ÷ 8 = w * (h ÷ 8).
Proof. intros. znq. Qed.

Lemma element_in_buf (d : SSD1306) (x y : Z) :
  wf d -> on_screen d x y -> 0 <= width d * (y ÷ 8) + x < len (buf d).
Proof.
  intros (Hw & Hh & H8 & Hlen) [Hx Hy].
  rewrite Hlen, pages_len by assumption.
  assert (y ÷ 8 + 1 <= height d ÷ 8) by zq.
  assert (0 <= y ÷ 8) by zq.
  nia.
Qed.

Lemma element_inj (w x y a b : Z) :
  0 <= x < w -> 0 <= a < w -> 0 <= y -> 0 <= b ->
  w * (y ÷ 8) + x = w * (b ÷ 8) + a -> x = a /\ y ÷ 8 = b ÷ 8.
Proof.
  intros Hx Ha Hy Hb H.
  assert (0 <= y ÷ 8) by zq. assert (0 <= b ÷ 8) by zq.
  assert (y ÷ 8 = b ÷ 8) by nia.
  split; [nia | assumption].
Qed.

Lemma bit_mask (y : Z) : byte_shl 1 (to_uint y mod 8) = 2 ^ (y mod 8).
Proof.
  unfold byte_shl, to_uint.
  replace ((y mod 2 ^ 64) mod 8) with (y mod 8) by zq.
  assert (H : 0 <= y mod 8 < 8) by zq.
  destruct (Z.leb_spec 8 (y mod 8)); [lia|].
  rewrite Z.shiftl_1_l.
  apply Z.mod_small. split; [lia|].
  change 256 with (2 ^ 8). apply Z.pow_lt_mono_r; lia.
Qed.

Lemma testbit_blend (c : Gray16) (k j v : Z) :
  0 <= k -> 0 <= j ->
  Z.testbit (blend c (2 ^ k) v) j = if j =? k then is_white c else Z.testbit v j.
Proof.
  intros Hk Hj. unfold blend.
  destruct (is_white c).
  - rewrite Z.lor_spec, Z.pow2_bits_eqb by assumption.
    rewrite (Z.eqb_sym k j). destruct (j =? k); [apply orb_true_r | apply orb_false_r].
  - rewrite Z.ldiff_spec, Z.pow2_bits_eqb by assumption.
    rewrite (Z.eqb_sym k j). destruct (j =? k); cbn; [apply andb_false_r | apply andb_true_r].
Qed.

Lemma store_in_buf (d : SSD1306) (e m : Z) (c : Gray16) :
  0 <= e < len (buf d) ->
  store d e m c = Done (with_buf d (alter (blend c m) (Z.to_nat e) (buf d))).
Proof.
  intros [H0 H1]. unfold store, buf_modify.
  destruct (Z.leb_spec 0 e); [|lia]. destruct (Z.ltb_spec e (len (buf d))); [|lia].
  reflexivity.
Qed.

Lemma store_outside (d : SSD1306) (e m : Z) (c : Gray16) :
  ~ 0 <= e < len (buf d) -> store d e m c = Fault.
Proof.
  intros H. unfold store, buf_modify.
  destruct (Z.leb_spec 0 e); destruct (Z.ltb_spec e (len (buf d))); try reflexivity; lia.
Qed.

Lemma wf_with_buf (d : SSD1306) (b : list Z) :
  wf d -> length b = length (buf d) -> wf (with_buf d b).
Proof.
  intros (Hw & Hh & H8 & Hlen) Hb. unfold wf, len in *. cbn. rewrite Hb. auto.
Qed.

Lemma Point_off_screen (d : SSD1306) (x y : Z) (c : Gray16) :
  ~ on_screen d x y -> Point d x y c = Done d.
Proof.
  unfold on_screen, Point. intros H.
  destruct (Z.geb_spec x (width d)); [reflexivity|].
  destruct (Z.geb_spec y (height d)); [reflexivity|].
  destruct (Z.ltb_spec x 0); [reflexivity|].
  destruct (Z.ltb_spec y 0); [reflexivity|].
  lia.
Qed.

Lemma Point_on_screen (d : SSD1306) (x y : Z) (c : Gray16) :
  wf d -> on_screen d x y ->
  Point d x y c
    = Done (with_buf d (alter (blend c (2 ^ (y mod 8)))
                          (Z.to_nat (width d * (y ÷ 8) + x)) (buf d))).
Proof.
  intros Hwf Hon. pose proof (element_in_buf d x y Hwf Hon) as He.
  destruct Hon as [Hx Hy]. unfold Point.
  destruct (Z.geb_spec x (width d)); [lia|].
  destruct (Z.geb_spec y (height d)); [lia|].
  destruct (Z.ltb_spec x 0); [lia|].
  destruct (Z.ltb_spec y 0); [lia|].
  cbn. rewrite bit_mask. apply store_in_buf. assumption.
Qed.

(* Point always returns, and keeps the geometry of the display. *)
Lemma Point_total (d : SSD1306) (x y : Z) (c : Gray16) :
  wf d ->
  exists d', Point d x y c = Done d' /\ wf d' /\
    width d' = width d /\ height d' = height d /\ iface d' = iface d.
Proof.
  intros Hwf.
  assert (Hdec : on_screen d x y \/ ~ on_screen d x y) by (unfold on_screen; lia).
  destruct Hdec as [Hon | Hoff].
  - rewrite Point_on_screen by assumption. eexists. split; [reflexivity|].
    split; [|repeat split]. apply wf_with_buf; [assumption|]. cbn. apply length_alter.
  - rewrite Point_off_screen by assumption. exists d. repeat split; apply Hwf.
Qed.

Lemma pixel_on_screen (d : SSD1306) (x y : Z) :
  on_screen d x y ->
  pixel d x y = (fun v => Z.testbit v (y mod 8)) <$> buf d !! Z.to_nat (width d * (y ÷ 8) + x).
Proof.
  intros [Hx Hy]. unfold pixel, byte_at.
  destruct (Z.leb_spec 0 x); [|lia]. destruct (Z.ltb_spec x (width d)); [|lia].
  destruct (Z.leb_spec 0 y); [|lia]. destruct (Z.ltb_spec y (height d)); [|lia].
  cbn. assert (0 <= y ÷ 8) by zq.
  destruct (Z.leb_spec 0 (width d * (y ÷ 8) + x)); [reflexivity | nia].
Qed.

Lemma pixel_off_screen (d : SSD1306) (x y : Z) :
  ~ on_screen d x y -> pixel d x y = None.
Proof.
  unfold on_screen, pixel. intros H.
  destruct (Z.leb_spec 0 x); [|reflexivity]. destruct (Z.ltb_spec x (width d)); [|reflexivity].
  destruct (Z.leb_spec 0 y); [|reflexivity]. destruct (Z.ltb_spec y (height d)); [|reflexivity].
  lia.
Qed.

(* Point gives pixel (x, y) the colour and leaves every other pixel as
   it was. *)
Lemma Point_pixels (d : SSD1306) (x y : Z) (c : Gray16) :
  wf d -> on_screen d x y ->
  exists d', Point d x y c = Done d' /\
    pixel d' x y = Some (is_white c) /\
    forall a b, (a, b) <> (x, y) -> pixel d' a b = pixel d a b.
Proof.
  intros Hwf Hon. pose proof (element_in_buf d x y Hwf Hon) as He.
  rewrite Point_on_screen by assumption. eexists. split; [reflexivity|].
  set (d' := with_buf d _).
  assert (Hon' : forall a b, on_screen d' a b <-> on_screen d a b) by (intros; reflexivity).
  split.
  - rewrite pixel_on_screen by (apply Hon'; assumption). cbn.
    rewrite list_lookup_alter_eq.
    destruct (buf d !! Z.to_nat (width d * (y ÷ 8) + x)) as [v|] eqn:E.
    + cbn. rewrite testbit_blend by zq. rewrite Z.eqb_refl. reflexivity.
    + apply lookup_ge_None in E. unfold len in He. lia.
  - intros a b Hne.
    assert (Hdec : on_screen d a b \/ ~ on_screen d a b) by (unfold on_screen; lia).
    destruct Hdec as [Hab | Hab].
    + rewrite !pixel_on_screen by assumption. cbn.
      destruct Hon as [Hx Hy]. destruct Hab as [Ha Hb].
      assert (0 <= y ÷ 8) by zq. assert (0 <= b ÷ 8) by zq.
      destruct (Z.eq_dec (width d * (y ÷ 8) + x) (width d * (b ÷ 8) + a)) as [Heq | Hneq].
      * apply element_inj in Heq as [-> Hq]; try lia.
        rewrite <- Hq. rewrite list_lookup_alter_eq.
        destruct (buf d !! Z.to_nat (width d * (y ÷ 8) + a)) as [v|]; [|reflexivity].
        cbn. rewrite testbit_blend by zq.
        destruct (Z.eqb_spec (b mod 8) (y mod 8)) as [Hm | Hm]; [|reflexivity].
        exfalso. apply Hne. f_equal. zq.
      * rewrite list_lookup_alter_ne by nia. reflexivity.
    + rewrite !pixel_off_screen by assumption. reflexivity.
Qed.

(* drawing in colour c never removes colour c from a pixel *)
Lemma Point_keeps (d d' : SSD1306) (x y a b : Z) (c : Gray16) :
  wf d -> Point d x y c = Done d' ->
  pixel d a b = Some (is_white c) -> pixel d' a b = Some (is_white c).
Proof.
  intros Hwf HP Hpix.
  assert (Hdec : on_screen d x y \/ ~ on_screen d x y) by (unfold on_screen; lia).
  destruct Hdec as [Hon | Hoff].
  - destruct (Point_pixels d x y c Hwf Hon) as (d1 & H1 & Hset & Hother).
    rewrite H1 in HP. injection HP as <-.
    destruct (decide ((a, b) = (x, y))) as [Heq | Hne].
    + injection Heq as -> ->. assumption.
    + rewrite Hother by assumption. assumption.
  - rewrite Point_off_screen in HP by assumption. injection HP as <-. assumption.
Qed.

(** ** Rasterizer: Line *)

Lemma Point_returns (d : SSD1306) (x y : Z) (c : Gray16) :
  wf d -> exists d', Point d x y c = Done d' /\ wf d'.
Proof.
  intros Hwf. destruct (Point_total d x y c Hwf) as (d' & H & Hwf' & _). eauto.
Qed.

Section LineLoop.
Variables (x1 y1 sx sy dx dy : Z) (c : Gray16).
Hypothesis Hdx : 0 <= dx.
Hypothesis Hdy : 0 <= dy.

Local Abbreviation inv := (line_inv x1 y1 sx sy dx dy).

Lemma line_inv_x_step (x y err rx ry : Z) :
  inv x y err rx ry -> (x, y) <> (x1, y1) -> 2 * err > - dy -> 0 < rx.
Proof.
  intros (Hrx & Hry & Hx & Hy & Hsx & Hsy & Herr) Hne Hgt.
  destruct (Z.eq_dec rx 0) as [E | E]; [|lia]. exfalso.
  subst rx. assert (x = x1) by lia. subst x.
  assert (1 <= ry) by (destruct (Z.eq_dec ry 0); [subst ry; exfalso; apply Hne; f_equal; lia | lia]).
  assert (0 <= dx * (ry - 1)) by nia. nia.
Qed.

Lemma line_inv_y_step (x y err rx ry : Z) :
  inv x y err rx ry -> (x, y) <> (x1, y1) -> 2 * err < dx -> 0 < ry.
Proof.
  intros (Hrx & Hry & Hx & Hy & Hsx & Hsy & Herr) Hne Hlt.
  destruct (Z.eq_dec ry 0) as [E | E]; [|lia]. exfalso.
  subst ry. assert (y = y1) by lia. subst y.
  assert (1 <= rx) by (destruct (Z.eq_dec rx 0); [subst rx; exfalso; apply Hne; f_equal; lia | lia]).
  assert (0 <= dy * (rx - 1)) by nia. nia.
Qed.

Lemma line_inv_progress (x y err rx ry : Z) :
  inv x y err rx ry -> (x, y) <> (x1, y1) ->
  2 * err > - dy \/ 2 * err < dx.
Proof.
  intros (Hrx & Hry & Hx & Hy & Hsx & Hsy & Herr) Hne.
  destruct (Z.eq_dec dx 0) as [Ex | Ex]; destruct (Z.eq_dec dy 0) as [Ey | Ey]; try lia.
  exfalso. apply Hne. f_equal; nia.
Qed.

Lemma Line_loop_total (fuel : nat) :
  forall (d : SSD1306) (x y err rx ry : Z),
    wf d -> inv x y err rx ry -> (Z.to_nat (rx + ry) < fuel)%nat ->
    exists d', Line_loop fuel d x y x1 y1 sx sy dx dy err c = Done d' /\ wf d'.
Proof.
  induction fuel as [|fuel IH]; intros d x y err rx ry Hwf Hinv Hfuel; [lia|].
  cbn [Line_loop].
  destruct (Point_total d x y c Hwf) as (d1 & -> & Hwf1 & _). cbn [obind].
  destruct ((x =? x1) && (y =? y1)) eqn:Eend; [exists d1; auto|].
  assert (Hne : (x, y) <> (x1, y1)).
  { intros [= -> ->]. rewrite !Z.eqb_refl in Eend. discriminate. }
  pose proof (line_inv_x_step x y err rx ry Hinv Hne) as Hxs.
  pose proof (line_inv_y_step x y err rx ry Hinv Hne) as Hys.
  pose proof (line_inv_progress x y err rx ry Hinv Hne) as Hpr.
  destruct Hinv as (Hrx & Hry & Hx & Hy & Hsx & Hsy & Herr).
  match goal with
  | |- context [if ?t then Point _ _ _ _ else _] => destruct t
  end; [apply Point_returns; assumption|].
  destruct (Z.gtb_spec (2 * err) (- dy)) as [Gx | Gx];
    destruct (Z.ltb_spec (2 * err) dx) as [Ly | Ly].
  - apply (IH d1 _ _ _ (rx - 1) (ry - 1) Hwf1); [|lia].
    repeat split; try lia; nia.
  - apply (IH d1 _ _ _ (rx - 1) ry Hwf1); [|lia].
    repeat split; try lia; nia.
  - apply (IH d1 _ _ _ rx (ry - 1) Hwf1); [|lia].
    repeat split; try lia; nia.
  - lia.
Qed.
End LineLoop.

(* Line always returns: the budget of its loop is never used up. *)
Lemma Line_total (d : SSD1306) (x0 y0 x1 y1 : Z) (c : Gray16) :
  wf d -> exists d', Line d x0 y0 x1 y1 c = Done d' /\ wf d'.
Proof.
  intros Hwf. unfold Line.
  eapply (Line_loop_total x1 y1 _ _ (Z.abs (x1 - x0)) (Z.abs (y1 - y0)) c);
    [lia | lia | exact Hwf | | ].
  2: { instantiate (1 := Z.abs (y1 - y0)). instantiate (1 := Z.abs (x1 - x0)). lia. }
  unfold line_inv.
  destruct (Z.ltb_spec x0 x1); destruct (Z.ltb_spec y0 y1); repeat split; lia.
Qed.

Section LineEnds.
Variables (x1 y1 sx sy dx dy : Z) (c : Gray16).

(* a pixel that has the colour of the line keeps it *)
Lemma Line_loop_keeps (a b : Z) (fuel : nat) :
  forall (d d' : SSD1306) (x y err : Z),
    wf d -> pixel d a b = Some (is_white c) ->
    Line_loop fuel d x y x1 y1 sx sy dx dy err c = Done d' ->
    pixel d' a b = Some (is_white c).
Proof.
  induction fuel as [|fuel IH]; intros d d' x y err Hwf Hpix Hrun; [discriminate|].
  cbn [Line_loop] in Hrun.
  destruct (Point_returns d x y c Hwf) as (d1 & HP & Hwf1).
  rewrite HP in Hrun. cbn [obind] in Hrun.
  pose proof (Point_keeps d d1 x y a b c Hwf HP Hpix) as Hpix1.
  destruct ((x =? x1) && (y =? y1)); [injection Hrun as <-; assumption|].
  match type of Hrun with
  | (if ?t then _ else _) = _ => destruct t
  end.
  - eapply Point_keeps; eassumption.
  - eapply IH; eassumption.
Qed.

(* the loop ends by plotting the end point *)
Lemma Line_loop_end (fuel : nat) :
  forall (d d' : SSD1306) (x y err : Z),
    wf d -> on_screen d x1 y1 ->
    Line_loop fuel d x y x1 y1 sx sy dx dy err c = Done d' ->
    pixel d' x1 y1 = Some (is_white c).
Proof.
  induction fuel as [|fuel IH]; intros d d' x y err Hwf Hon Hrun; [discriminate|].
  cbn [Line_loop] in Hrun.
  destruct (Point_total d x y c Hwf) as (d1 & HP & Hwf1 & Hw & Hh & _).
  rewrite HP in Hrun. cbn [obind] in Hrun.
  assert (Hon1 : on_screen d1 x1 y1) by (unfold on_screen; rewrite Hw, Hh; exact Hon).
  destruct (Z.eqb_spec x x1) as [-> | Ex]; [destruct (Z.eqb_spec y y1) as [-> | Ey]|];
    cbn [andb] in Hrun.
  - injection Hrun as <-.
    destruct (Point_pixels d x1 y1 c Hwf Hon) as (d2 & HP2 & Hset & _).
    rewrite HP in HP2. injection HP2 as <-. assumption.
  - match type of Hrun with
    | (if (?u =? _) && _ then _ else _) = _ =>
        destruct (Z.eqb_spec u x1) as [Eu | Eu]; [rewrite Eu in Hrun|]; cbn [andb] in Hrun
    end; [|eapply IH; eassumption].
    eapply IH; eassumption.
  - match type of Hrun with
    | (if (?u =? _) && _ then _ else _) = _ =>
        destruct (Z.eqb_spec u x1) as [Eu | Eu]; [rewrite Eu in Hrun|]; cbn [andb] in Hrun
    end; [|eapply IH; eassumption].
    destruct (Z.eqb_spec y y1) as [-> | Ey]; [|eapply IH; eassumption].
    destruct (Point_pixels d1 x1 y1 c Hwf1 Hon1) as (d2 & HP2 & Hset & _).
    rewrite Hrun in HP2. injection HP2 as <-. assumption.
Qed.

(* the loop begins by plotting the point it is started at *)
Lemma Line_loop_start (fuel : nat) (d d' : SSD1306) (x y err : Z) :
  wf d -> on_screen d x y ->
  Line_loop fuel d x y x1 y1 sx sy dx dy err c = Done d' ->
  pixel d' x y = Some (is_white c).
Proof.
  intros Hwf Hon Hrun. destruct fuel as [|fuel]; [discriminate|].
  cbn [Line_loop] in Hrun.
  destruct (Point_pixels d x y c Hwf Hon) as (d1 & HP & Hset & _).
  destruct (Point_returns d x y c Hwf) as (d1' & HP' & Hwf1).
  rewrite HP in HP'. injection HP' as <-.
  rewrite HP in Hrun. cbn [obind] in Hrun.
  destruct ((x =? x1) && (y =? y1)); [injection Hrun as <-; assumption|].
  match type of Hrun with
  | (if ?t then _ else _) = _ => destruct t
  end.
  - eapply Point_keeps; eassumption.
  - eapply Line_loop_keeps; eassumption.
Qed.
End LineEnds.

Lemma Line_degenerate (d : SSD1306) (x y : Z) (c : Gray16) :
  Line d x y x y c = Point d x y c.
Proof.
  unfold Line. rewrite !Z.sub_diag. cbn [Z.abs Z.add Z.to_nat Line_loop].
  rewrite !Z.eqb_refl. cbn [andb]. destruct (Point d x y c); reflexivity.
Qed.

(** ** Rasterizer: Line over machine integers *)

Lemma round53_small (z : Z) : Z.abs z < 2 ^ 53 -> round53 z = z.
Proof.
  intros H. unfold round53. cbv zeta.
  destruct (Z.ltb_spec (Z.abs z) (2 ^ 53)); [reflexivity | lia].
Qed.

(* more turns do not change what the loop returns *)
Lemma Line_loop_more (x1 y1 sx sy dx dy : Z) (c : Gray16) (fuel : nat) :
  forall (d d' : SSD1306) (x y err : Z) (fuel' : nat),
    Line_loop fuel d x y x1 y1 sx sy dx dy err c = Done d' ->
    (fuel <= fuel')%nat ->
    Line_loop fuel' d x y x1 y1 sx sy dx dy err c = Done d'.
Proof.
  induction fuel as [|fuel IH]; intros d d' x y err fuel' Hrun Hle; [discriminate|].
  destruct fuel' as [|fuel']; [lia|].
  cbn [Line_loop] in Hrun |- *.
  destruct (Point d x y c) as [d1| |]; cbn [obind] in Hrun |- *; try discriminate.
  destruct ((x =? x1) && (y =? y1)); [exact Hrun|].
  match type of Hrun with
  | (if ?t then _ else _) = _ => destruct t
  end; [exact Hrun|].
  apply (IH _ _ _ _ _ _ Hrun). lia.
Qed.

Section MachineLine.
Variables (x1 y1 sx sy dx dy : Z) (c : Gray16).
Hypothesis Hdx : 0 <= dx <= 2 ^ 32.
Hypothesis Hdy : 0 <= dy <= 2 ^ 32.
Hypothesis Hx1 : int32 x1.
Hypothesis Hy1 : int32 y1.

(* As long as the differences have at most 32 bits, err stays within
   [-(dx + 2 dy), 2 dx + dy]: no float64 is rounded and no int wraps, and
   the loop over machine numbers is the loop over unbounded integers. *)
Lemma machine_Line_loop_agrees (fuel : nat) :
  forall (d : SSD1306) (x y err rx ry : Z),
    line_inv x1 y1 sx sy dx dy x y err rx ry ->
    - (dx + 2 * dy) <= err <= 2 * dx + dy ->
    machine.Line_loop fuel d x y x1 y1 sx sy dx dy err c =
    Line_loop fuel d x y x1 y1 sx sy dx dy err c.
Proof.
  induction fuel as [|fuel IH]; intros d x y err rx ry Hinv Herr; [reflexivity|].
  cbn [machine.Line_loop Line_loop].
  destruct (Point d x y c) as [d1| |]; cbn [obind]; try reflexivity.
  destruct ((x =? x1) && (y =? y1)) eqn:Eend; [reflexivity|].
  assert (Hne : (x, y) <> (x1, y1)).
  { intros [= -> ->]. rewrite !Z.eqb_refl in Eend. discriminate. }
  pose proof (line_inv_x_step x1 y1 sx sy dx dy ltac:(lia) ltac:(lia) x y err rx ry Hinv Hne) as Hxs.
  pose proof (line_inv_y_step x1 y1 sx sy dx dy x y err rx ry Hinv Hne) as Hys.
  destruct Hinv as (Hrx & Hry & Hx & Hy & Hsx & Hsy & Hf).
  unfold int32 in Hx1, Hy1.
  assert (Hxr : - 2 ^ 34 <= x <= 2 ^ 34) by nia.
  assert (Hyr : - 2 ^ 34 <= y <= 2 ^ 34) by nia.
  rewrite (round53_small (2 * err)) by lia.
  rewrite (round53_small (err - dy)) by lia.
  rewrite (wrap_small (x + sx)) by (unfold MinInt, MaxInt; lia).
  rewrite (wrap_small (y + sy)) by (unfold MinInt, MaxInt; lia).
  destruct (Z.gtb_spec (2 * err) (- dy)) as [Gx | Gx];
    destruct (Z.ltb_spec (2 * err) dx) as [Ly | Ly].
  - rewrite (round53_small (err - dy + dx)) by lia.
    destruct ((x + sx =? x1) && (y =? y1)); [reflexivity|].
    apply (IH d1 _ _ _ (rx - 1) (ry - 1)); [|lia].
    repeat split; try lia; nia.
  - destruct ((x + sx =? x1) && (y =? y1)); [reflexivity|].
    apply (IH d1 _ _ _ (rx - 1) ry); [|lia].
    repeat split; try lia; nia.
  - rewrite (round53_small (err + dx)) by lia.
    destruct ((x =? x1) && (y =? y1)); [reflexivity|].
    apply (IH d1 _ _ _ rx (ry - 1)); [|lia].
    repeat split; try lia; nia.
  - destruct ((x =? x1) && (y =? y1)); [reflexivity|].
    apply (IH d1 _ _ _ rx ry); [|lia].
    repeat split; try lia; nia.
Qed.
End MachineLine.

(* On end points of at most 32 bits, Line over machine numbers is the loop
   over unbounded integers, whatever the number of turns allowed. *)
Lemma machine_Line_agrees (fuel : nat) (d : SSD1306) (x0 y0 x1 y1 : Z) (c : Gray16) :
  int32 x0 -> int32 y0 -> int32 x1 -> int32 y1 ->
  machine.Line fuel d x0 y0 x1 y1 c =
  Line_loop fuel d x0 y0 x1 y1
    (if x0 <? x1 then 1 else -1) (if y0 <? y1 then 1 else -1)
    (Z.abs (x1 - x0)) (Z.abs (y1 - y0)) (Z.abs (x1 - x0) - Z.abs (y1 - y0)) c.
Proof.
  intros Hx0 Hy0 Hx1 Hy1. unfold machine.Line, machine.float64.
  pose proof Hx0 as Hx0'. pose proof Hy0 as Hy0'.
  pose proof Hx1 as Hx1'. pose proof Hy1 as Hy1'.
  unfold int32 in Hx0', Hy0', Hx1', Hy1'.
  rewrite (round53_small x0), (round53_small y0), (round53_small x1), (round53_small y1) by lia.
  rewrite (round53_small (x1 - x0)), (round53_small (y1 - y0)) by lia.
  rewrite (round53_small (Z.abs (x1 - x0) - Z.abs (y1 - y0))) by lia.
  apply (machine_Line_loop_agrees x1 y1 _ _ (Z.abs (x1 - x0)) (Z.abs (y1 - y0)) c
           ltac:(lia) ltac:(lia) Hx1 Hy1 fuel d x0 y0 _
           (Z.abs (x1 - x0)) (Z.abs (y1 - y0))); [|lia].
  unfold line_inv.
  destruct (Z.ltb_spec x0 x1); destruct (Z.ltb_spec y0 y1); repeat split; lia.
Qed.

(* What Line returns over unbounded integers, it returns over machine
   numbers, for end points of at most 32 bits and from |x1-x0| + |y1-y0| + 1
   turns on. *)
Lemma machine_Line_returns (d d' : SSD1306) (x0 y0 x1 y1 : Z) (c : Gray16) :
  int32 x0 -> int32 y0 -> int32 x1 -> int32 y1 ->
  Line d x0 y0 x1 y1 c = Done d' ->
  forall fuel, (S (Z.to_nat (Z.abs (x1 - x0) + Z.abs (y1 - y0))) <= fuel)%nat ->
    machine.Line fuel d x0 y0 x1 y1 c = Done d'.
Proof.
  intros Hx0 Hy0 Hx1 Hy1 Hrun fuel Hfuel.
  rewrite machine_Line_agrees by assumption.
  unfold Line in Hrun. eapply Line_loop_more; eassumption.
Qed.

(* a line from a point to itself, whatever the point *)
Lemma machine_Line_degenerate (fuel : nat) (d : SSD1306) (x y : Z) (c : Gray16) :
  machine.Line (S fuel) d x y x y c = Point d x y c.
Proof.
  unfold machine.Line. cbn [machine.Line_loop].
  rewrite !Z.eqb_refl. cbn [andb]. destruct (Point d x y c); reflexivity.
Qed.

(* beyond 53 bits float64 no longer tells neighbouring ints apart: both
   differences are 0 and the loop does not move *)
Lemma machine_Line_loop_stuck (fuel : nat) :
  machine.Line_loop fuel (blank IFACE_I2C 8 8) (2 ^ 53) 0 (2 ^ 53 + 1) 0 1 (-1) 0 0 0 White
    = Exhausted.
Proof.
  induction fuel as [|fuel IH]; [reflexivity|].
  cbn [machine.Line_loop].
  replace (Point (blank IFACE_I2C 8 8) (2 ^ 53) 0 White) with (Done (blank IFACE_I2C 8 8))
    by (vm_compute; reflexivity).
  cbn [obind].
  replace ((2 ^ 53 =? 2 ^ 53 + 1) && (0 =? 0)) with false by (vm_compute; reflexivity).
  replace (round53 (2 * 0)) with 0 by (vm_compute; reflexivity).
  replace (0 >? - 0) with false by reflexivity.
  replace (0 <? 0) with false by reflexivity.
  replace ((2 ^ 53 =? 2 ^ 53 + 1) && (0 =? 0)) with false by (vm_compute; reflexivity).
  exact IH.
Qed.

(** C7.  On a well-formed display, for end points whose coordinates have
    at most 32 bits, Line returns, after at most |x1-x0| + |y1-y0| + 1
    turns of its loop, and both of its end points, when they are on the
    screen, have the colour of the line afterwards.  For every point, a
    line from the point to itself is one call of Point, which colours
    that pixel and changes no other; and Line(0,0,4,0,White) on a clear
    8x8 display lights the pixels (0,0) to (4,0) and no others. *)
Theorem Line_plots_both_ends (d : SSD1306) (x0 y0 x1 y1 : Z) (c : Gray16) :
  wf d ->
  (int32 x0 -> int32 y0 -> int32 x1 -> int32 y1 ->
   exists d',
     (forall fuel, (S (Z.to_nat (Z.abs (x1 - x0) + Z.abs (y1 - y0))) <= fuel)%nat ->
        machine.Line fuel d x0 y0 x1 y1 c = Done d') /\
     (on_screen d x0 y0 -> pixel d' x0 y0 = Some (is_white c)) /\
     (on_screen d x1 y1 -> pixel d' x1 y1 = Some (is_white c))) /\
  (forall fuel, machine.Line (S fuel) d x0 y0 x0 y0 c = Point d x0 y0 c) /\
  (on_screen d x0 y0 ->
     exists d', (forall fuel, machine.Line (S fuel) d x0 y0 x0 y0 c = Done d') /\
       pixel d' x0 y0 = Some (is_white c) /\
       forall a b, (a, b) <> (x0, y0) -> pixel d' a b = pixel d a b) /\
  (~ on_screen d x0 y0 -> forall fuel, machine.Line (S fuel) d x0 y0 x0 y0 c = Done d) /\
  (exists d',
     (forall fuel, (5 <= fuel)%nat ->
        machine.Line fuel (blank IFACE_I2C 8 8) 0 0 4 0 White = Done d') /\
     buf d' = [1; 1; 1; 1; 1; 0; 0; 0] /\
     forall a b, on_screen d' a b ->
       pixel d' a b = Some ((a <=? 4) && (b =? 0))).
Proof.
  intros Hwf. split; [|split; [|split; [|split]]].
  - intros Hx0 Hy0 Hx1 Hy1.
    destruct (Line_total d x0 y0 x1 y1 c Hwf) as (d' & Hrun & _).
    exists d'. split; [apply machine_Line_returns; assumption|].
    unfold Line in Hrun. split; intros Hon.
    + eapply Line_loop_start; eassumption.
    + eapply Line_loop_end; eassumption.
  - intros fuel. apply machine_Line_degenerate.
  - intros Hon. destruct (Point_pixels d x0 y0 c Hwf Hon) as (d' & HP & Hset & Hrest).
    exists d'. split; [|split; assumption].
    intros fuel. rewrite machine_Line_degenerate. exact HP.
  - intros Hoff fuel. rewrite machine_Line_degenerate. apply Point_off_screen; assumption.
  - eexists. split; [|split].
    + intros fuel Hfuel.
      apply (machine_Line_returns (blank IFACE_I2C 8 8) _ 0 0 4 0 White);
        try (unfold int32; lia).
      vm_compute; reflexivity.
    + reflexivity.
    + intros a b [Ha Hb]. cbn in Ha, Hb.
      assert (Ea : a = 0 \/ a = 1 \/ a = 2 \/ a = 3 \/ a = 4 \/ a = 5 \/ a = 6 \/ a = 7) by lia.
      assert (Eb : b = 0 \/ b = 1 \/ b = 2 \/ b = 3 \/ b = 4 \/ b = 5 \/ b = 6 \/ b = 7) by lia.
      repeat (destruct Ea as [-> | Ea]); try subst a;
        repeat (destruct Eb as [-> | Eb]); try subst b; vm_compute; reflexivity.
Qed.

Lemma Line_plots_both_ends_witness :
  wf (blank IFACE_I2C 128 64) /\
  exists d', machine.Line 191 (blank IFACE_I2C 128 64) 0 0 127 63 White = Done d' /\
    pixel d' 0 0 = Some true /\ pixel d' 127 63 = Some true.
Proof.
  assert (Hwf : wf (blank IFACE_I2C 128 64)).
  { unfold wf. cbn. repeat split; try lia; reflexivity. }
  split; [exact Hwf|].
  destruct (Line_plots_both_ends (blank IFACE_I2C 128 64) 0 0 127 63 White Hwf)
    as [H _].
  destruct H as (d' & Hrun & H0 & H1); try (unfold int32; lia).
  exists d'. split; [apply Hrun; cbn; lia|]. split.
  - apply H0. unfold on_screen. cbn. lia.
  - apply H1. unfold on_screen. cbn. lia.
Defined.

(** C7, as it was claimed for every pair of end points: with 64-bit
    coordinates Line(2^53, 0, 2^53+1, 0) never returns.  float64 rounds
    2^53+1 to 2^53, so that dx = dy = err = 0, neither step is taken and
    the loop runs on the spot, however many turns it is given. *)
Theorem Line_spins_beyond_float64 :
  machine.float64 (2 ^ 53 + 1) = machine.float64 (2 ^ 53) /\
  forall fuel : nat,
    machine.Line fuel (blank IFACE_I2C 8 8) (2 ^ 53) 0 (2 ^ 53 + 1) 0 White = Exhausted.
Proof.
  split; [vm_compute; reflexivity|]. intros fuel.
  unfold machine.Line, machine.float64.
  replace (round53 (2 ^ 53 + 1)) with (2 ^ 53) by (vm_compute; reflexivity).
  replace (round53 (2 ^ 53)) with (2 ^ 53) by (vm_compute; reflexivity).
  replace (round53 0) with 0 by reflexivity.
  replace (Z.abs (round53 (2 ^ 53 - 2 ^ 53))) with 0 by (vm_compute; reflexivity).
  replace (round53 (0 - 0)) with 0 by reflexivity.
  replace (2 ^ 53 <? 2 ^ 53 + 1) with true by (vm_compute; reflexivity).
  replace (0 <? 0) with false by reflexivity.
  apply machine_Line_loop_stuck.
Qed.

(** ** Rasterizer: the primitives that go through Point *)

Ltac point_step Hwf :=
  match goal with
  | |- context [obind (Point ?d ?x ?y ?c) _] =>
      let d' := fresh "d" in
      let H := fresh "Hwf" in
      destruct (Point_returns d x y c Hwf) as (d' & -> & H); cbn [obind]
  end.

Lemma Circle_octants_total (d : SSD1306) (x0 y0 x y : Z) (c : Gray16) :
  wf d -> exists d', Circle_octants d x0 y0 x y c = Done d' /\ wf d'.
Proof.
  intros Hwf. unfold Circle_octants.
  point_step Hwf. point_step Hwf0. point_step Hwf1. point_step Hwf2.
  point_step Hwf3. point_step Hwf4. point_step Hwf5.
  apply Point_returns. assumption.
Qed.

Lemma Circle_loop_total (fuel : nat) :
  forall (d : SSD1306) (x0 y0 f ddF_x ddF_y x y : Z) (c : Gray16),
    wf d -> (Z.to_nat (y - x) <= fuel)%nat ->
    exists d', Circle_loop fuel d x0 y0 f ddF_x ddF_y x y c = Done d' /\ wf d'.
Proof.
  induction fuel as [|fuel IH]; intros d x0 y0 f ddF_x ddF_y x y c Hwf Hfuel.
  - cbn [Circle_loop]. destruct (Z.ltb_spec x y); [lia|]. eauto.
  - cbn [Circle_loop]. destruct (Z.ltb_spec x y); [|eauto].
    destruct (Circle_octants_total d x0 y0 (x + 1) (if f >=? 0 then y - 1 else y) c Hwf)
      as (d1 & -> & Hwf1).
    cbn [obind]. apply IH; [assumption|].
    destruct (f >=? 0); lia.
Qed.

(* Circle never panics and never runs out of budget *)
Lemma Circle_total (d : SSD1306) (x0 y0 radius : Z) (c : Gray16) :
  wf d -> exists d', Circle d x0 y0 radius c = Done d' /\ wf d'.
Proof.
  intros Hwf. unfold Circle.
  point_step Hwf. point_step Hwf0. point_step Hwf1. point_step Hwf2.
  apply Circle_loop_total; [assumption | lia].
Qed.

(* the row-by-row fill of Rectangle never panics either *)
Lemma Rectangle_rows_total (n : nat) :
  forall (d : SSD1306) (x0 y x1 : Z) (c : Gray16),
    wf d -> exists d', Rectangle_rows n d x0 y x1 c = Done d' /\ wf d'.
Proof.
  induction n as [|n IH]; intros d x0 y x1 c Hwf; cbn [Rectangle_rows]; [eauto|].
  destruct (Line_total d x0 y x1 y c Hwf) as (d1 & -> & Hwf1). cbn [obind].
  apply IH. assumption.
Qed.

(* a rectangle that does not cross a page boundary is drawn through Line
   and Point only, and is safe for all coordinates *)
Lemma Rectangle_within_page_total (d : SSD1306) (x0 y0 x1 y1 : Z) (c : Gray16) :
  wf d -> y0 ÷ 8 = y1 ÷ 8 ->
  exists d', Rectangle d x0 y0 x1 y1 c = Done d' /\ wf d'.
Proof.
  intros Hwf Hpage. unfold Rectangle.
  destruct ((x0 >? x1) || (y0 >? y1)); [eauto|].
  destruct ((x0 =? x1) || (y0 =? y1)); [apply Line_total; assumption|].
  rewrite Hpage, Z.ltb_irrefl. apply Rectangle_rows_total. assumption.
Qed.

(** ** Rasterizer: the page path of Rectangle *)

(* The page path can panic, but its loops do not run out of budget. *)
Lemma store_returns_or_faults (d : SSD1306) (e m : Z) (c : Gray16) :
  store d e m c <> Exhausted.
Proof.
  unfold store, buf_modify. destruct ((0 <=? e) && (e <? len (buf d))); discriminate.
Qed.

Lemma Rectangle_fill_budget (n : nat) :
  forall (d : SSD1306) (x page b : Z) (c : Gray16),
    Rectangle_fill n d x page b c <> Exhausted.
Proof.
  induction n as [|n IH]; intros d x page b c; cbn [Rectangle_fill]; [discriminate|].
  pose proof (store_returns_or_faults d (width d * page + x) b c) as Hs.
  destruct (store d (width d * page + x) b c) as [d1| |]; cbn [obind];
    [apply IH | discriminate | contradiction].
Qed.

Lemma Rectangle_pages_budget (x0 x1 y1 : Z) (c : Gray16) (fuel : nat) :
  forall (d : SSD1306) (y0 : Z),
    (Z.to_nat (y1 ÷ 8 - y0 ÷ 8) <= fuel)%nat ->
    Rectangle_pages fuel d x0 y0 x1 y1 c <> Exhausted.
Proof.
  induction fuel as [|fuel IH]; intros d y0 Hfuel; cbn [Rectangle_pages];
    destruct (Z.ltb_spec (y0 ÷ 8) (y1 ÷ 8)); try discriminate; [lia|].
  pose proof (Rectangle_fill_budget (turns x0 x1) d x0 (y0 ÷ 8) 255 c) as Hf.
  destruct (Rectangle_fill (turns x0 x1) d x0 (y0 ÷ 8) 255 c) as [d1| |]; cbn [obind];
    [|discriminate | contradiction].
  apply IH. replace ((y0 ÷ 8 * 8 + 8) ÷ 8) with (y0 ÷ 8 + 1) by zq. lia.
Qed.

Lemma Rectangle_budget (d : SSD1306) (x0 y0 x1 y1 : Z) (c : Gray16) :
  wf d -> Rectangle d x0 y0 x1 y1 c <> Exhausted.
Proof.
  intros Hwf. unfold Rectangle.
  destruct ((x0 >? x1) || (y0 >? y1)); [discriminate|].
  destruct ((x0 =? x1) || (y0 =? y1)).
  { destruct (Line_total d x0 y0 x1 y1 c Hwf) as (d' & -> & _). discriminate. }
  destruct (y0 ÷ 8 <? y1 ÷ 8).
  - match goal with
    | |- obind (Rectangle_fill ?n ?d ?x ?p ?b ?c) _ <> _ =>
        pose proof (Rectangle_fill_budget n d x p b c) as Hf;
        destruct (Rectangle_fill n d x p b c) as [d1| |]; cbn [obind];
        [|discriminate | contradiction]
    end.
    pose proof (Rectangle_pages_budget x0 x1 y1 c (Z.to_nat (y1 ÷ 8 - y0 ÷ 8)) d1 y0
                  ltac:(lia)) as Hp.
    destruct (Rectangle_pages (Z.to_nat (y1 ÷ 8 - y0 ÷ 8)) d1 x0 y0 x1 y1 c) as [d2| |];
      cbn [obind]; [|discriminate | contradiction].
    apply Rectangle_fill_budget.
  - destruct (Rectangle_rows_total (turns y0 y1) d x0 y0 x1 c Hwf) as (d' & -> & _).
    discriminate.
Qed.

(** C3.  Rectangle's page path writes the buffer without the bounds check
    that Point makes: a box that reaches one row below an 8x16 screen
    indexes byte 16 of a 16-byte buffer and the call panics, where the
    same rows drawn through Line are clipped without harm. *)
Theorem Rectangle_faults_off_screen :
  Rectangle (blank IFACE_I2C 8 16) 0 0 1 16 White = Fault /\
  wf (blank IFACE_I2C 8 16) /\
  Rectangle_rows (turns 0 16) (blank IFACE_I2C 8 16) 0 0 1 White
    = Done (with_buf (blank IFACE_I2C 8 16)
              [255; 255; 0; 0; 0; 0; 0; 0; 255; 255; 0; 0; 0; 0; 0; 0]).
Proof.
  split; [vm_compute; reflexivity|].
  split; [unfold wf; cbn; repeat split; lia || reflexivity|].
  vm_compute. reflexivity.
Qed.

(** C1.  On an all-clear 8x16 display the box (0,3)-(1,9) drawn by
    Rectangle leaves 0xff in the two top bytes, rows 0 to 7, while the
    row-by-row fill with Line leaves 0xf8, rows 3 to 7: the page path and
    the naive path differ. *)
Theorem Rectangle_differs_from_rows :
  Rectangle (blank IFACE_I2C 8 16) 0 3 1 9 White
    = Done (with_buf (blank IFACE_I2C 8 16)
              [255; 255; 0; 0; 0; 0; 0; 0; 3; 3; 0; 0; 0; 0; 0; 0]) /\
  Rectangle_rows (turns 3 9) (blank IFACE_I2C 8 16) 0 3 1 White
    = Done (with_buf (blank IFACE_I2C 8 16)
              [248; 248; 0; 0; 0; 0; 0; 0; 3; 3; 0; 0; 0; 0; 0; 0]) /\
  byte_shl 255 (to_uint (Z.rem 3 8 - 1)) = 252 /\
  Rectangle (blank IFACE_I2C 8 16) 0 3 1 9 White
    <> Rectangle_rows (turns 3 9) (blank IFACE_I2C 8 16) 0 3 1 White.
Proof.
  repeat split; try (vm_compute; reflexivity).
  vm_compute. discriminate.
Qed.

(** ** Display session: the flush *)

Section DrawLoop.
Variable env : environment.
Variable d : SSD1306.
Variables n r : nat.
Hypothesis bus : iface d = IFACE_I2C.
Hypothesis Hlen : length (buf d) = (32 * n + r)%nat.
Hypothesis Hr : (r < 32)%nat.

Lemma chunk_full (j : nat) : (j < n)%nat -> length (chunk (buf d) j) = 32%nat.
Proof.
  intros Hj. unfold chunk. rewrite length_take, length_drop. lia.
Qed.

Lemma slice_chunk (j : nat) (i : Z) :
  i = Z.of_nat (32 * j) -> (j < n)%nat ->
  slice (buf d) i (i + 32) = Done (chunk (buf d) j).
Proof.
  intros -> Hj. unfold slice, len.
  destruct (Z.leb_spec 0 (Z.of_nat (32 * j))); [|lia].
  destruct (Z.leb_spec (Z.of_nat (32 * j)) (Z.of_nat (32 * j) + 32)); [|lia].
  destruct (Z.leb_spec (Z.of_nat (32 * j) + 32) (Z.of_nat (length (buf d)))); [|lia].
  cbn [andb]. unfold chunk.
  replace (Z.of_nat (32 * j) + 32 - Z.of_nat (32 * j)) with 32 by lia.
  rewrite Nat2Z.id. reflexivity.
Qed.

Lemma slice_short (i : Z) :
  i = Z.of_nat (32 * n) -> r <> 0%nat ->
  slice (buf d) i (i + 32) = Fault.
Proof.
  intros -> Hr0. unfold slice, len.
  destruct (Z.leb_spec (Z.of_nat (32 * n) + 32) (Z.of_nat (length (buf d)))); [lia|].
  rewrite andb_false_r. reflexivity.
Qed.

(* One run of the loop from chunk j on, with m whole chunks ahead:
   either the bus refuses the k-th of them and the loop returns that
   error, or it takes them all and the loop ends: normally when the
   buffer ends there, by a panic when a shorter rest is left. *)
Lemma Draw_loop_run (m : nat) :
  forall (j fuel : nat) (i : Z) (l : list event),
    i = Z.of_nat (32 * j) ->
    (j + m = n)%nat -> (m + (if r =? 0 then 0 else 1) <= fuel)%nat ->
    let cs := map (chunk (buf d)) (seq j m) in
    let run := Draw_loop fuel env i {| disp := d; log := l |} in
    (exists k e, (1 <= k <= m)%nat /\
       run = Done (Some e, {| disp := d; log := l ++ data_frames (take k cs) |}) /\
       env (l ++ data_frames (take k cs)) = Some e /\
       forall i, (S i < k)%nat -> env (l ++ data_frames (take (S i) cs)) = None)
    \/
    ((forall i, (i < m)%nat -> env (l ++ data_frames (take (S i) cs)) = None) /\
     run = if (r =? 0)%nat then Done (None, {| disp := d; log := l ++ data_frames cs |})
           else Fault).
Proof.
  induction m as [|m IH]; intros j fuel i l Hi Hj Hfuel cs run.
  - right. split; [intros i0 Hi0; lia|].
    subst run cs. cbn [seq map data_frames]. rewrite app_nil_r.
    assert (j = n) by lia. subst j.
    destruct (Nat.eqb_spec r 0) as [Hr0 | Hr0].
    + destruct fuel; cbn [Draw_loop]; unfold io_bind, self, obind; cbn;
        (destruct (Z.ltb_spec i (len (buf d))); [unfold len in *; lia|]);
        reflexivity.
    + destruct fuel as [|fuel]; [lia|]. cbn [Draw_loop].
      unfold io_bind at 1. unfold self at 1. cbn [obind fst snd disp].
      destruct (Z.ltb_spec i (len (buf d))); [|unfold len in *; lia].
      unfold io_bind at 1. unfold io_lift. rewrite slice_short by assumption.
      reflexivity.
  - destruct fuel as [|fuel]; [lia|].
    assert (Hjn : (j < n)%nat) by lia.
    assert (Hrun : run =
      match env (l ++ [WriteI2C 64 (chunk (buf d) j)]) with
      | Some e => Done (Some e, {| disp := d; log := l ++ [WriteI2C 64 (chunk (buf d) j)] |})
      | None => Draw_loop fuel env (i + 32)
                  {| disp := d; log := l ++ [WriteI2C 64 (chunk (buf d) j)] |}
      end).
    { subst run. cbn [Draw_loop].
      unfold io_bind at 1. unfold self at 1. cbn [obind fst snd disp].
      destruct (Z.ltb_spec i (len (buf d))); [|unfold len in *; lia].
      unfold io_bind at 1. unfold io_lift. rewrite (slice_chunk j) by assumption.
      cbn [obind fst snd].
      unfold io_bind at 1. unfold WriteData, io_bind at 1, self at 1.
      cbn [obind fst snd disp]. rewrite bus. cbn [Z.eqb IFACE_I2C Pos.eqb].
      rewrite len_is_1, chunk_full by assumption. cbn [Nat.eqb].
      unfold call. cbn [obind fst snd disp log].
      destruct (env (l ++ [WriteI2C 64 (chunk (buf d) j)])); reflexivity. }
    subst cs. cbn [seq map].
    destruct (env (l ++ [WriteI2C 64 (chunk (buf d) j)])) as [e|] eqn:Eenv.
    + left. exists 1%nat, e. cbn [take data_frames map].
      split; [lia|]. split; [exact Hrun|]. split; [exact Eenv|].
      intros i0 Hi0. lia.
    + destruct (IH (S j) fuel (i + 32) (l ++ [WriteI2C 64 (chunk (buf d) j)])
                  ltac:(lia) ltac:(lia) ltac:(lia)) as [(k & e & Hk & Hk1 & Hk2 & Hk3) | [Hall Hend]].
      * left. exists (S k), e. cbn [take data_frames map].
        rewrite <- app_assoc in Hk1, Hk2. cbn [app] in Hk1, Hk2.
        split; [lia|]. split; [rewrite Hrun; exact Hk1|]. split; [exact Hk2|].
        intros [|i0] Hi0.
        -- cbn [take map]. exact Eenv.
        -- specialize (Hk3 i0 ltac:(lia)).
           rewrite <- app_assoc in Hk3. exact Hk3.
      * right. split.
        -- intros [|i0] Hi0.
           ++ cbn [take data_frames map]. exact Eenv.
           ++ specialize (Hall i0 ltac:(lia)).
              rewrite <- app_assoc in Hall. exact Hall.
        -- rewrite Hrun, Hend. cbn [data_frames map]. rewrite <- app_assoc. reflexivity.
Qed.
End DrawLoop.

Lemma chunks_concat (b : list Z) (m : nat) :
  forall j, concat (map (chunk b) (seq j m)) = take (32 * m) (drop (32 * j) b).
Proof.
  induction m as [|m IH]; intros j.
  - rewrite Nat.mul_0_r. reflexivity.
  - cbn [seq map concat]. rewrite IH. unfold chunk.
    replace (32 * S j)%nat with (32 * j + 32)%nat by lia.
    rewrite <- drop_drop, take_take_drop. f_equal. lia.
Qed.

Lemma chunks_whole (b : list Z) (n : nat) :
  length b = (32 * n)%nat ->
  concat (chunks b n) = b /\ Forall (fun ck => length ck = 32%nat) (chunks b n) /\
  length (chunks b n) = n.
Proof.
  intros Hlen. unfold chunks. split; [|split].
  - rewrite chunks_concat. rewrite drop_0. apply take_ge. lia.
  - apply Forall_forall. intros ck Hin.
    apply list_elem_of_fmap in Hin as (k & -> & Hk).
    apply elem_of_seq in Hk. unfold chunk. rewrite length_take, length_drop. lia.
  - rewrite length_map, length_seq. reflexivity.
Qed.

Lemma Draw_on_bus (env : environment) (s : session) :
  iface (disp s) = IFACE_I2C ->
  Draw env s = Draw_loop (length (buf (disp s))) env 0 {| disp := disp s; log := log s |}.
Proof.
  intros bus. unfold Draw, io_bind, self. cbn [obind fst snd]. rewrite bus.
  destruct s; reflexivity.
Qed.

(** C6.  On a bus display whose buffer is n whole 32-byte chunks, Draw
    sends the chunks in increasing order, each as one data frame under the
    prefix 0x40 and nothing else, stops at the first chunk the bus refuses
    and returns that error, returns nil when all n went through, and leaves
    the display as it was; the chunks put end to end are the buffer, and a
    128x64 display has 32 of them. *)
Theorem Draw_sends_whole_chunks (env : environment) (s : session) (n : nat) :
  iface (disp s) = IFACE_I2C ->
  length (buf (disp s)) = (32 * n)%nat ->
  let cs := chunks (buf (disp s)) n in
  (exists k err,
     Draw env s = Done (err, {| disp := disp s; log := log s ++ data_frames (take k cs) |}) /\
     (k <= n)%nat /\
     (forall i, (S i < k)%nat -> env (log s ++ data_frames (take (S i) cs)) = None) /\
     match err with
     | Some e => (1 <= k)%nat /\ env (log s ++ data_frames (take k cs)) = Some e
     | None => k = n /\ forall i, (i < n)%nat -> env (log s ++ data_frames (take (S i) cs)) = None
     end) /\
  concat cs = buf (disp s) /\
  Forall (fun ck => length ck = 32%nat) cs /\
  length cs = n /\
  (wf (disp s) -> width (disp s) = 128 -> height (disp s) = 64 -> n = 32%nat).
Proof.
  intros bus Hlen cs. split; [|split; [|split; [|split]]].
  - rewrite Draw_on_bus by assumption.
    destruct (Draw_loop_run env (disp s) n 0 bus ltac:(lia) ltac:(lia) n 0 (length (buf (disp s)))
                0 (log s) eq_refl eq_refl ltac:(cbn; lia))
      as [(k & e & Hk & Hrun & He & Hbefore) | [Hall Hrun]].
    + exists k, (Some e). fold (chunks (buf (disp s)) n) in *. fold cs in Hrun, He, Hbefore.
      split; [exact Hrun|]. split; [lia|]. split; [exact Hbefore|]. split; [lia | exact He].
    + exists n, None. fold (chunks (buf (disp s)) n) in *. fold cs in Hrun, Hall.
      cbn [Nat.eqb] in Hrun. rewrite Hrun.
      assert (Hfull : take n cs = cs).
      { apply take_ge. subst cs. unfold chunks. rewrite length_map, length_seq. lia. }
      rewrite Hfull. split; [reflexivity|]. split; [lia|].
      split; [intros i Hi; apply Hall; lia|]. split; [reflexivity | exact Hall].
  - apply chunks_whole. assumption.
  - apply chunks_whole. assumption.
  - apply chunks_whole. assumption.
  - intros (_ & _ & _ & Hwf) Hw Hh. rewrite Hw, Hh in Hwf. unfold len in Hwf.
    rewrite Hlen in Hwf. vm_compute (128 * 64 ÷ 8) in Hwf. lia.
Qed.

Lemma Draw_sends_whole_chunks_witness :
  exists err s', Draw quiet (fresh (blank IFACE_I2C 128 64)) = Done (err, s') /\
    disp s' = blank IFACE_I2C 128 64 /\ length (log s') = 32%nat.
Proof.
  destruct (Draw_sends_whole_chunks quiet (fresh (blank IFACE_I2C 128 64)) 32
              eq_refl eq_refl) as [(k & err & Hrun & Hk & _ & Herr) _].
  exists err. eexists. split; [exact Hrun|]. split; [reflexivity|].
  destruct err as [e|].
  - destruct Herr as [_ He]. discriminate He.
  - destruct Herr as [-> _]. reflexivity.
Defined.

(** Counterexample to C6 as stated for every bus display: the buffer of an
    8x8 display is 8 bytes long, the first window buf[0:32] is out of
    bounds, and Draw panics without transmitting anything. *)
Lemma Draw_small_display_faults :
  iface (blank IFACE_I2C 8 8) = IFACE_I2C /\
  wf (blank IFACE_I2C 8 8) /\
  Draw quiet (fresh (blank IFACE_I2C 8 8)) = Fault.
Proof.
  split; [reflexivity|]. split; [|reflexivity].
  unfold wf. cbn. repeat split; try lia; reflexivity.
Qed.

(** C10.  On a bus display Draw returns whenever the buffer is a whole
    number of 32-byte chunks.  When a shorter rest is left, the window of
    the last turn reaches past the buffer: Draw panics there once the bus
    has taken every whole chunk before it, and returns the error of the
    bus if one of those chunks is refused first.  A display without a bus
    transmits nothing and returns nil; an 8x8 bus display panics on its
    first window. *)
Theorem Draw_faults_on_short_rest (env : environment) (s : session) :
  let b := buf (disp s) in
  let n := (length b / 32)%nat in
  let cs := chunks b n in
  (iface (disp s) = IFACE_I2C ->
     ((length b mod 32 = 0)%nat -> exists err s', Draw env s = Done (err, s')) /\
     ((length b mod 32 <> 0)%nat ->
        (forall i, (i < n)%nat -> env (log s ++ data_frames (take (S i) cs)) = None) ->
        Draw env s = Fault) /\
     ((length b mod 32 <> 0)%nat ->
        (exists i, (i < n)%nat /\ env (log s ++ data_frames (take (S i) cs)) <> None) ->
        exists e s', Draw env s = Done (Some e, s'))) /\
  (iface (disp s) <> IFACE_I2C -> Draw env s = Done (None, s)) /\
  Draw env (fresh (blank IFACE_I2C 8 8)) = Fault.
Proof.
  intros b n cs. split; [|split].
  - intros bus.
    pose proof (Nat.div_mod_eq (length b) 32) as Hsplit. fold n in Hsplit.
    assert (Hr : (length b mod 32 < 32)%nat) by (apply Nat.mod_upper_bound; lia).
    assert (Hfuel : (n + (if (length b mod 32 =? 0)%nat then 0 else 1) <= length b)%nat).
    { destruct (Nat.eqb_spec (length b mod 32) 0); lia. }
    pose proof (Draw_loop_run env (disp s) n (length b mod 32) bus Hsplit Hr n 0 (length b)
                  0 (log s) eq_refl eq_refl Hfuel) as Hrun.
    cbv zeta in Hrun. fold (chunks (buf (disp s)) n) in Hrun. fold b in Hrun. fold cs in Hrun.
    rewrite Draw_on_bus by assumption. fold b.
    split; [|split].
    + intros H0. destruct Hrun as [(k & e & _ & Hrun & _) | [_ Hrun]].
      * eauto.
      * rewrite H0 in Hrun. cbn [Nat.eqb] in Hrun. eauto.
    + intros H0 Hall. destruct Hrun as [(k & e & Hk & _ & He & _) | [_ Hrun]].
      * destruct k as [|k]; [lia|]. rewrite Hall in He by lia. discriminate He.
      * apply Nat.eqb_neq in H0. rewrite H0 in Hrun. exact Hrun.
    + intros H0 (i & Hi & Hrefused). destruct Hrun as [(k & e & _ & Hrun & _) | [Hall _]].
      * eauto.
      * exfalso. apply Hrefused. apply Hall. exact Hi.
  - intros Hno. unfold Draw, io_bind, self, io_ret. cbn [obind fst snd].
    apply Z.eqb_neq in Hno. rewrite Hno. reflexivity.
  - reflexivity.
Qed.

Lemma Draw_faults_on_short_rest_witness :
  iface (disp (fresh (blank IFACE_I2C 8 40))) = IFACE_I2C /\
  (length (buf (disp (fresh (blank IFACE_I2C 8 40)))) mod 32 <> 0)%nat /\
  Draw quiet (fresh (blank IFACE_I2C 8 40)) = Fault.
Proof.
  split; [reflexivity|]. split; [vm_compute; lia|].
  destruct (Draw_faults_on_short_rest quiet (fresh (blank IFACE_I2C 8 40))) as [H _].
  destruct (H eq_refl) as (_ & Hfault & _).
  apply Hfault.
  - vm_compute. lia.
  - intros i Hi. reflexivity.
Defined.

(** Counterexample to C10 as stated for any display: the 40-byte buffer of
    an 8x40 display is not a multiple of 32, yet with a bus that refuses
    the first chunk Draw returns that error and does not panic; and with no
    bus interface Draw on an 8-byte buffer returns nil. *)
Lemma Draw_short_rest_without_fault :
  (length (buf (blank IFACE_I2C 8 40)) mod 32 <> 0)%nat /\
  Draw (bus_down "EIO"%string) (fresh (blank IFACE_I2C 8 40))
    = Done (Some "EIO"%string,
            {| disp := blank IFACE_I2C 8 40;
               log := [WriteI2C 64 (replicate 32 0)] |}) /\
  (length (buf (blank IFACE_SPI 8 8)) mod 32 <> 0)%nat /\
  Draw quiet (fresh (blank IFACE_SPI 8 8)) = Done (None, fresh (blank IFACE_SPI 8 8)).
Proof.
  split; [vm_compute; lia|]. split; [reflexivity|].
  split; [vm_compute; lia|]. reflexivity.
Qed.

(** ** Rasterizer: Char *)

Lemma byte_at_alter (f : Z -> Z) (b : list Z) (e j : Z) :
  0 <= e ->
  byte_at (alter f (Z.to_nat e) b) j = if j =? e then f <$> byte_at b j else byte_at b j.
Proof.
  intros He. unfold byte_at.
  destruct (Z.leb_spec 0 j) as [Hj | Hj].
  - destruct (Z.eqb_spec j e) as [-> | Hne].
    + apply list_lookup_alter_eq.
    + apply list_lookup_alter_ne. lia.
  - destruct (Z.eqb_spec j e); [lia | reflexivity].
Qed.

Lemma font_at_glyph (font : list Z) (r i : Z) :
  length font = 640%nat -> 0 <= r <= 127 -> 0 <= i < 5 ->
  font_at font (to_uint (5 * r + i)) = Done (glyph_byte font r i).
Proof.
  intros Hlen Hr Hi. unfold font_at, glyph_byte, to_uint, len.
  rewrite Z.mod_small by lia.
  destruct (Z.leb_spec 0 (5 * r + i)); [|lia].
  destruct (Z.ltb_spec (5 * r + i) (Z.of_nat (length font))); [|lia].
  cbn [andb].
  destruct (font !! Z.to_nat (5 * r + i)) as [g|] eqn:E; [reflexivity|].
  apply lookup_ge_None in E. lia.
Qed.

Section CharLoop.
Variables (font : list Z) (shift : Z -> Z) (base x r : Z) (c : Gray16).
Hypothesis Hfont : length font = 640%nat.
Hypothesis Hr : 0 <= r <= 127.
Hypothesis Hbase : 0 <= base.

(* The loop returns when each column it is allowed to write lies in the
   buffer, and then it has blended the shifted glyph bytes into the
   columns base+i .. and left all other bytes alone. *)
Lemma Char_loop_run (n : nat) :
  forall (d : SSD1306) (i : Z),
    0 <= i -> i + Z.of_nat n <= 5 ->
    (forall k, i <= k -> x + k < width d -> base + k < len (buf d)) ->
    exists d', Char_loop n font shift d base x i r c = Done d' /\
      width d' = width d /\ height d' = height d /\ iface d' = iface d /\
      length (buf d') = length (buf d) /\
      forall j,
        byte_at (buf d') j =
          if (base + i <=? j) && (j <? base + i + Z.of_nat n) && (x + (j - base) <? width d)
          then blend c (shift (glyph_byte font r (j - base))) <$> byte_at (buf d) j
          else byte_at (buf d) j.
Proof.
  induction n as [|n IH]; intros d i Hi Hn Hfit.
  - exists d. cbn [Char_loop]. repeat split.
    intros j. destruct (Z.leb_spec (base + i) j); destruct (Z.ltb_spec j (base + i + Z.of_nat 0));
      cbn [andb]; try reflexivity; lia.
  - cbn [Char_loop].
    destruct (Z.ltb_spec (x + i) (width d)) as [Hclip | Hclip].
    + rewrite font_at_glyph by (try assumption; lia). cbn [obind].
      rewrite store_in_buf by (split; [lia | apply Hfit; lia]). cbn [obind].
      set (d1 := with_buf d _).
      destruct (IH d1 (i + 1) ltac:(lia) ltac:(lia)) as (d' & Hrun & Hw & Hh & Hi' & Hlen & Hbytes).
      { intros k Hk Hxk. subst d1. unfold len. cbn [buf with_buf]. rewrite length_alter.
        apply Hfit; [lia | exact Hxk]. }
      exists d'. split; [exact Hrun|].
      split; [rewrite Hw; reflexivity|]. split; [rewrite Hh; reflexivity|].
      split; [rewrite Hi'; reflexivity|].
      split; [rewrite Hlen; subst d1; cbn [buf with_buf]; apply length_alter|].
      intros j. rewrite Hbytes. subst d1. cbn [buf with_buf width].
      rewrite byte_at_alter by lia.
      destruct (Z.eqb_spec j (base + i)) as [-> | Hne].
      * replace (base + i - base) with i by lia.
        destruct (Z.leb_spec (base + (i + 1)) (base + i)); [lia|].
        destruct (Z.leb_spec (base + i) (base + i)); [|lia].
        destruct (Z.ltb_spec (base + i) (base + i + Z.of_nat (S n))); [|lia].
        destruct (Z.ltb_spec (x + i) (width d)); [|lia].
        reflexivity.
      * destruct (Z.leb_spec (base + (i + 1)) j); destruct (Z.leb_spec (base + i) j);
          destruct (Z.ltb_spec j (base + (i + 1) + Z.of_nat n));
          destruct (Z.ltb_spec j (base + i + Z.of_nat (S n)));
          cbn [andb]; try reflexivity; lia.
    + exists d. repeat split.
      intros j. destruct (Z.leb_spec (base + i) j); [|reflexivity].
      destruct (Z.ltb_spec (x + (j - base)) (width d)); [lia|].
      rewrite andb_false_r. reflexivity.
Qed.
End CharLoop.

Lemma Char_fit (d : SSD1306) (x y base : Z) :
  wf d -> y < height d -> 0 <= base < width d * height d ÷ 8 ->
  base <= width d * (y ÷ 8) + x ->
  forall k, 0 <= k -> x + k < width d -> base + k < len (buf d).
Proof.
  intros (Hw & Hh & H8 & Hlen) Hy Hbase Hle k Hk Hxk.
  rewrite Hlen. rewrite pages_len in * by assumption.
  assert (1 <= height d ÷ 8) by nia.
  assert (y ÷ 8 + 1 <= height d ÷ 8) by zq.
  nia.
Qed.


(** ** Rasterizer: Char over machine integers *)






Lemma shift_amounts (y : Z) :
  0 <= y -> to_uint (8 - Z.rem y 8) = 8 - y mod 8 /\ to_uint (Z.rem y 8) = y mod 8.
Proof.
  intros Hy. unfold to_uint.
  assert (E : Z.rem y 8 = y mod 8) by zq.
  assert (0 <= y mod 8 < 8) by zq.
  rewrite E. split; apply Z.mod_small; lia.
Qed.

Lemma blend_zero (c : Gray16) (v : Z) : blend c 0 v = v.
Proof.
  unfold blend. destruct (is_white c); [apply Z.lor_0_r | apply Z.ldiff_0_r].
Qed.

(* bits that are not in the mask are not changed *)
Lemma blend_outside_mask (c : Gray16) (m v k : Z) :
  Z.testbit m k = false -> Z.testbit (blend c m v) k = Z.testbit v k.
Proof.
  intros Hm. unfold blend. destruct (is_white c).
  - rewrite Z.lor_spec, Hm. apply orb_false_r.
  - rewrite Z.ldiff_spec, Hm. apply andb_true_r.
Qed.

(* the shifted halves are the low and the high byte of g << s *)
Lemma shifted_halves (g s : Z) :
  0 <= g < 256 -> 0 <= s < 8 ->
  byte_shl g s + 256 * byte_shr g (8 - s) = g * 2 ^ s.
Proof.
  intros Hg Hs. unfold byte_shl, byte_shr.
  destruct (Z.leb_spec 8 s); [lia|].
  rewrite Z.shiftl_mul_pow2 by lia.
  destruct (Z.leb_spec 8 (8 - s)).
  - replace s with 0 by lia. change (2 ^ 0) with 1. zq.
  - rewrite Z.shiftr_div_pow2 by lia.
    assert (Es : s = 1 \/ s = 2 \/ s = 3 \/ s = 4 \/ s = 5 \/ s = 6 \/ s = 7) by lia.
    destruct Es as [-> | [-> | [-> | [-> | [-> | [-> | ->]]]]]];
      repeat match goal with
        | |- context [2 ^ ?k] =>
            let v := eval vm_compute in (2 ^ k) in change (2 ^ k) with v
        end; zq.
Qed.

(* What Char leaves in the buffer for an anchor on the screen. *)
Lemma Char_bytes (font : list Z) (d : SSD1306) (x y : Z) (c : Gray16) (r : Z) :
  wf d -> length font = 640%nat -> on_screen d x y -> 0 <= r <= 127 ->
  let here := width d * (y ÷ 8) + x in
  let above := here - width d in
  exists d', Char font d x y c r = Done (d', 0) /\
    width d' = width d /\ height d' = height d /\ length (buf d') = length (buf d) /\
    forall j,
      byte_at (buf d') j =
        if (8 <=? y) && (above <=? j) && (j <? above + 5) && (x + (j - above) <? width d)
        then blend c (byte_shl (glyph_byte font r (j - above)) (y mod 8)) <$> byte_at (buf d) j
        else if (here <=? j) && (j <? here + 5) && (x + (j - here) <? width d)
        then blend c (byte_shr (glyph_byte font r (j - here)) (8 - y mod 8)) <$> byte_at (buf d) j
        else byte_at (buf d) j.
Proof.
  intros Hwf Hfont Hon Hr here above.
  pose proof (element_in_buf d x y Hwf Hon) as Hhere. fold here in Hhere.
  destruct (shift_amounts y ltac:(destruct Hon; lia)) as [Eshr Eshl].
  destruct Hon as [Hx Hy]. pose proof Hwf as (Hw & Hh & H8 & Hlen).
  unfold Char. fold here. fold above.
  destruct (Z.geb_spec x (width d)) as [?|_]; [lia|].
  destruct (Z.geb_spec y (height d)) as [?|_]; [lia|].
  destruct (Z.ltb_spec r 0) as [?|_]; [lia|].
  destruct (Z.gtb_spec r 127) as [?|_]; [lia|].
  cbn [orb]. rewrite Eshr, Eshl.
  destruct (Z.ltb_spec here (width d * height d ÷ 8)) as [_|?]; [|lia].
  destruct (Z.geb_spec here 0) as [_|?]; [|lia].
  cbn [andb].
  destruct (Char_loop_run font (fun g => byte_shr g (8 - y mod 8)) here x r c
              Hfont Hr ltac:(lia) 5 d 0 ltac:(lia) ltac:(lia))
    as (d1 & -> & Hw1 & Hh1 & _ & Hlen1 & Hbytes1).
  { intros k Hk Hxk. apply (Char_fit d x y here); try assumption; subst here; lia. }
  cbn [obind].
  assert (Hwf1 : wf d1).
  { unfold wf, len. rewrite Hw1, Hh1, Hlen1. auto. }
  assert (Hpage : 0 <= y ÷ 8) by zq.
  destruct (Z.leb_spec 8 y) as [Hy8 | Hy8].
  - assert (1 <= y ÷ 8) by zq.
    assert (0 <= above) by (subst above here; nia).
    destruct (Z.ltb_spec above (width d * height d ÷ 8)) as [_|?]; [|lia].
    destruct (Z.geb_spec above 0) as [_|?]; [|lia].
    cbn [andb].
    destruct (Char_loop_run font (fun g => byte_shl g (y mod 8)) above x r c
                Hfont Hr ltac:(lia) 5 d1 0 ltac:(lia) ltac:(lia))
      as (d2 & -> & Hw2 & Hh2 & _ & Hlen2 & Hbytes2).
    { intros k Hk Hxk. rewrite Hw1 in Hxk.
      apply (Char_fit d1 x y above); try assumption; rewrite ?Hw1, ?Hh1; lia. }
    cbn [obind]. exists d2. split; [reflexivity|].
    split; [lia|]. split; [lia|]. split; [lia|].
    intros j. rewrite Hbytes2, Hbytes1, Hw1.
    replace (above + 0) with above by lia. replace (here + 0) with here by lia.
    change (Z.of_nat 5) with 5.
    destruct (Z.leb_spec above j); destruct (Z.ltb_spec j (above + 5));
      destruct (Z.ltb_spec (x + (j - above)) (width d)); cbn [andb]; try reflexivity.
    destruct (Z.leb_spec here j); [subst above; lia|]. reflexivity.
  - assert (y ÷ 8 = 0) by zq.
    destruct (Z.geb_spec above 0) as [?|_]; [subst above here; nia|].
    rewrite andb_false_r. cbn [obind]. exists d1. split; [reflexivity|].
    split; [lia|]. split; [lia|]. split; [lia|].
    intros j. rewrite Hbytes1. cbn [andb].
    replace (here + 0) with here by lia. reflexivity.
Qed.

(** C2.  For an anchor on the screen and a valid code Char returns 0 and
    draws the cell on the eight pixel rows above the anchor.  The page row
    that contains y receives the column bytes shifted right by 8-(y%8);
    the page row above it, when there is one (y >= 8), receives them
    shifted left by y%8; every other byte stays as it was.  When y is a
    multiple of 8 only the page row just above the one containing y
    changes.  The two shifted bytes are the low and the high byte of the
    column shifted left by y%8, so together they hold the whole glyph
    column; and both writes OR (set) or AND-NOT (clear) a mask, which
    leaves the bits outside of the mask alone. *)
Theorem Char_splits_cell_upward (font : list Z) (d : SSD1306) (x y : Z) (c : Gray16) (r : Z) :
  wf d -> length font = 640%nat -> on_screen d x y -> 0 <= r <= 127 ->
  let s := y mod 8 in
  let here := width d * (y ÷ 8) + x in
  let above := here - width d in
  exists d', Char font d x y c r = Done (d', 0) /\
    (forall i, 0 <= i < 5 -> x + i < width d ->
       byte_at (buf d') (here + i)
         = blend c (byte_shr (glyph_byte font r i) (8 - s)) <$> byte_at (buf d) (here + i) /\
       (8 <= y ->
        byte_at (buf d') (above + i)
          = blend c (byte_shl (glyph_byte font r i) s) <$> byte_at (buf d) (above + i))) /\
    (forall j,
       (forall i, 0 <= i < 5 -> x + i < width d -> j <> here + i /\ (8 <= y -> j <> above + i)) ->
       byte_at (buf d') j = byte_at (buf d) j) /\
    (s = 0 ->
     forall j, ~ (width d * (y ÷ 8 - 1) <= j < width d * (y ÷ 8)) ->
       byte_at (buf d') j = byte_at (buf d) j) /\
    (forall g, 0 <= g < 256 -> byte_shl g s + 256 * byte_shr g (8 - s) = g * 2 ^ s) /\
    (forall m v k, Z.testbit m k = false -> Z.testbit (blend c m v) k = Z.testbit v k).
Proof.
  intros Hwf Hfont Hon Hr s here above.
  destruct (Char_bytes font d x y c r Hwf Hfont Hon Hr)
    as (d' & Hrun & _ & _ & _ & Hbytes).
  fold here in Hbytes. fold above in Hbytes. fold s in Hbytes.
  destruct Hon as [Hx Hy]. pose proof Hwf as (Hw & _).
  exists d'. split; [exact Hrun|]. split; [|split; [|split; [|split]]].
  - intros i Hi Hxi. split.
    + rewrite Hbytes.
      destruct (Z.ltb_spec (x + (here + i - above)) (width d)); [subst above; lia|].
      rewrite andb_false_r.
      destruct (Z.leb_spec here (here + i)); [|lia].
      destruct (Z.ltb_spec (here + i) (here + 5)); [|lia].
      destruct (Z.ltb_spec (x + (here + i - here)) (width d)); [|lia].
      cbn [andb]. replace (here + i - here) with i by lia. reflexivity.
    + intros Hy8. rewrite Hbytes.
      destruct (Z.leb_spec 8 y); [|lia].
      destruct (Z.leb_spec above (above + i)); [|lia].
      destruct (Z.ltb_spec (above + i) (above + 5)); [|lia].
      destruct (Z.ltb_spec (x + (above + i - above)) (width d)); [|lia].
      cbn [andb]. replace (above + i - above) with i by lia. reflexivity.
  - intros j Hj. rewrite Hbytes.
    destruct (Z.leb_spec 8 y); destruct (Z.leb_spec above j);
      destruct (Z.ltb_spec j (above + 5));
      destruct (Z.ltb_spec (x + (j - above)) (width d)); cbn [andb];
      try (exfalso; destruct (Hj (j - above) ltac:(lia) ltac:(lia)) as [_ Hne]; lia).
    all: destruct (Z.leb_spec here j); destruct (Z.ltb_spec j (here + 5));
      destruct (Z.ltb_spec (x + (j - here)) (width d)); cbn [andb]; try reflexivity.
    all: exfalso; destruct (Hj (j - here) ltac:(lia) ltac:(lia)) as [Hne _]; lia.
  - intros Hs j Hj. rewrite Hbytes.
    assert (Epage : width d * (y ÷ 8 - 1) = above - x) by (subst above here; lia).
    assert (Epage' : width d * (y ÷ 8) = here - x) by (subst here; lia).
    rewrite Epage, Epage' in Hj.
    destruct (Z.leb_spec 8 y); destruct (Z.leb_spec above j);
      destruct (Z.ltb_spec j (above + 5));
      destruct (Z.ltb_spec (x + (j - above)) (width d)); cbn [andb];
      try (exfalso; subst above; lia).
    all: destruct (Z.leb_spec here j); destruct (Z.ltb_spec j (here + 5));
      destruct (Z.ltb_spec (x + (j - here)) (width d)); cbn [andb]; try reflexivity.
    all: rewrite Hs; change (byte_shr (glyph_byte font r (j - here)) (8 - 0)) with 0.
    all: destruct (byte_at (buf d) j); cbn; [rewrite blend_zero|]; reflexivity.
  - intros g Hg. apply shifted_halves; [assumption | subst s; zq].
  - intros m v k. apply blend_outside_mask.
Qed.

Lemma Char_splits_cell_upward_witness :
  wf (blank IFACE_I2C 8 24) /\ length sample_font = 640%nat /\
  on_screen (blank IFACE_I2C 8 24) 0 11 /\ 0 <= 65 <= 127 /\
  exists d', Char sample_font (blank IFACE_I2C 8 24) 0 11 White 65 = Done (d', 0) /\
    byte_at (buf d') 8 = Some 3 /\ byte_at (buf d') 0 = Some 240.
Proof.
  assert (Hwf : wf (blank IFACE_I2C 8 24)).
  { unfold wf. cbn. repeat split; try lia; reflexivity. }
  assert (Hon : on_screen (blank IFACE_I2C 8 24) 0 11).
  { unfold on_screen. cbn. lia. }
  split; [exact Hwf|]. split; [reflexivity|]. split; [exact Hon|]. split; [lia|].
  destruct (Char_splits_cell_upward sample_font (blank IFACE_I2C 8 24) 0 11 White 65
              Hwf eq_refl Hon ltac:(lia)) as (d' & Hrun & Hcols & _).
  exists d'. split; [exact Hrun|].
  destruct (Hcols 0 ltac:(lia) ltac:(cbn; lia)) as [Hhere Habove].
  split.
  - exact Hhere.
  - exact (Habove ltac:(lia)).
Defined.

(** Counterexample to C2 as stated.  With the letter A at code 65, a glyph
    anchored at y = 8 on a clear 8x24 display leaves page row 1, the one
    that contains y, untouched and writes the whole glyph to page row 0;
    anchored at y = 11 it writes the left-shifted bytes to page row 0, the
    row above, and nothing to page row 2, the row below. *)
Lemma Char_writes_row_above :
  Char sample_font (blank IFACE_I2C 8 24) 0 8 White 65
    = Done (with_buf (blank IFACE_I2C 8 24)
              [126; 17; 17; 17; 126; 0; 0; 0;
               0; 0; 0; 0; 0; 0; 0; 0;
               0; 0; 0; 0; 0; 0; 0; 0], 0) /\
  Char sample_font (blank IFACE_I2C 8 24) 0 11 White 65
    = Done (with_buf (blank IFACE_I2C 8 24)
              [240; 136; 136; 136; 240; 0; 0; 0;
               3; 0; 0; 0; 3; 0; 0; 0;
               0; 0; 0; 0; 0; 0; 0; 0], 0) /\
  byte_shl 126 3 = 240 /\ byte_shr 126 (8 - 3) = 3.
Proof.
  repeat split; vm_compute; reflexivity.
Qed.

(** * Further properties of the driver *)

(** ** Framebuffer: Point and Clear *)

(* bit k of a blended byte: the colour inside the mask, the old bit
   outside of it *)
Lemma testbit_blend_mask (c : Gray16) (m v k : Z) :
  Z.testbit (blend c m v) k = if Z.testbit m k then is_white c else Z.testbit v k.
Proof.
  unfold blend. destruct (is_white c).
  - rewrite Z.lor_spec. destruct (Z.testbit m k); [apply orb_true_r | apply orb_false_r].
  - rewrite Z.ldiff_spec. destruct (Z.testbit m k); cbn; [apply andb_false_r | apply andb_true_r].
Qed.

(* Point changes no pixel but its own *)
Lemma Point_frame (d d' : SSD1306) (x y a b : Z) (c : Gray16) :
  wf d -> Point d x y c = Done d' -> (a, b) <> (x, y) -> pixel d' a b = pixel d a b.
Proof.
  intros Hwf HP Hne.
  assert (Hdec : on_screen d x y \/ ~ on_screen d x y) by (unfold on_screen; lia).
  destruct Hdec as [Hon | Hoff].
  - destruct (Point_pixels d x y c Hwf Hon) as (d1 & H1 & _ & Hother).
    rewrite H1 in HP. injection HP as <-. apply Hother. assumption.
  - rewrite Point_off_screen in HP by assumption. injection HP as <-. reflexivity.
Qed.

(** X1.  Two writes to the same on-screen pixel: the second colour wins,
    every other pixel is as it was before the first write, and the buffer
    keeps its length. *)
Theorem Point_last_write_wins (d : SSD1306) (x y : Z) (c1 c2 : Gray16) :
  wf d -> on_screen d x y ->
  exists d1 d2,
    Point d x y c1 = Done d1 /\ Point d1 x y c2 = Done d2 /\
    pixel d2 x y = Some (is_white c2) /\
    (forall a b, (a, b) <> (x, y) -> pixel d2 a b = pixel d a b) /\
    length (buf d2) = length (buf d).
Proof.
  intros Hwf Hon.
  destruct (Point_total d x y c1 Hwf) as (d1 & H1 & Hwf1 & Hw1 & Hh1 & _).
  assert (Hon1 : on_screen d1 x y) by (unfold on_screen; rewrite Hw1, Hh1; exact Hon).
  destruct (Point_pixels d1 x y c2 Hwf1 Hon1) as (d2 & H2 & Hset & Hother).
  exists d1, d2. split; [exact H1|]. split; [exact H2|]. split; [exact Hset|]. split.
  - intros a b Hne. rewrite Hother by assumption. eapply Point_frame; eassumption.
  - rewrite Point_on_screen in H1, H2 by assumption.
    injection H1 as <-. injection H2 as <-. cbn [buf with_buf].
    rewrite !length_alter. reflexivity.
Qed.

Lemma Point_last_write_wins_witness :
  wf (blank IFACE_I2C 128 64) /\ on_screen (blank IFACE_I2C 128 64) 5 9 /\
  exists d1 d2,
    Point (blank IFACE_I2C 128 64) 5 9 White = Done d1 /\ Point d1 5 9 Black = Done d2 /\
    pixel d2 5 9 = Some false.
Proof.
  assert (Hwf : wf (blank IFACE_I2C 128 64)) by (apply blank_wf; [lia | lia | reflexivity]).
  assert (Hon : on_screen (blank IFACE_I2C 128 64) 5 9) by (unfold on_screen; cbn; lia).
  split; [exact Hwf|]. split; [exact Hon|].
  destruct (Point_last_write_wins (blank IFACE_I2C 128 64) 5 9 White Black Hwf Hon)
    as (d1 & d2 & H1 & H2 & Hset & _).
  exists d1, d2. auto.
Defined.

(** X2.  Round trip on one bit: drawing an on-screen pixel in any colour
    and then in the colour it had before gives back the very same
    display, byte for byte. *)
Theorem Point_round_trip (d : SSD1306) (x y : Z) (c c' : Gray16) :
  wf d -> on_screen d x y ->
  pixel d x y = Some (is_white c') ->
  exists d1, Point d x y c = Done d1 /\ Point d1 x y c' = Done d.
Proof.
  intros Hwf Hon Hpix.
  destruct (Point_total d x y c Hwf) as (d1 & H1 & Hwf1 & Hw1 & Hh1 & _).
  assert (Hon1 : on_screen d1 x y) by (unfold on_screen; rewrite Hw1, Hh1; exact Hon).
  exists d1. split; [exact H1|].
  rewrite Point_on_screen in H1 by assumption. injection H1 as <-.
  rewrite Point_on_screen by assumption. cbn [buf with_buf width].
  f_equal. destruct d as [i w h b]. unfold with_buf. cbn [iface width height buf] in *.
  f_equal. rewrite pixel_on_screen in Hpix by assumption. cbn [buf width] in Hpix.
  rewrite list_alter_alter_eq.
  apply list_eq. intros j.
  set (e := Z.to_nat (w * (y ÷ 8) + x)) in *.
  destruct (decide (j = e)) as [-> | Hne]; [|apply list_lookup_alter_ne; congruence].
  rewrite list_lookup_alter_eq.
  destruct (b !! e) as [v|]; [|reflexivity]. cbn in *. f_equal.
  injection Hpix as Hbit.
  apply Z.bits_inj'. intros k Hk. cbn.
  rewrite !testbit_blend_mask, Z.pow2_bits_eqb by zq.
  destruct (Z.eqb_spec (y mod 8) k) as [<- | _]; [|reflexivity].
  rewrite Hbit. reflexivity.
Qed.

Lemma Point_round_trip_witness :
  exists d1, Point (blank IFACE_I2C 128 64) 5 9 White = Done d1 /\
    Point d1 5 9 Black = Done (blank IFACE_I2C 128 64).
Proof.
  apply (Point_round_trip (blank IFACE_I2C 128 64) 5 9 White Black).
  - apply blank_wf; [lia | lia | reflexivity].
  - unfold on_screen; cbn; lia.
  - reflexivity.
Defined.

(** X3.  Clear gives every pixel of the screen the colour (white sets,
    any other colour clears), makes every byte 0xff or 0x00, and keeps
    the geometry and the length of the buffer. *)
Theorem Clear_fills (d : SSD1306) (c : Gray16) :
  wf d ->
  wf (Clear d c) /\
  width (Clear d c) = width d /\ height (Clear d c) = height d /\
  (forall j v, byte_at (buf (Clear d c)) j = Some v -> v = if is_white c then 255 else 0) /\
  (forall x y, on_screen d x y -> pixel (Clear d c) x y = Some (is_white c)).
Proof.
  intros Hwf. unfold Clear.
  assert (Hwf' : wf (with_buf d (map (fun _ => if is_white c then 255 else 0) (buf d)))).
  { apply wf_with_buf; [assumption | apply length_map]. }
  split; [exact Hwf'|]. split; [reflexivity|]. split; [reflexivity|]. split.
  - intros j v. unfold byte_at. cbn [buf with_buf].
    destruct (0 <=? j); [|discriminate].
    change (map ?f ?l) with (f <$> l). rewrite list_lookup_fmap.
    destruct (buf d !! Z.to_nat j); cbn; congruence.
  - intros x y Hon. pose proof (element_in_buf d x y Hwf Hon) as He.
    rewrite pixel_on_screen by exact Hon. cbn [buf with_buf width].
    change (map ?f ?l) with (f <$> l). rewrite list_lookup_fmap.
    destruct (buf d !! Z.to_nat (width d * (y ÷ 8) + x)) as [v|] eqn:E.
    + cbn. f_equal. assert (Hk : 0 <= y mod 8 < 8) by zq.
      destruct (is_white c).
      * change 255 with (Z.ones 8). apply Z.ones_spec_low. lia.
      * apply Z.bits_0.
    + apply lookup_ge_None in E. unfold len in He. lia.
Qed.

Lemma Clear_fills_witness :
  pixel (Clear (blank IFACE_I2C 128 64) White) 127 63 = Some true.
Proof.
  destruct (Clear_fills (blank IFACE_I2C 128 64) White
              ltac:(apply blank_wf; [lia | lia | reflexivity])) as (_ & _ & _ & _ & Hpix).
  apply Hpix. unfold on_screen; cbn; lia.
Defined.

(** ** Rasterizer: where Line draws *)

Section LineBox.
Variables (x1 y1 sx sy dx dy : Z) (c : Gray16).
Variables (xlo xhi ylo yhi : Z).
Hypothesis Hdx : 0 <= dx.
Hypothesis Hdy : 0 <= dy.
Hypothesis Hxbox : forall x rx, x1 - x = sx * rx -> 0 <= rx <= dx -> xlo <= x <= xhi.
Hypothesis Hybox : forall y ry, y1 - y = sy * ry -> 0 <= ry <= dy -> ylo <= y <= yhi.

(* every point the loop plots lies in the box, so pixels outside of the
   box are not changed *)
Lemma Line_loop_box (a b : Z) (fuel : nat) :
  ~ (xlo <= a <= xhi /\ ylo <= b <= yhi) ->
  forall (d d' : SSD1306) (x y err rx ry : Z),
    wf d -> line_inv x1 y1 sx sy dx dy x y err rx ry ->
    Line_loop fuel d x y x1 y1 sx sy dx dy err c = Done d' ->
    pixel d' a b = pixel d a b.
Proof.
  intros Hout.
  induction fuel as [|fuel IH]; intros d d' x y err rx ry Hwf Hinv Hrun; [discriminate|].
  cbn [Line_loop] in Hrun.
  destruct (Point_returns d x y c Hwf) as (d1 & HP & Hwf1).
  rewrite HP in Hrun. cbn [obind] in Hrun.
  assert (Hin : xlo <= x <= xhi /\ ylo <= y <= yhi).
  { destruct Hinv as (Hrx & Hry & Hx & Hy & _). split; [eapply Hxbox | eapply Hybox]; eassumption. }
  assert (H1 : pixel d1 a b = pixel d a b).
  { eapply Point_frame; [exact Hwf | exact HP |]. intros [= -> ->]. apply Hout. exact Hin. }
  destruct ((x =? x1) && (y =? y1)) eqn:Eend; [injection Hrun as <-; exact H1|].
  assert (Hne : (x, y) <> (x1, y1)).
  { intros [= -> ->]. rewrite !Z.eqb_refl in Eend. discriminate. }
  assert (Hxs : 2 * err > - dy -> 0 < rx) 
    by exact (line_inv_x_step x1 y1 sx sy dx dy Hdx Hdy x y err rx ry Hinv Hne).
  assert (Hys : 2 * err < dx -> 0 < ry) 
    by exact (line_inv_y_step x1 y1 sx sy dx dy x y err rx ry Hinv Hne).
  destruct Hinv as (Hrx & Hry & Hx & Hy & Hsx & Hsy & Herr).
  assert (Hend : (a, b) <> (x1, y1)).
  { intros [= -> ->]. apply Hout. split; [apply (Hxbox x1 0) | apply (Hybox y1 0)]; lia. }
  rewrite <- H1.
  destruct (Z.gtb_spec (2 * err) (- dy)) as [Gx | Gx];
    destruct (Z.ltb_spec (2 * err) dx) as [Ly | Ly];
    match type of Hrun with
    | (if ?t then _ else _) = _ =>
        destruct t eqn:Emid;
        [apply andb_true_iff in Emid as [Ex Ey];
         apply Z.eqb_eq in Ex; apply Z.eqb_eq in Ey;
         eapply Point_frame; [exact Hwf1 | exact Hrun | rewrite Ex, Ey; exact Hend] |]
    end.
  - eapply (IH d1 d' _ _ _ (rx - 1) (ry - 1) Hwf1); [|exact Hrun].
    repeat split; try lia; nia.
  - eapply (IH d1 d' _ _ _ (rx - 1) ry Hwf1); [|exact Hrun].
    repeat split; try lia; nia.
  - eapply (IH d1 d' _ _ _ rx (ry - 1) Hwf1); [|exact Hrun].
    repeat split; try lia; nia.
  - eapply (IH d1 d' _ _ _ rx ry Hwf1); [|exact Hrun].
    repeat split; try lia; nia.
Qed.
End LineBox.

Lemma Line_box_x (x0 x1 x rx : Z) :
  x1 - x = (if x0 <? x1 then 1 else -1) * rx -> 0 <= rx <= Z.abs (x1 - x0) ->
  Z.min x0 x1 <= x <= Z.max x0 x1.
Proof. destruct (Z.ltb_spec x0 x1); lia. Qed.

Lemma Line_start_inv (x0 y0 x1 y1 : Z) :
  line_inv x1 y1 (if x0 <? x1 then 1 else -1) (if y0 <? y1 then 1 else -1)
    (Z.abs (x1 - x0)) (Z.abs (y1 - y0)) x0 y0
    (Z.abs (x1 - x0) - Z.abs (y1 - y0)) (Z.abs (x1 - x0)) (Z.abs (y1 - y0)).
Proof.
  unfold line_inv.
  destruct (Z.ltb_spec x0 x1); destruct (Z.ltb_spec y0 y1); repeat split; lia.
Qed.

(* no pixel outside the bounding box of the end points is changed *)
Lemma Line_stays_in_box_aux (d : SSD1306) (x0 y0 x1 y1 a b : Z) (c : Gray16) :
  wf d ->
  ~ (Z.min x0 x1 <= a <= Z.max x0 x1 /\ Z.min y0 y1 <= b <= Z.max y0 y1) ->
  exists d', Line d x0 y0 x1 y1 c = Done d' /\ pixel d' a b = pixel d a b.
Proof.
  intros Hwf Hout.
  destruct (Line_total d x0 y0 x1 y1 c Hwf) as (d' & Hrun & _).
  exists d'. split; [exact Hrun|]. unfold Line in Hrun.
  eapply (Line_loop_box x1 y1 _ _ (Z.abs (x1 - x0)) (Z.abs (y1 - y0)) c
            (Z.min x0 x1) (Z.max x0 x1) (Z.min y0 y1) (Z.max y0 y1));
    [lia | lia | | | exact Hout | exact Hwf | apply Line_start_inv | exact Hrun].
  - intros x rx. apply Line_box_x.
  - intros y ry. apply Line_box_x.
Qed.

(* Line keeps the geometry of the display *)
Lemma Line_loop_geometry (x1 y1 sx sy dx dy : Z) (c : Gray16) (fuel : nat) :
  forall (d d' : SSD1306) (x y err : Z),
    wf d -> Line_loop fuel d x y x1 y1 sx sy dx dy err c = Done d' ->
    wf d' /\ width d' = width d /\ height d' = height d /\ iface d' = iface d.
Proof.
  induction fuel as [|fuel IH]; intros d d' x y err Hwf Hrun; [discriminate|].
  cbn [Line_loop] in Hrun.
  destruct (Point_total d x y c Hwf) as (d1 & HP & Hwf1 & Hw1 & Hh1 & Hi1).
  rewrite HP in Hrun. cbn [obind] in Hrun.
  destruct ((x =? x1) && (y =? y1)); [injection Hrun as <-; auto|].
  match type of Hrun with
  | (if ?t then _ else _) = _ => destruct t
  end.
  - match type of Hrun with
    | Point ?d ?u ?v ?c = _ =>
        destruct (Point_total d u v c Hwf1) as (d2 & HP2 & Hwf2 & Hw2 & Hh2 & Hi2)
    end.
    rewrite Hrun in HP2. injection HP2 as <-.
    split; [exact Hwf2|]. split; [lia|]. split; [lia | congruence].
  - destruct (IH _ _ _ _ _ Hwf1 Hrun) as (Hwf' & Hw' & Hh' & Hi').
    split; [exact Hwf'|]. split; [lia|]. split; [lia | congruence].
Qed.

Lemma Line_geometry (d d' : SSD1306) (x0 y0 x1 y1 : Z) (c : Gray16) :
  wf d -> Line d x0 y0 x1 y1 c = Done d' ->
  wf d' /\ width d' = width d /\ height d' = height d /\ iface d' = iface d.
Proof. intros Hwf Hrun. eapply Line_loop_geometry; eassumption. Qed.

(** X4.  On a well-formed display, for end points whose coordinates have
    at most 32 bits, Line returns, after at most |x1-x0| + |y1-y0| + 1
    turns of its loop, keeps the geometry of the display, and changes no
    pixel outside the bounding box of its two end points. *)
Theorem Line_stays_in_box (d : SSD1306) (x0 y0 x1 y1 : Z) (c : Gray16) :
  wf d -> int32 x0 -> int32 y0 -> int32 x1 -> int32 y1 ->
  exists d',
    (forall fuel, (S (Z.to_nat (Z.abs (x1 - x0) + Z.abs (y1 - y0))) <= fuel)%nat ->
       machine.Line fuel d x0 y0 x1 y1 c = Done d') /\
    wf d' /\ width d' = width d /\ height d' = height d /\
    forall a b,
      ~ (Z.min x0 x1 <= a <= Z.max x0 x1 /\ Z.min y0 y1 <= b <= Z.max y0 y1) ->
      pixel d' a b = pixel d a b.
Proof.
  intros Hwf Hx0 Hy0 Hx1 Hy1.
  destruct (Line_total d x0 y0 x1 y1 c Hwf) as (d' & Hrun & _).
  destruct (Line_geometry d d' x0 y0 x1 y1 c Hwf Hrun) as (Hwf' & Hw' & Hh' & _).
  exists d'. split; [apply machine_Line_returns; assumption|].
  split; [exact Hwf'|]. split; [exact Hw'|]. split; [exact Hh'|].
  intros a b Hout.
  destruct (Line_stays_in_box_aux d x0 y0 x1 y1 a b c Hwf Hout) as (d2 & H2 & Hpix).
  rewrite Hrun in H2. injection H2 as <-. exact Hpix.
Qed.

Lemma Line_stays_in_box_witness :
  exists d', machine.Line 23 (blank IFACE_I2C 128 64) 3 4 20 9 White = Done d' /\
    pixel d' 21 9 = Some false.
Proof.
  destruct (Line_stays_in_box (blank IFACE_I2C 128 64) 3 4 20 9 White
              ltac:(apply blank_wf; [lia | lia | reflexivity])
              ltac:(unfold int32; lia) ltac:(unfold int32; lia)
              ltac:(unfold int32; lia) ltac:(unfold int32; lia))
    as (d' & Hrun & _ & _ & _ & Hpix).
  exists d'. split; [apply Hrun; cbn; lia|]. apply (Hpix 21 9). lia.
Defined.

Section LineAxis.
Variables (x1 y1 sx sy dx dy : Z) (c : Gray16).
Hypothesis Hdx : 0 <= dx.
Hypothesis Hdy : 0 <= dy.

(* dy = 0: the loop colours every pixel of the row from x to x1 *)
Lemma Line_loop_row (a : Z) (fuel : nat) :
  dy = 0 ->
  forall (d d' : SSD1306) (x err rx t : Z),
    wf d -> line_inv x1 y1 sx sy dx dy x y1 err rx 0 ->
    Line_loop fuel d x y1 x1 y1 sx sy dx dy err c = Done d' ->
    on_screen d a y1 -> 0 <= t <= rx -> a = x1 - sx * t ->
    pixel d' a y1 = Some (is_white c).
Proof.
  intros Hdy0.
  induction fuel as [|fuel IH]; intros d d' x err rx t Hwf Hinv Hrun Hon Ht Ha; [discriminate|].
  destruct (Z.eq_dec t rx) as [-> | Htne].
  { assert (E : a = x) by (destruct Hinv as (_ & _ & Hx & _); lia).
    rewrite E in Hon |- *.
    exact (Line_loop_start x1 y1 sx sy dx dy c (S fuel) d d' x y1 err Hwf Hon Hrun). }
  cbn [Line_loop] in Hrun.
  destruct (Point_total d x y1 c Hwf) as (d1 & HP & Hwf1 & Hw1 & Hh1 & _).
  rewrite HP in Hrun. cbn [obind] in Hrun.
  assert (Hon1 : on_screen d1 a y1) by (unfold on_screen; rewrite Hw1, Hh1; exact Hon).
  destruct Hinv as (Hrx & Hry & Hx & Hy & Hsx & Hsy & Herr).
  assert (Hxne : x <> x1) by nia.
  destruct (Z.eqb_spec x x1) as [|_]; [contradiction|]. cbn [andb] in Hrun.
  assert (Ee : err = dx) by nia.
  destruct (Z.gtb_spec (2 * err) (- dy)) as [_ | ?]; [|lia].
  destruct (Z.ltb_spec (2 * err) dx) as [? | _]; [lia|].
  rewrite Z.eqb_refl, andb_true_r in Hrun.
  destruct (Z.eqb_spec (x + sx) x1) as [Ex | Ex].
  - assert (rx = 1) by nia. assert (Ea : a = x + sx) by nia.
    rewrite Ea in Hon1 |- *.
    destruct (Point_pixels d1 (x + sx) y1 c Hwf1 Hon1) as (d2 & HP2 & Hset & _).
    rewrite Hrun in HP2. injection HP2 as <-. exact Hset.
  - eapply (IH d1 d' (x + sx) _ (rx - 1) t Hwf1); [| exact Hrun | exact Hon1 | lia | exact Ha].
    repeat split; try lia; nia.
Qed.

(* dx = 0: the loop colours every pixel of the column from y to y1 *)
Lemma Line_loop_column (b : Z) (fuel : nat) :
  dx = 0 ->
  forall (d d' : SSD1306) (y err ry t : Z),
    wf d -> line_inv x1 y1 sx sy dx dy x1 y err 0 ry ->
    Line_loop fuel d x1 y x1 y1 sx sy dx dy err c = Done d' ->
    on_screen d x1 b -> 0 <= t <= ry -> b = y1 - sy * t ->
    pixel d' x1 b = Some (is_white c).
Proof.
  intros Hdx0.
  induction fuel as [|fuel IH]; intros d d' y err ry t Hwf Hinv Hrun Hon Ht Hb; [discriminate|].
  destruct (Z.eq_dec t ry) as [-> | Htne].
  { assert (E : b = y) by (destruct Hinv as (_ & _ & _ & Hy & _); lia).
    rewrite E in Hon |- *.
    exact (Line_loop_start x1 y1 sx sy dx dy c (S fuel) d d' x1 y err Hwf Hon Hrun). }
  cbn [Line_loop] in Hrun.
  destruct (Point_total d x1 y c Hwf) as (d1 & HP & Hwf1 & Hw1 & Hh1 & _).
  rewrite HP in Hrun. cbn [obind] in Hrun.
  assert (Hon1 : on_screen d1 x1 b) by (unfold on_screen; rewrite Hw1, Hh1; exact Hon).
  destruct Hinv as (Hrx & Hry & Hx & Hy & Hsx & Hsy & Herr).
  assert (Hyne : y <> y1) by nia.
  rewrite Z.eqb_refl in Hrun.
  destruct (Z.eqb_spec y y1) as [|_]; [contradiction|]. cbn [andb] in Hrun.
  assert (Ee : err = - dy) by nia.
  destruct (Z.gtb_spec (2 * err) (- dy)) as [? | _]; [lia|].
  destruct (Z.ltb_spec (2 * err) dx) as [_ | ?]; [|lia].
  rewrite Z.eqb_refl in Hrun. cbn [andb] in Hrun.
  eapply (IH d1 d' (y + sy) _ (ry - 1) t Hwf1); [| exact Hrun | exact Hon1 | lia | exact Hb].
  repeat split; try lia; nia.
Qed.
End LineAxis.

(* what a horizontal Line leaves on the screen *)
Lemma Line_row (d : SSD1306) (x0 x1 y : Z) (c : Gray16) :
  wf d ->
  exists d', Line d x0 y x1 y c = Done d' /\
    wf d' /\ width d' = width d /\ height d' = height d /\
    forall a b, on_screen d a b ->
      pixel d' a b =
        if (b =? y) && (Z.min x0 x1 <=? a) && (a <=? Z.max x0 x1)
        then Some (is_white c) else pixel d a b.
Proof.
  intros Hwf.
  destruct (Line_total d x0 y x1 y c Hwf) as (d' & Hrun & _).
  destruct (Line_geometry d d' x0 y x1 y c Hwf Hrun) as (Hwf' & Hw' & Hh' & _).
  exists d'. split; [exact Hrun|]. split; [exact Hwf'|]. split; [exact Hw'|]. split; [exact Hh'|].
  intros a b Hon.
  destruct (Z.eqb_spec b y) as [-> | Hb];
    [destruct (Z.leb_spec (Z.min x0 x1) a); [destruct (Z.leb_spec a (Z.max x0 x1))|]|];
    cbn [andb].
  - unfold Line in Hrun.
    eapply (Line_loop_row x1 y _ _ (Z.abs (x1 - x0)) (Z.abs (y - y)) c ltac:(lia)
              a _ ltac:(lia) d d' x0 _ (Z.abs (x1 - x0)) (Z.abs (x1 - a)) Hwf);
      [| exact Hrun | exact Hon | lia |].
    + pose proof (Line_start_inv x0 y x1 y) as Hinv.
      replace (Z.abs (y - y)) with 0 in * by lia. exact Hinv.
    + destruct (Z.ltb_spec x0 x1); lia.
  - destruct (Line_stays_in_box_aux d x0 y x1 y a y c Hwf ltac:(lia)) as (d2 & H2 & Hpix).
    rewrite Hrun in H2. injection H2 as <-. exact Hpix.
  - destruct (Line_stays_in_box_aux d x0 y x1 y a y c Hwf ltac:(lia)) as (d2 & H2 & Hpix).
    rewrite Hrun in H2. injection H2 as <-. exact Hpix.
  - destruct (Line_stays_in_box_aux d x0 y x1 y a b c Hwf ltac:(lia)) as (d2 & H2 & Hpix).
    rewrite Hrun in H2. injection H2 as <-. exact Hpix.
Qed.

(* what a vertical Line leaves on the screen *)
Lemma Line_column (d : SSD1306) (x y0 y1 : Z) (c : Gray16) :
  wf d ->
  exists d', Line d x y0 x y1 c = Done d' /\
    wf d' /\ width d' = width d /\ height d' = height d /\
    forall a b, on_screen d a b ->
      pixel d' a b =
        if (a =? x) && (Z.min y0 y1 <=? b) && (b <=? Z.max y0 y1)
        then Some (is_white c) else pixel d a b.
Proof.
  intros Hwf.
  destruct (Line_total d x y0 x y1 c Hwf) as (d' & Hrun & _).
  destruct (Line_geometry d d' x y0 x y1 c Hwf Hrun) as (Hwf' & Hw' & Hh' & _).
  exists d'. split; [exact Hrun|]. split; [exact Hwf'|]. split; [exact Hw'|]. split; [exact Hh'|].
  intros a b Hon.
  destruct (Z.eqb_spec a x) as [-> | Ha];
    [destruct (Z.leb_spec (Z.min y0 y1) b); [destruct (Z.leb_spec b (Z.max y0 y1))|]|];
    cbn [andb].
  - unfold Line in Hrun.
    eapply (Line_loop_column x y1 _ _ (Z.abs (x - x)) (Z.abs (y1 - y0)) c ltac:(lia)
              b _ ltac:(lia) d d' y0 _ (Z.abs (y1 - y0)) (Z.abs (y1 - b)) Hwf);
      [| exact Hrun | exact Hon | lia |].
    + pose proof (Line_start_inv x y0 x y1) as Hinv.
      replace (Z.abs (x - x)) with 0 in * by lia. exact Hinv.
    + destruct (Z.ltb_spec y0 y1); lia.
  - destruct (Line_stays_in_box_aux d x y0 x y1 x b c Hwf ltac:(lia)) as (d2 & H2 & Hpix).
    rewrite Hrun in H2. injection H2 as <-. exact Hpix.
  - destruct (Line_stays_in_box_aux d x y0 x y1 x b c Hwf ltac:(lia)) as (d2 & H2 & Hpix).
    rewrite Hrun in H2. injection H2 as <-. exact Hpix.
  - destruct (Line_stays_in_box_aux d x y0 x y1 a b c Hwf ltac:(lia)) as (d2 & H2 & Hpix).
    rewrite Hrun in H2. injection H2 as <-. exact Hpix.
Qed.

(** X5.  A horizontal or a vertical Line, in either direction, between
    end points whose coordinates have at most 32 bits, on or off the
    screen, returns and colours exactly the on-screen pixels between its
    end points, both included, and changes no other pixel. *)
Theorem Line_axis_parallel_exact (d : SSD1306) (x0 y0 x1 y1 : Z) (c : Gray16) :
  wf d -> int32 x0 -> int32 y0 -> int32 x1 -> int32 y1 ->
  x0 = x1 \/ y0 = y1 ->
  exists d',
    (forall fuel, (S (Z.to_nat (Z.abs (x1 - x0) + Z.abs (y1 - y0))) <= fuel)%nat ->
       machine.Line fuel d x0 y0 x1 y1 c = Done d') /\
    forall a b, on_screen d a b ->
      pixel d' a b =
        if (Z.min x0 x1 <=? a) && (a <=? Z.max x0 x1) &&
           (Z.min y0 y1 <=? b) && (b <=? Z.max y0 y1)
        then Some (is_white c) else pixel d a b.
Proof.
  intros Hwf Hx0 Hy0 Hx1 Hy1 [E | E].
  - destruct (Line_column d x0 y0 y1 c Hwf) as (d' & Hrun & _ & _ & _ & Hpix).
    exists d'. rewrite <- E in *.
    split; [apply machine_Line_returns; assumption|].
    intros a b Hon. rewrite (Hpix a b Hon).
    rewrite Z.min_id, Z.max_id.
    destruct (Z.eqb_spec a x0); destruct (Z.leb_spec x0 a); destruct (Z.leb_spec a x0);
      cbn [andb]; try reflexivity; lia.
  - destruct (Line_row d x0 x1 y0 c Hwf) as (d' & Hrun & _ & _ & _ & Hpix).
    exists d'. rewrite <- E in *.
    split; [apply machine_Line_returns; assumption|].
    intros a b Hon. rewrite (Hpix a b Hon).
    rewrite Z.min_id, Z.max_id.
    destruct (Z.eqb_spec b y0); destruct (Z.leb_spec y0 b); destruct (Z.leb_spec b y0);
      destruct (Z.leb_spec (Z.min x0 x1) a); destruct (Z.leb_spec a (Z.max x0 x1));
      cbn [andb]; try reflexivity; lia.
Qed.

Lemma Line_axis_parallel_exact_witness :
  exists d', machine.Line 18 (blank IFACE_I2C 128 64) 20 7 3 7 White = Done d' /\
    pixel d' 11 7 = Some true /\ pixel d' 11 8 = Some false.
Proof.
  assert (Hwf : wf (blank IFACE_I2C 128 64)) by (apply blank_wf; [lia | lia | reflexivity]).
  destruct (Line_axis_parallel_exact (blank IFACE_I2C 128 64) 20 7 3 7 White Hwf
              ltac:(unfold int32; lia) ltac:(unfold int32; lia)
              ltac:(unfold int32; lia) ltac:(unfold int32; lia)
              ltac:(right; reflexivity)) as (d' & Hrun & Hpix).
  exists d'. split; [apply Hrun; cbn; lia|]. split.
  - apply (Hpix 11 7). unfold on_screen; cbn; lia.
  - apply (Hpix 11 8). unfold on_screen; cbn; lia.
Defined.

(** ** Rasterizer: what Rectangle fills *)








Lemma byte_at_nonneg (b : list Z) (j : Z) : 0 <= j -> byte_at b j = b !! Z.to_nat j.
Proof. intros Hj. unfold byte_at. destruct (Z.leb_spec 0 j); [reflexivity | lia]. Qed.

(* One masked fill, byte by byte: when the n bytes from width*page + x on
   lie in the buffer, each of them is blended with the mask and no other
   byte changes. *)
Lemma Rectangle_fill_run (page m : Z) (c : Gray16) (n : nat) :
  forall (d : SSD1306) (x : Z),
    0 <= width d * page + x ->
    width d * page + x + Z.of_nat n <= len (buf d) ->
    exists d', Rectangle_fill n d x page m c = Done d' /\
      width d' = width d /\ height d' = height d /\ iface d' = iface d /\
      length (buf d') = length (buf d) /\
      forall j,
        byte_at (buf d') j =
          if (width d * page + x <=? j) && (j <? width d * page + x + Z.of_nat n)
          then blend c m <$> byte_at (buf d) j else byte_at (buf d) j.
Proof.
  induction n as [|n IH]; intros d x Hlo Hhi.
  - exists d. cbn [Rectangle_fill]. repeat split.
    intros j. destruct (Z.leb_spec (width d * page + x) j);
      destruct (Z.ltb_spec j (width d * page + x + Z.of_nat 0)); cbn [andb]; try reflexivity; lia.
  - cbn [Rectangle_fill].
    rewrite store_in_buf by lia. cbn [obind].
    set (d1 := with_buf d _).
    destruct (IH d1 (x + 1)) as (d' & Hrun & Hw & Hh & Hi & Hlen & Hbytes).
    { subst d1. cbn [width with_buf]. lia. }
    { subst d1. unfold len. cbn [width buf with_buf]. rewrite length_alter. unfold len in Hhi. lia. }
    exists d'. split; [exact Hrun|].
    split; [rewrite Hw; reflexivity|]. split; [rewrite Hh; reflexivity|].
    split; [rewrite Hi; reflexivity|].
    split; [rewrite Hlen; subst d1; cbn [buf with_buf]; apply length_alter|].
    intros j. rewrite Hbytes. subst d1. cbn [buf with_buf width].
    rewrite byte_at_alter by lia.
    destruct (Z.eqb_spec j (width d * page + x)) as [-> | Hne].
    + destruct (Z.leb_spec (width d * page + (x + 1)) (width d * page + x)); [lia|].
      destruct (Z.leb_spec (width d * page + x) (width d * page + x)); [|lia].
      destruct (Z.ltb_spec (width d * page + x) (width d * page + x + Z.of_nat (S n))); [|lia].
      reflexivity.
    + destruct (Z.leb_spec (width d * page + (x + 1)) j);
        destruct (Z.leb_spec (width d * page + x) j);
        destruct (Z.ltb_spec j (width d * page + (x + 1) + Z.of_nat n));
        destruct (Z.ltb_spec j (width d * page + x + Z.of_nat (S n)));
        cbn [andb]; try reflexivity; lia.
Qed.

(* The same fill, pixel by pixel, for columns x0..x1 of an on-screen page
   row: the pixels of the row whose bit is in the mask take the colour. *)
Lemma Rectangle_fill_pixels (d : SSD1306) (x0 x1 page m : Z) (c : Gray16) :
  wf d -> 0 <= x0 <= x1 -> x1 < width d -> 0 <= page < height d ÷ 8 ->
  exists d', Rectangle_fill (turns x0 x1) d x0 page m c = Done d' /\
    wf d' /\ width d' = width d /\ height d' = height d /\
    forall a b, on_screen d a b ->
      pixel d' a b =
        if (b ÷ 8 =? page) && (x0 <=? a) && (a <=? x1) && Z.testbit m (b mod 8)
        then Some (is_white c) else pixel d a b.
Proof.
  intros Hwf Hx Hx1 Hpage. pose proof Hwf as (Hw & Hh & H8 & Hlen).
  rewrite pages_len in Hlen by assumption.
  destruct (Rectangle_fill_run page m c (turns x0 x1) d x0)
    as (d' & Hrun & Hw' & Hh' & Hi' & Hlen' & Hbytes).
  { nia. }
  { unfold turns. rewrite Z2Nat.id by lia. nia. }
  assert (Hwf' : wf d').
  { unfold wf, len. rewrite Hw', Hh', Hlen'. exact Hwf. }
  exists d'. split; [exact Hrun|]. split; [exact Hwf'|]. split; [exact Hw'|]. split; [exact Hh'|].
  intros a b Hon.
  assert (Hon' : on_screen d' a b) by (unfold on_screen; rewrite Hw', Hh'; exact Hon).
  pose proof (element_in_buf d a b Hwf Hon) as He.
  destruct Hon as [Ha Hb].
  assert (Hq : 0 <= b ÷ 8) by zq.
  rewrite (pixel_on_screen d' a b Hon'), (pixel_on_screen d a b (conj Ha Hb)).
  rewrite Hw', <- !byte_at_nonneg by lia.
  rewrite Hbytes. unfold turns. rewrite Z2Nat.id by lia.
  destruct (byte_at (buf d) (width d * (b ÷ 8) + a)) as [v|] eqn:Ev.
  2: { unfold byte_at in Ev. destruct (Z.leb_spec 0 (width d * (b ÷ 8) + a)); [|lia].
       apply lookup_ge_None in Ev. unfold len in He. lia. }
  destruct (Z.eqb_spec (b ÷ 8) page) as [Ep | Ep].
  - rewrite Ep.
    destruct (Z.leb_spec x0 a); destruct (Z.leb_spec a x1);
      destruct (Z.leb_spec (width d * page + x0) (width d * page + a));
      destruct (Z.ltb_spec (width d * page + a) (width d * page + x0 + (x1 - x0 + 1)));
      cbn [andb]; try reflexivity; try lia.
    cbn. rewrite testbit_blend_mask. destruct (Z.testbit m (b mod 8)); reflexivity.
  - cbn [andb].
    destruct (Z.leb_spec (width d * page + x0) (width d * (b ÷ 8) + a));
      destruct (Z.ltb_spec (width d * (b ÷ 8) + a) (width d * page + x0 + (x1 - x0 + 1)));
      cbn [andb]; try reflexivity.
    exfalso. assert (b ÷ 8 < page \/ page < b ÷ 8) by lia. nia.
Qed.

Lemma testbit_255 (k : Z) : 0 <= k < 8 -> Z.testbit 255 k = true.
Proof. intros Hk. change 255 with (Z.ones 8). apply Z.ones_spec_low. lia. Qed.

(* the bottom mask ^byte(0) >> uint(7 - y1%8) holds the bits 0 .. y1%8 *)
Lemma bottom_mask_bits (y1 k : Z) :
  0 <= y1 -> 0 <= k < 8 ->
  Z.testbit (byte_shr 255 (to_uint (7 - Z.rem y1 8))) k = (k <=? y1 mod 8).
Proof.
  intros Hy Hk. unfold byte_shr, to_uint.
  assert (E : Z.rem y1 8 = y1 mod 8) by zq. assert (Hm : 0 <= y1 mod 8 < 8) by zq.
  rewrite E, Z.mod_small by lia.
  destruct (Z.leb_spec 8 (7 - y1 mod 8)); [lia|].
  rewrite Z.shiftr_spec by lia. change 255 with (Z.ones 8).
  destruct (Z.leb_spec k (y1 mod 8)).
  - apply Z.ones_spec_low. lia.
  - apply Z.ones_spec_high. lia.
Qed.

(* the full-mask loop over the page rows from the one of yc up to, but
   not including, the one of y1 *)
Lemma Rectangle_pages_pixels (x0 x1 y1 : Z) (c : Gray16) (fuel : nat) :
  forall (d : SSD1306) (yc : Z),
    wf d -> 0 <= x0 <= x1 -> x1 < width d -> 0 <= yc -> y1 < height d ->
    (Z.to_nat (y1 ÷ 8 - yc ÷ 8) <= fuel)%nat ->
    exists d', Rectangle_pages fuel d x0 yc x1 y1 c = Done d' /\
      wf d' /\ width d' = width d /\ height d' = height d /\
      forall a b, on_screen d a b ->
        pixel d' a b =
          if (yc ÷ 8 <=? b ÷ 8) && (b ÷ 8 <? y1 ÷ 8) && (x0 <=? a) && (a <=? x1)
          then Some (is_white c) else pixel d a b.
Proof.
  induction fuel as [|fuel IH]; intros d yc Hwf Hx Hx1 Hyc Hy1 Hfuel.
  - cbn [Rectangle_pages]. destruct (Z.ltb_spec (yc ÷ 8) (y1 ÷ 8)); [lia|].
    exists d. split; [reflexivity|]. split; [exact Hwf|]. split; [reflexivity|].
    split; [reflexivity|]. intros a b _.
    destruct (Z.leb_spec (yc ÷ 8) (b ÷ 8)); destruct (Z.ltb_spec (b ÷ 8) (y1 ÷ 8));
      cbn [andb]; try reflexivity; lia.
  - cbn [Rectangle_pages]. destruct (Z.ltb_spec (yc ÷ 8) (y1 ÷ 8)) as [Hlt | Hge].
    + pose proof Hwf as (_ & _ & H8 & _).
      destruct (Rectangle_fill_pixels d x0 x1 (yc ÷ 8) 255 c Hwf Hx Hx1 ltac:(zq))
        as (d1 & -> & Hwf1 & Hw1 & Hh1 & Hpix1).
      cbn [obind].
      destruct (IH d1 (yc ÷ 8 * 8 + 8) Hwf1 Hx ltac:(lia) ltac:(zq) ltac:(lia))
        as (d' & Hrun & Hwf' & Hw' & Hh' & Hpix').
      { replace ((yc ÷ 8 * 8 + 8) ÷ 8) with (yc ÷ 8 + 1) by zq. lia. }
      exists d'. split; [exact Hrun|]. split; [exact Hwf'|]. split; [lia|]. split; [lia|].
      intros a b Hon.
      assert (Hon1 : on_screen d1 a b) by (unfold on_screen; rewrite Hw1, Hh1; exact Hon).
      rewrite (Hpix' a b Hon1), (Hpix1 a b Hon).
      replace ((yc ÷ 8 * 8 + 8) ÷ 8) with (yc ÷ 8 + 1) by zq.
      rewrite testbit_255 by (destruct Hon; zq).
      destruct (Z.eqb_spec (b ÷ 8) (yc ÷ 8)); destruct (Z.leb_spec (yc ÷ 8) (b ÷ 8));
        destruct (Z.leb_spec (yc ÷ 8 + 1) (b ÷ 8)); destruct (Z.ltb_spec (b ÷ 8) (y1 ÷ 8));
        destruct (Z.leb_spec x0 a); destruct (Z.leb_spec a x1);
        cbn [andb]; try reflexivity; lia.
    + exists d. split; [reflexivity|]. split; [exact Hwf|]. split; [reflexivity|].
      split; [reflexivity|]. intros a b _.
      destruct (Z.leb_spec (yc ÷ 8) (b ÷ 8)); destruct (Z.ltb_spec (b ÷ 8) (y1 ÷ 8));
        cbn [andb]; try reflexivity; lia.
Qed.

(* what the page path leaves on the screen for a box that lies on it *)
Lemma Rectangle_page_path_pixels (d : SSD1306) (x0 y0 x1 y1 : Z) (c : Gray16) :
  wf d -> 0 <= x0 -> x0 < x1 -> x1 < width d ->
  0 <= y0 -> y1 < height d -> y0 ÷ 8 < y1 ÷ 8 ->
  exists d', Rectangle d x0 y0 x1 y1 c = Done d' /\
    wf d' /\ width d' = width d /\ height d' = height d /\
    forall a b, on_screen d a b ->
      pixel d' a b =
        if (x0 <=? a) && (a <=? x1) && (8 * (y0 ÷ 8) <=? b) && (b <=? y1)
        then Some (is_white c) else pixel d a b.
Proof.
  intros Hwf Hx0 Hx Hx1 Hy0 Hy1 Hpage. pose proof Hwf as (_ & _ & H8 & _).
  assert (Hy : y0 < y1) by zq.
  unfold Rectangle.
  destruct (Z.gtb_spec x0 x1); [lia|]. destruct (Z.gtb_spec y0 y1); [lia|].
  destruct (Z.eqb_spec x0 x1); [lia|]. destruct (Z.eqb_spec y0 y1); [lia|].
  destruct (Z.ltb_spec (y0 ÷ 8) (y1 ÷ 8)); [|lia]. cbn [orb].
  set (m0 := byte_shl 255 (to_uint (Z.rem y0 8 - 1))).
  destruct (Rectangle_fill_pixels d x0 x1 (y0 ÷ 8) m0 c Hwf ltac:(lia) Hx1 ltac:(zq))
    as (d1 & -> & Hwf1 & Hw1 & Hh1 & Hpix1).
  cbn [obind].
  destruct (Rectangle_pages_pixels x0 x1 y1 c (Z.to_nat (y1 ÷ 8 - y0 ÷ 8)) d1 y0 Hwf1
              ltac:(lia) ltac:(lia) Hy0 ltac:(lia) ltac:(lia))
    as (d2 & -> & Hwf2 & Hw2 & Hh2 & Hpix2).
  cbn [obind].
  destruct (Rectangle_fill_pixels d2 x0 x1 (y1 ÷ 8)
              (byte_shr 255 (to_uint (7 - Z.rem y1 8))) c Hwf2 ltac:(lia) ltac:(lia))
    as (d3 & Hrun & Hwf3 & Hw3 & Hh3 & Hpix3).
  { rewrite Hh2, Hh1. zq. }
  exists d3. split; [exact Hrun|]. split; [exact Hwf3|]. split; [lia|]. split; [lia|].
  intros a b Hon.
  assert (Hon1 : on_screen d1 a b) by (unfold on_screen; rewrite Hw1, Hh1; exact Hon).
  assert (Hon2 : on_screen d2 a b) by (unfold on_screen; rewrite Hw2, Hh2; exact Hon1).
  rewrite (Hpix3 a b Hon2), (Hpix2 a b Hon1), (Hpix1 a b Hon).
  destruct Hon as [Ha Hb].
  rewrite bottom_mask_bits by zq.
  assert (Eb : b = 8 * (b ÷ 8) + b mod 8 /\ 0 <= b mod 8 < 8) by zq.
  assert (E1 : y1 = 8 * (y1 ÷ 8) + y1 mod 8 /\ 0 <= y1 mod 8 < 8) by zq.
  clear Hpix1 Hpix2 Hpix3 Hrun.
  set (qb := b ÷ 8) in *. set (rb := b mod 8) in *.
  set (q1 := y1 ÷ 8) in *. set (r1 := y1 mod 8) in *. set (q0 := y0 ÷ 8) in *.
  clearbody qb rb q1 r1 q0.
  destruct (Z.testbit m0 rb);
    destruct (Z.eqb_spec qb q1); destruct (Z.eqb_spec qb q0);
    destruct (Z.leb_spec q0 qb); destruct (Z.ltb_spec qb q1);
    destruct (Z.leb_spec x0 a); destruct (Z.leb_spec a x1);
    destruct (Z.leb_spec rb r1);
    destruct (Z.leb_spec (8 * q0) b); destruct (Z.leb_spec b y1);
    cbn [andb]; try reflexivity; exfalso; lia.
Qed.

(** X7.  For a box that lies on the screen and spans more than one page
    row, Rectangle returns and colours the columns x0..x1 from the top of
    the page row that holds y0 down to row y1, and nothing else; when the
    top edge is page-aligned (y0 a multiple of 8) this is exactly the
    box. *)
Theorem Rectangle_page_path_fill (d : SSD1306) (x0 y0 x1 y1 : Z) (c : Gray16) :
  wf d -> 0 <= x0 -> x0 < x1 -> x1 < width d ->
  0 <= y0 -> y1 < height d -> y0 ÷ 8 < y1 ÷ 8 ->
  exists d', Rectangle d x0 y0 x1 y1 c = Done d' /\
    (forall a b, on_screen d a b ->
       pixel d' a b =
         if (x0 <=? a) && (a <=? x1) && (8 * (y0 ÷ 8) <=? b) && (b <=? y1)
         then Some (is_white c) else pixel d a b) /\
    (y0 mod 8 = 0 ->
     forall a b, on_screen d a b ->
       pixel d' a b =
         if (x0 <=? a) && (a <=? x1) && (y0 <=? b) && (b <=? y1)
         then Some (is_white c) else pixel d a b).
Proof.
  intros Hwf Hx0 Hx Hx1 Hy0 Hy1 Hpage.
  destruct (Rectangle_page_path_pixels d x0 y0 x1 y1 c Hwf Hx0 Hx Hx1 Hy0 Hy1 Hpage)
    as (d' & Hrun & _ & _ & _ & Hpix).
  exists d'. split; [exact Hrun|]. split; [exact Hpix|].
  intros Hal a b Hon. rewrite (Hpix a b Hon).
  replace (8 * (y0 ÷ 8)) with y0 by zq. reflexivity.
Qed.

Lemma Rectangle_page_path_fill_witness :
  exists d', Rectangle (blank IFACE_I2C 128 64) 10 8 20 30 White = Done d' /\
    pixel d' 15 8 = Some true /\ pixel d' 15 7 = Some false /\ pixel d' 15 31 = Some false.
Proof.
  assert (Hwf : wf (blank IFACE_I2C 128 64)) by (apply blank_wf; [lia | lia | reflexivity]).
  destruct (Rectangle_page_path_fill (blank IFACE_I2C 128 64) 10 8 20 30 White Hwf
              ltac:(lia) ltac:(lia) ltac:(cbn; lia) ltac:(lia) ltac:(cbn; lia)
              ltac:(vm_compute; reflexivity))
    as (d' & Hrun & _ & Hpix).
  specialize (Hpix eq_refl).
  exists d'. split; [exact Hrun|]. split; [|split].
  - apply (Hpix 15 8). unfold on_screen; cbn; lia.
  - apply (Hpix 15 7). unfold on_screen; cbn; lia.
  - apply (Hpix 15 31). unfold on_screen; cbn; lia.
Defined.

(** ** Rasterizer: where Circle draws *)

Section CircleFrame.
Variables (x0 y0 a b : Z) (c : Gray16).

Ltac octant Hrun Hne :=
  match type of Hrun with
  | obind (Point ?e ?u ?v ?k) _ = _ =>
      let e' := fresh "e" in
      let HP := fresh "HP" in
      let He := fresh "Hwfe" in
      destruct (Point_returns e u v k ltac:(assumption)) as (e' & HP & He);
      rewrite HP in Hrun; cbn [obind] in Hrun;
      apply (Point_frame e e' u v a b k ltac:(assumption)) in HP;
      [| replace u with (x0 + (u - x0)) by lia; replace v with (y0 + (v - y0)) by lia;
         apply Hne; nia]
  end.

Lemma Circle_octants_frame (d d' : SSD1306) (x y : Z) :
  wf d -> Circle_octants d x0 y0 x y c = Done d' ->
  (forall u v, u * u + v * v = x * x + y * y -> (a, b) <> (x0 + u, y0 + v)) ->
  pixel d' a b = pixel d a b /\ wf d'.
Proof.
  intros Hwf Hrun Hne. unfold Circle_octants in Hrun.
  octant Hrun Hne. octant Hrun Hne. octant Hrun Hne. octant Hrun Hne.
  octant Hrun Hne. octant Hrun Hne. octant Hrun Hne.
  destruct (Point_returns e5 (x0 - y) (y0 - x) c ltac:(assumption)) as (e' & HP' & He').
  rewrite Hrun in HP'. injection HP' as <-.
  apply (Point_frame e5 d' (x0 - y) (y0 - x) a b c ltac:(assumption)) in Hrun.
  - split; [congruence | assumption].
  - replace (x0 - y) with (x0 + (- y)) by lia. replace (y0 - x) with (y0 + (- x)) by lia.
    apply Hne. nia.
Qed.

(* a pixel that has the colour of the circle keeps it *)
Lemma Circle_octants_keeps (d d' : SSD1306) (x y : Z) :
  wf d -> Circle_octants d x0 y0 x y c = Done d' ->
  pixel d a b = Some (is_white c) -> pixel d' a b = Some (is_white c).
Proof.
  intros Hwf Hrun Hpix. unfold Circle_octants in Hrun.
  repeat match type of Hrun with
  | obind (Point ?e ?u ?v ?k) _ = _ =>
      let e' := fresh "e" in
      let HP := fresh "HP" in
      let He := fresh "Hwfe" in
      destruct (Point_returns e u v k ltac:(assumption)) as (e' & HP & He);
      rewrite HP in Hrun; cbn [obind] in Hrun;
      apply (Point_keeps e e' u v a b k ltac:(assumption)) in HP; [|assumption]
  end.
  eapply Point_keeps; [| exact Hrun | assumption]. assumption.
Qed.
End CircleFrame.

Section CircleLoop.
Variables (r x0 y0 : Z) (c : Gray16).
Hypothesis Hr : 0 <= r.

(* every point plotted by the loop is within r of the circle, measured by
   x^2 + y^2 - r^2 *)
Lemma Circle_loop_band (a b : Z) (fuel : nat) :
  ~ Z.abs ((a - x0) * (a - x0) + (b - y0) * (b - y0) - r * r) <= r ->
  forall (d d' : SSD1306) (f ddF_x ddF_y x y : Z),
    wf d -> (x < y -> circle_inv r x y f ddF_x ddF_y) ->
    Circle_loop fuel d x0 y0 f ddF_x ddF_y x y c = Done d' ->
    pixel d' a b = pixel d a b.
Proof.
  intros Hout.
  induction fuel as [|fuel IH]; intros d d' f ddF_x ddF_y x y Hwf Hinv Hrun;
    cbn [Circle_loop] in Hrun; destruct (Z.ltb_spec x y) as [Hxy | Hxy];
    try discriminate; try (injection Hrun as <-; reflexivity).
  destruct (Hinv Hxy) as (Edx & Edy & Ef & Hx & Hy & Hlo & Hhi).
  set (y' := if f >=? 0 then y - 1 else y) in *.
  assert (Hband : - r <= (x + 1) * (x + 1) + y' * y' - r * r <= r).
  { subst y'. destruct (Z.geb_spec f 0); nia. }
  destruct (Circle_octants_total d x0 y0 (x + 1) y' c Hwf) as (d1 & Hoct & Hwf1).
  rewrite Hoct in Hrun. cbn [obind] in Hrun.
  destruct (Circle_octants_frame x0 y0 a b c d d1 (x + 1) y' Hwf Hoct) as [H1 _].
  { intros u v E [= -> ->]. apply Hout.
    replace (x0 + u - x0) with u by lia. replace (y0 + v - y0) with v by lia. lia. }
  rewrite <- H1. eapply IH; [exact Hwf1 | | exact Hrun].
  intros Hlt. subst y'. unfold circle_inv. destruct (Z.geb_spec f 0); repeat split; nia.
Qed.

Lemma Circle_loop_keeps (a b : Z) (fuel : nat) :
  forall (d d' : SSD1306) (f ddF_x ddF_y x y : Z),
    wf d -> pixel d a b = Some (is_white c) ->
    Circle_loop fuel d x0 y0 f ddF_x ddF_y x y c = Done d' ->
    pixel d' a b = Some (is_white c).
Proof.
  induction fuel as [|fuel IH]; intros d d' f ddF_x ddF_y x y Hwf Hpix Hrun;
    cbn [Circle_loop] in Hrun; destruct (x <? y);
    try discriminate; try (injection Hrun as <-; assumption).
  match type of Hrun with
  | obind (Circle_octants ?e ?p ?q ?u ?v ?k) _ = _ =>
      destruct (Circle_octants_total e p q u v k Hwf) as (d1 & Hoct & Hwf1);
      rewrite Hoct in Hrun; cbn [obind] in Hrun;
      apply (Circle_octants_keeps p q a b k e d1 u v Hwf) in Hoct; [|assumption]
  end.
  eapply IH; eassumption.
Qed.
End CircleLoop.

(* what Circle does, shared by the two statements below *)
Lemma Circle_run (d : SSD1306) (x0 y0 r : Z) (c : Gray16) :
  wf d -> 0 <= r ->
  exists d', Circle d x0 y0 r c = Done d' /\
    (forall a b,
       ~ Z.abs ((a - x0) * (a - x0) + (b - y0) * (b - y0) - r * r) <= r ->
       pixel d' a b = pixel d a b) /\
    (forall a b,
       (a, b) = (x0, y0 + r) \/ (a, b) = (x0, y0 - r) \/
       (a, b) = (x0 + r, y0) \/ (a, b) = (x0 - r, y0) ->
       on_screen d a b -> pixel d' a b = Some (is_white c)).
Proof.
  intros Hwf Hr.
  destruct (Circle_total d x0 y0 r c Hwf) as (d' & Hrun & _).
  exists d'. split; [exact Hrun|].
  unfold Circle in Hrun.
  destruct (Point_total d x0 (y0 + r) c Hwf) as (d1 & HP1 & Hwf1 & Hw1 & Hh1 & _).
  rewrite HP1 in Hrun. cbn [obind] in Hrun.
  destruct (Point_total d1 x0 (y0 - r) c Hwf1) as (d2 & HP2 & Hwf2 & Hw2 & Hh2 & _).
  rewrite HP2 in Hrun. cbn [obind] in Hrun.
  destruct (Point_total d2 (x0 + r) y0 c Hwf2) as (d3 & HP3 & Hwf3 & Hw3 & Hh3 & _).
  rewrite HP3 in Hrun. cbn [obind] in Hrun.
  destruct (Point_total d3 (x0 - r) y0 c Hwf3) as (d4 & HP4 & Hwf4 & Hw4 & Hh4 & _).
  rewrite HP4 in Hrun. cbn [obind] in Hrun.
  split.
  - intros a b Hout.
    assert (Hne : forall u v, u * u + v * v = r * r -> (a, b) <> (x0 + u, y0 + v)).
    { intros u v E [= -> ->]. apply Hout.
      replace (x0 + u - x0) with u by lia. replace (y0 + v - y0) with v by lia. lia. }
    assert (Hloop : pixel d' a b = pixel d4 a b).
    { eapply (Circle_loop_band r x0 y0 c Hr a b); [exact Hout | exact Hwf4 | | exact Hrun].
      intros _. unfold circle_inv. repeat split; nia. }
    rewrite Hloop.
    rewrite (Point_frame d3 d4 _ _ a b c Hwf3 HP4)
      by (intros [= Ea Eb]; apply (Hne (- r) 0); [nia | f_equal; lia]).
    rewrite (Point_frame d2 d3 _ _ a b c Hwf2 HP3)
      by (intros [= Ea Eb]; apply (Hne r 0); [nia | f_equal; lia]).
    rewrite (Point_frame d1 d2 _ _ a b c Hwf1 HP2)
      by (intros [= Ea Eb]; apply (Hne 0 (- r)); [nia | f_equal; lia]).
    rewrite (Point_frame d d1 _ _ a b c Hwf HP1)
      by (intros [= Ea Eb]; apply (Hne 0 r); [nia | f_equal; lia]).
    reflexivity.
  - intros a b Hab Hon.
    eapply (Circle_loop_keeps x0 y0 c a b); [exact Hwf4 | | exact Hrun].
    assert (Hon1 : on_screen d1 a b) by (unfold on_screen; rewrite Hw1, Hh1; exact Hon).
    assert (Hon2 : on_screen d2 a b) by (unfold on_screen; rewrite Hw2, Hh2; exact Hon1).
    assert (Hon3 : on_screen d3 a b) by (unfold on_screen; rewrite Hw3, Hh3; exact Hon2).
    destruct Hab as [E | [E | [E | E]]]; injection E as -> ->.
    + destruct (Point_pixels d x0 (y0 + r) c Hwf Hon) as (e & He & Hset & _).
      rewrite HP1 in He. injection He as <-.
      eapply Point_keeps; [exact Hwf3 | exact HP4 |].
      eapply Point_keeps; [exact Hwf2 | exact HP3 |].
      eapply Point_keeps; [exact Hwf1 | exact HP2 |]. exact Hset.
    + destruct (Point_pixels d1 x0 (y0 - r) c Hwf1 Hon1) as (e & He & Hset & _).
      rewrite HP2 in He. injection He as <-.
      eapply Point_keeps; [exact Hwf3 | exact HP4 |].
      eapply Point_keeps; [exact Hwf2 | exact HP3 |]. exact Hset.
    + destruct (Point_pixels d2 (x0 + r) y0 c Hwf2 Hon2) as (e & He & Hset & _).
      rewrite HP3 in He. injection He as <-.
      eapply Point_keeps; [exact Hwf3 | exact HP4 |]. exact Hset.
    + destruct (Point_pixels d3 (x0 - r) y0 c Hwf3 Hon3) as (e & He & Hset & _).
      rewrite HP4 in He. injection He as <-. exact Hset.
Qed.

(** ** Rasterizer: Circle over machine integers *)



Section MachineCircle.
Variables (r x0 y0 : Z) (c : Gray16).
Hypothesis Hr : 0 <= r < 2 ^ 31.
Hypothesis Hx0 : int32 x0.
Hypothesis Hy0 : int32 y0.

End MachineCircle.




(** X9.  Circle with a radius r >= 0 colours the four points of the circle
    on the axes through the centre, (x0, y0 +- r) and (x0 +- r, y0),
    whenever they are on the screen. *)
Theorem Circle_plots_axis_points (d : SSD1306) (x0 y0 r : Z) (c : Gray16) :
  wf d -> 0 <= r ->
  exists d', Circle d x0 y0 r c = Done d' /\
    forall a b,
      (a, b) = (x0, y0 + r) \/ (a, b) = (x0, y0 - r) \/
      (a, b) = (x0 + r, y0) \/ (a, b) = (x0 - r, y0) ->
      on_screen d a b -> pixel d' a b = Some (is_white c).
Proof.
  intros Hwf Hr. destruct (Circle_run d x0 y0 r c Hwf Hr) as (d' & Hrun & _ & Hext).
  exists d'. auto.
Qed.

Lemma Circle_plots_axis_points_witness :
  exists d', Circle (blank IFACE_I2C 128 64) 64 32 10 White = Done d' /\
    pixel d' 74 32 = Some true.
Proof.
  destruct (Circle_plots_axis_points (blank IFACE_I2C 128 64) 64 32 10 White
              ltac:(apply blank_wf; [lia | lia | reflexivity]) ltac:(lia)) as (d' & Hrun & Hpix).
  exists d'. split; [exact Hrun|].
  apply (Hpix 74 32); [right; right; left; reflexivity | unfold on_screen; cbn; lia].
Defined.

(** ** Rasterizer: the pixels of a glyph *)

Lemma byte_high_bits (g k : Z) : 0 <= g < 256 -> 8 <= k -> Z.testbit g k = false.
Proof.
  intros Hg Hk. rewrite <- (Z.mod_small g 256) by lia.
  change 256 with (2 ^ 8). apply Z.mod_pow2_bits_high. lia.
Qed.

Lemma testbit_byte_shl (g s j : Z) :
  0 <= s < 8 -> 0 <= j < 8 ->
  Z.testbit (byte_shl g s) j = if s <=? j then Z.testbit g (j - s) else false.
Proof.
  intros Hs Hj. unfold byte_shl. destruct (Z.leb_spec 8 s); [lia|].
  change 256 with (2 ^ 8). rewrite Z.mod_pow2_bits_low by lia.
  rewrite Z.shiftl_spec by lia.
  destruct (Z.leb_spec s j); [reflexivity | apply Z.testbit_neg_r; lia].
Qed.

Lemma testbit_byte_shr (g n j : Z) :
  0 <= g < 256 -> 0 <= n -> 0 <= j ->
  Z.testbit (byte_shr g n) j = Z.testbit g (j + n).
Proof.
  intros Hg Hn Hj. unfold byte_shr. destruct (Z.leb_spec 8 n).
  - rewrite Z.bits_0. symmetry. apply byte_high_bits; lia.
  - apply Z.shiftr_spec. lia.
Qed.

(** X10.  The pixels of a glyph.  For an anchor on the screen, a valid
    code and a font table of bytes, Char gives pixel (a, b) the colour
    exactly when it lies in the 5x8 cell whose bottom-left corner is the
    anchor (columns x..x+4, rows y-8..y-1) and bit b-(y-8) of column a-x
    of the glyph is set; every other pixel of the screen is unchanged.
    Rows of the cell above the screen and columns beyond its right edge
    are clipped. *)
Theorem Char_pixels (font : list Z) (d : SSD1306) (x y : Z) (c : Gray16) (r : Z) :
  wf d -> length font = 640%nat -> Forall (fun g => 0 <= g < 256) font ->
  on_screen d x y -> 0 <= r <= 127 ->
  exists d', Char font d x y c r = Done (d', 0) /\
    forall a b, on_screen d a b ->
      pixel d' a b =
        if (x <=? a) && (a <? x + 5) && (y - 8 <=? b) && (b <? y) &&
           Z.testbit (glyph_byte font r (a - x)) (b - (y - 8))
        then Some (is_white c) else pixel d a b.
Proof.
  intros Hwf Hfont Hbytes Hon Hr.
  destruct (Char_bytes font d x y c r Hwf Hfont Hon Hr)
    as (d' & Hrun & Hw' & Hh' & Hlen' & Hb).
  exists d'. split; [exact Hrun|].
  intros a b Hab.
  assert (Hab' : on_screen d' a b) by (unfold on_screen; rewrite Hw', Hh'; exact Hab).
  pose proof (element_in_buf d a b Hwf Hab) as He.
  rewrite (pixel_on_screen d' a b Hab'), (pixel_on_screen d a b Hab).
  rewrite Hw', <- !byte_at_nonneg by lia. rewrite Hb. clear Hb Hrun.
  destruct (byte_at (buf d) (width d * (b ÷ 8) + a)) as [v|] eqn:Ev.
  2: { unfold byte_at in Ev. destruct (Z.leb_spec 0 (width d * (b ÷ 8) + a)); [|lia].
       apply lookup_ge_None in Ev. unfold len in He. lia. }
  assert (Hg : forall i, 0 <= glyph_byte font r i < 256).
  { intros i. unfold glyph_byte. destruct (font !! Z.to_nat (5 * r + i)) as [g|] eqn:Eg; cbn; [|lia].
    eapply Forall_lookup_1 in Hbytes; [exact Hbytes | exact Eg]. }
  destruct Hon as [Hx Hy]. destruct Hab as [Ha Hb].
  assert (Ey : y = 8 * (y ÷ 8) + y mod 8 /\ 0 <= y mod 8 < 8 /\ 0 <= y ÷ 8) by zq.
  assert (Eb : b = 8 * (b ÷ 8) + b mod 8 /\ 0 <= b mod 8 < 8 /\ 0 <= b ÷ 8) by zq.
  set (q := y ÷ 8) in *. set (s := y mod 8) in *.
  set (qb := b ÷ 8) in *. set (j := b mod 8) in *.
  clearbody q s qb j.
  destruct Ey as (Ey & Hs & Hq). destruct Eb as (Eb & Hj & Hqb).
  set (g := glyph_byte font r).
  assert (Hpage : qb = q \/ qb = q - 1 \/ qb <= q - 2 \/ q + 1 <= qb) by lia.
  destruct Hpage as [-> | [-> | [Hp | Hp]]].
  - (* the page row of the anchor *)
    destruct (Z.ltb_spec (x + (width d * q + a - (width d * q + x - width d))) (width d)); [lia|].
    rewrite andb_false_r.
    destruct (Z.leb_spec x a); destruct (Z.ltb_spec a (x + 5));
      destruct (Z.leb_spec (width d * q + x) (width d * q + a));
      destruct (Z.ltb_spec (width d * q + a) (width d * q + x + 5));
      destruct (Z.ltb_spec (x + (width d * q + a - (width d * q + x))) (width d));
      cbn [andb fmap option_fmap option_map]; try reflexivity; try lia.
    rewrite testbit_blend_mask, testbit_byte_shr by (try apply Hg; lia).
    replace (width d * q + a - (width d * q + x)) with (a - x) by lia.
    replace (b - (y - 8)) with (j + (8 - s)) by lia.
    destruct (Z.leb_spec (y - 8) b); [|lia].
    destruct (Z.ltb_spec b y); cbn [andb];
      [destruct (Z.testbit (g (a - x)) (j + (8 - s))); reflexivity|].
    rewrite byte_high_bits by (try apply Hg; lia). reflexivity.
  - (* the page row above *)
    replace (width d * (q - 1) + a) with (width d * q + a - width d) by lia.
    destruct (Z.leb_spec 8 y); [|lia].
    destruct (Z.leb_spec x a); destruct (Z.ltb_spec a (x + 5));
      destruct (Z.leb_spec (width d * q + x - width d) (width d * q + a - width d));
      destruct (Z.ltb_spec (width d * q + a - width d) (width d * q + x - width d + 5));
      destruct (Z.ltb_spec (x + (width d * q + a - width d - (width d * q + x - width d))) (width d));
      cbn [andb fmap option_fmap option_map]; try lia.
    + rewrite testbit_blend_mask, testbit_byte_shl by lia.
      replace (width d * q + a - width d - (width d * q + x - width d)) with (a - x) by lia.
      replace (b - (y - 8)) with (j - s) by lia.
      destruct (Z.ltb_spec b y); [|lia].
      destruct (Z.leb_spec s j); destruct (Z.leb_spec (y - 8) b); cbn [andb];
        try reflexivity; try lia.
      destruct (Z.testbit (g (a - x)) (j - s)); reflexivity.
    + destruct (Z.leb_spec (width d * q + x) (width d * q + a - width d)); [lia|]. reflexivity.
    + destruct (Z.leb_spec (width d * q + x) (width d * q + a - width d)); [lia|]. reflexivity.
  - (* page rows further up *)
    assert (width d * qb <= width d * q - 2 * width d) by nia.
    destruct (Z.leb_spec (width d * q + x - width d) (width d * qb + a)); [lia|].
    rewrite andb_false_r. cbn [andb].
    destruct (Z.leb_spec (width d * q + x) (width d * qb + a)); [lia|].
    destruct (Z.leb_spec (y - 8) b); [lia|]. rewrite andb_false_r. reflexivity.
  - (* page rows below *)
    assert (width d * q + width d <= width d * qb) by nia.
    destruct (Z.ltb_spec (x + (width d * qb + a - (width d * q + x - width d))) (width d)); [lia|].
    rewrite andb_false_r.
    destruct (Z.ltb_spec (x + (width d * qb + a - (width d * q + x))) (width d)); [lia|].
    rewrite andb_false_r.
    destruct (Z.ltb_spec b y); [lia|]. rewrite andb_false_r. reflexivity.
Qed.

Lemma Char_pixels_witness :
  exists d', Char sample_font (blank IFACE_I2C 128 64) 10 20 White 65 = Done (d', 0) /\
    pixel d' 10 13 = Some true /\ pixel d' 10 12 = Some false /\ pixel d' 11 16 = Some true.
Proof.
  assert (Hwf : wf (blank IFACE_I2C 128 64)) by (apply blank_wf; [lia | lia | reflexivity]).
  assert (Hbytes : Forall (fun g => 0 <= g < 256) sample_font).
  { apply (bool_decide_unpack _). vm_compute. exact I. }
  destruct (Char_pixels sample_font (blank IFACE_I2C 128 64) 10 20 White 65 Hwf eq_refl Hbytes
              ltac:(unfold on_screen; cbn; lia) ltac:(lia)) as (d' & Hrun & Hpix).
  exists d'. split; [exact Hrun|]. split; [|split].
  - apply (Hpix 10 13). unfold on_screen; cbn; lia.
  - apply (Hpix 10 12). unfold on_screen; cbn; lia.
  - apply (Hpix 11 16). unfold on_screen; cbn; lia.
Defined.

(** ** The invariant of the data model *)

Lemma same_shape_refl (d : SSD1306) : same_shape d d.
Proof. repeat split. Qed.

Lemma same_shape_trans (d1 d2 d3 : SSD1306) :
  same_shape d1 d2 -> same_shape d2 d3 -> same_shape d1 d3.
Proof. unfold same_shape. intros (? & ? & ? & ?) (? & ? & ? & ?). repeat split; congruence. Qed.

Lemma same_shape_wf (d d' : SSD1306) : wf d -> same_shape d d' -> wf d'.
Proof.
  unfold wf, same_shape, len. intros (? & ? & ? & ?) (Hw & Hh & _ & Hl).
  rewrite Hw, Hh, Hl. auto.
Qed.

Lemma store_shape (d d' : SSD1306) (e m : Z) (c : Gray16) :
  store d e m c = Done d' -> same_shape d d'.
Proof.
  unfold store, buf_modify. destruct ((0 <=? e) && (e <? len (buf d))); [|discriminate].
  cbn [obind]. intros [= <-]. repeat split. cbn [buf with_buf]. apply length_alter.
Qed.

Lemma Point_shape (d d' : SSD1306) (x y : Z) (c : Gray16) :
  Point d x y c = Done d' -> same_shape d d'.
Proof.
  unfold Point. destruct ((x >=? width d) || (y >=? height d) || (x <? 0) || (y <? 0)).
  - intros [= <-]. apply same_shape_refl.
  - apply store_shape.
Qed.

Lemma Line_loop_shape (x1 y1 sx sy dx dy : Z) (c : Gray16) (fuel : nat) :
  forall (d d' : SSD1306) (x y err : Z),
    Line_loop fuel d x y x1 y1 sx sy dx dy err c = Done d' -> same_shape d d'.
Proof.
  induction fuel as [|fuel IH]; intros d d' x y err Hrun; [discriminate|].
  cbn [Line_loop] in Hrun.
  destruct (Point d x y c) as [d1| |] eqn:HP; try discriminate. cbn [obind] in Hrun.
  apply Point_shape in HP.
  destruct ((x =? x1) && (y =? y1)); [injection Hrun as <-; exact HP|].
  match type of Hrun with
  | (if ?t then _ else _) = _ => destruct t
  end.
  - apply Point_shape in Hrun. eapply same_shape_trans; eassumption.
  - apply IH in Hrun. eapply same_shape_trans; eassumption.
Qed.

Lemma Circle_octants_shape (d d' : SSD1306) (x0 y0 x y : Z) (c : Gray16) :
  Circle_octants d x0 y0 x y c = Done d' -> same_shape d d'.
Proof.
  unfold Circle_octants. intros Hrun.
  repeat match type of Hrun with
  | obind (Point ?e ?u ?v ?k) _ = _ =>
      let e' := fresh "e" in
      let HP := fresh "HP" in
      destruct (Point e u v k) as [e'| |] eqn:HP; try discriminate;
      cbn [obind] in Hrun; apply Point_shape in HP
  end.
  apply Point_shape in Hrun.
  repeat match goal with
  | H : same_shape ?p ?q |- same_shape ?p _ =>
      first [exact H | eapply same_shape_trans; [exact H|]]
  end.
Qed.

Lemma Circle_loop_shape (x0 y0 : Z) (c : Gray16) (fuel : nat) :
  forall (d d' : SSD1306) (f ddF_x ddF_y x y : Z),
    Circle_loop fuel d x0 y0 f ddF_x ddF_y x y c = Done d' -> same_shape d d'.
Proof.
  induction fuel as [|fuel IH]; intros d d' f ddF_x ddF_y x y Hrun;
    cbn [Circle_loop] in Hrun; destruct (x <? y);
    try discriminate; try (injection Hrun as <-; apply same_shape_refl).
  match type of Hrun with
  | obind ?m _ = _ => destruct m as [d1| |] eqn:Hoct; try discriminate
  end.
  cbn [obind] in Hrun. apply Circle_octants_shape in Hoct. apply IH in Hrun.
  eapply same_shape_trans; eassumption.
Qed.

Lemma Rectangle_fill_shape (page m : Z) (c : Gray16) (n : nat) :
  forall (d d' : SSD1306) (x : Z),
    Rectangle_fill n d x page m c = Done d' -> same_shape d d'.
Proof.
  induction n as [|n IH]; intros d d' x Hrun; cbn [Rectangle_fill] in Hrun.
  - injection Hrun as <-. apply same_shape_refl.
  - match type of Hrun with
    | obind ?s _ = _ => destruct s as [d1| |] eqn:Hs; try discriminate
    end.
    cbn [obind] in Hrun. apply store_shape in Hs. apply IH in Hrun.
    eapply same_shape_trans; [exact Hs | exact Hrun].
Qed.

Lemma Rectangle_pages_shape (x0 x1 y1 : Z) (c : Gray16) (fuel : nat) :
  forall (d d' : SSD1306) (y0 : Z),
    Rectangle_pages fuel d x0 y0 x1 y1 c = Done d' -> same_shape d d'.
Proof.
  induction fuel as [|fuel IH]; intros d d' y0 Hrun;
    cbn [Rectangle_pages] in Hrun; destruct (y0 ÷ 8 <? y1 ÷ 8);
    try discriminate; try (injection Hrun as <-; apply same_shape_refl).
  match type of Hrun with
  | obind ?m _ = _ => destruct m as [d1| |] eqn:Hf; try discriminate
  end.
  cbn [obind] in Hrun. apply Rectangle_fill_shape in Hf. apply IH in Hrun.
  eapply same_shape_trans; eassumption.
Qed.

Lemma Rectangle_rows_shape (x0 x1 : Z) (c : Gray16) (n : nat) :
  forall (d d' : SSD1306) (y : Z),
    Rectangle_rows n d x0 y x1 c = Done d' -> same_shape d d'.
Proof.
  induction n as [|n IH]; intros d d' y Hrun; cbn [Rectangle_rows] in Hrun.
  - injection Hrun as <-. apply same_shape_refl.
  - match type of Hrun with
    | obind ?m _ = _ => destruct m as [d1| |] eqn:Hl; try discriminate
    end.
    cbn [obind] in Hrun. apply Line_loop_shape in Hl. apply IH in Hrun.
    eapply same_shape_trans; eassumption.
Qed.

Lemma Char_loop_shape (font : list Z) (shift : Z -> Z) (base x r : Z) (c : Gray16) (n : nat) :
  forall (d d' : SSD1306) (i : Z),
    Char_loop n font shift d base x i r c = Done d' -> same_shape d d'.
Proof.
  induction n as [|n IH]; intros d d' i Hrun; cbn [Char_loop] in Hrun.
  - injection Hrun as <-. apply same_shape_refl.
  - destruct (x + i <? width d); [|injection Hrun as <-; apply same_shape_refl].
    destruct (font_at font (to_uint (5 * r + i))) as [g| |]; try discriminate.
    cbn [obind] in Hrun.
    match type of Hrun with
    | obind ?m _ = _ => destruct m as [d1| |] eqn:Hs; try discriminate
    end.
    cbn [obind] in Hrun. apply store_shape in Hs. apply IH in Hrun.
    eapply same_shape_trans; eassumption.
Qed.

Lemma Circle_shape (d d' : SSD1306) (x0 y0 r : Z) (c : Gray16) :
  Circle d x0 y0 r c = Done d' -> same_shape d d'.
Proof.
  unfold Circle. intros H.
  repeat match type of H with
  | obind (Point ?e ?u ?v ?k) _ = _ =>
      let e' := fresh "e" in
      let HP := fresh "HP" in
      destruct (Point e u v k) as [e'| |] eqn:HP; try discriminate;
      cbn [obind] in H; apply Point_shape in HP
  end.
  apply Circle_loop_shape in H.
  repeat match goal with
  | G : same_shape ?p ?q |- same_shape ?p _ =>
      first [exact G | eapply same_shape_trans; [exact G|]]
  end.
Qed.

Lemma Rectangle_shape (d d' : SSD1306) (x0 y0 x1 y1 : Z) (c : Gray16) :
  Rectangle d x0 y0 x1 y1 c = Done d' -> same_shape d d'.
Proof.
  unfold Rectangle. intros H.
  destruct ((x0 >? x1) || (y0 >? y1)); [injection H as <-; apply same_shape_refl|].
  destruct ((x0 =? x1) || (y0 =? y1)); [eapply Line_loop_shape; exact H|].
  destruct (y0 ÷ 8 <? y1 ÷ 8); [|eapply Rectangle_rows_shape; exact H].
  match type of H with
  | obind ?m _ = _ => destruct m as [d1| |] eqn:H1; try discriminate
  end.
  cbn [obind] in H.
  match type of H with
  | obind ?m _ = _ => destruct m as [d2| |] eqn:H2; try discriminate
  end.
  cbn [obind] in H.
  apply Rectangle_fill_shape in H1, H. apply Rectangle_pages_shape in H2.
  eapply same_shape_trans; [exact H1|]. eapply same_shape_trans; [exact H2 | exact H].
Qed.

Lemma Char_shape (font : list Z) (d d' : SSD1306) (x y : Z) (c : Gray16) (r v : Z) :
  Char font d x y c r = Done (d', v) -> same_shape d d'.
Proof.
  unfold Char. intros H.
  destruct ((x >=? width d) || (y >=? height d)); [injection H as <- _; apply same_shape_refl|].
  destruct ((r <? 0) || (r >? 127)); [injection H as <- _; apply same_shape_refl|].
  match type of H with
  | obind ?m _ = _ => destruct m as [d1| |] eqn:H1; try discriminate
  end.
  cbn [obind] in H.
  match type of H with
  | obind ?m _ = _ => destruct m as [d2| |] eqn:H2; try discriminate
  end.
  cbn [obind] in H. injection H as <- _.
  assert (S1 : same_shape d d1).
  { destruct ((width d * (y ÷ 8) + x <? width d * height d ÷ 8) && (width d * (y ÷ 8) + x >=? 0)).
    - eapply Char_loop_shape; exact H1.
    - injection H1 as <-. apply same_shape_refl. }
  eapply same_shape_trans; [exact S1|].
  match type of H2 with
  | (if ?t then _ else _) = _ => destruct t
  end.
  - eapply Char_loop_shape; exact H2.
  - injection H2 as <-. apply same_shape_refl.
Qed.

(** X11.  No drawing operation changes the shape of the display: whenever
    Point, Line, Circle, Rectangle or Char returns, and always for Clear,
    the width, the height, the interface kind and the length of the
    buffer are as before, so that a display that satisfies
    len(buf) = width*height/8 keeps doing so. *)
Theorem drawing_keeps_shape (d d' : SSD1306) :
  wf d ->
  (forall x y c, Point d x y c = Done d' -> same_shape d d' /\ wf d') /\
  (forall x0 y0 x1 y1 c, Line d x0 y0 x1 y1 c = Done d' -> same_shape d d' /\ wf d') /\
  (forall x0 y0 r c, Circle d x0 y0 r c = Done d' -> same_shape d d' /\ wf d') /\
  (forall x0 y0 x1 y1 c, Rectangle d x0 y0 x1 y1 c = Done d' -> same_shape d d' /\ wf d') /\
  (forall font x y c r v, Char font d x y c r = Done (d', v) -> same_shape d d' /\ wf d') /\
  (forall c, same_shape d (Clear d c) /\ wf (Clear d c)).
Proof.
  intros Hwf.
  assert (Hk : forall e, same_shape d e -> same_shape d e /\ wf e).
  { intros e He. split; [exact He | eapply same_shape_wf; eassumption]. }
  split; [|split; [|split; [|split; [|split]]]].
  - intros x y c H. apply Hk. eapply Point_shape; exact H.
  - intros x0 y0 x1 y1 c H. apply Hk. eapply Line_loop_shape; exact H.
  - intros x0 y0 r c H. apply Hk. eapply Circle_shape; exact H.
  - intros x0 y0 x1 y1 c H. apply Hk. eapply Rectangle_shape; exact H.
  - intros font x y c r v H. apply Hk. eapply Char_shape; exact H.
  - intros c. apply Hk. unfold Clear. repeat split. cbn [buf with_buf]. apply length_map.
Qed.

Lemma drawing_keeps_shape_witness :
  wf (blank IFACE_I2C 8 16) /\
  forall d', Rectangle (blank IFACE_I2C 8 16) 0 3 1 9 White = Done d' ->
    length (buf d') = 16%nat.
Proof.
  assert (Hwf : wf (blank IFACE_I2C 8 16)) by (apply blank_wf; [lia | lia | reflexivity]).
  split; [exact Hwf|]. intros d' H.
  destruct (drawing_keeps_shape (blank IFACE_I2C 8 16) d' Hwf) as (_ & _ & _ & HR & _).
  destruct (HR 0 3 1 9 White H) as [(_ & _ & _ & Hlen) _]. exact Hlen.
Defined.

(** ** Display session: bring-up and construction *)

(** X12.  Setup never panics and never changes the display.  When it
    returns an error nothing has been put on the bus; when it returns nil
    the log is the reset pulse (direction out, low, 3 ms, high) followed,
    on a bus display, by the 24-byte configuration sequence as one
    multi-byte command frame. *)
Theorem Setup_pulse_then_one_frame (env : environment) (s : session) :
  exists err s', Setup env s = Done (err, s') /\
    disp s' = disp s /\
    (err <> None -> frames (emitted (Setup env) s) = []) /\
    (err = None ->
     emitted (Setup env) s =
       [SetDirection "out"; SetValue 0; Sleep 3; SetValue 1] ++
       (if iface (disp s) =? IFACE_I2C then [WriteI2C 0 setup_sequence] else [])) /\
    length setup_sequence = 24%nat.
Proof.
  unfold emitted, Setup, io_bind, obind, call, io_ret. cbn.
  destruct (env (log s ++ [SetDirection "out"])) as [e|] eqn:E0; cbn.
  { eexists _, _. split; [reflexivity|]. split; [reflexivity|]. split; [|split; [discriminate | reflexivity] ].
    intros _. rewrite drop_app_length. reflexivity. }
  destruct (env ((log s ++ [SetDirection "out"]) ++ [SetValue 0])) as [e|] eqn:E1; cbn.
  { eexists _, _. split; [reflexivity|]. split; [reflexivity|]. split; [|split; [discriminate | reflexivity] ].
    intros _. rewrite <- app_assoc, drop_app_length. reflexivity. }
  destruct (env ((((log s ++ [SetDirection "out"]) ++ [SetValue 0]) ++ [Sleep 3]) ++ [SetValue 1]))
    as [e|] eqn:E2; cbn.
  { eexists _, _. split; [reflexivity|]. split; [reflexivity|]. split; [|split; [discriminate | reflexivity] ].
    intros _. rewrite <- !app_assoc, drop_app_length. reflexivity. }
  unfold WriteCmd, io_bind, self, call, io_ret. cbn.
  destruct (iface (disp s) =? IFACE_I2C); cbn.
  - eexists _, _. split; [reflexivity|]. split; [reflexivity|].
    split; [intros H; contradiction|]. split; [|reflexivity].
    intros _. rewrite <- !app_assoc, drop_app_length. reflexivity.
  - eexists _, _. split; [reflexivity|]. split; [reflexivity|].
    split; [intros H; contradiction|]. split; [|reflexivity].
    intros _. rewrite <- !app_assoc, drop_app_length. reflexivity.
Qed.

Lemma Setup_pulse_then_one_frame_witness :
  frames (emitted (Setup quiet) (fresh (blank IFACE_I2C 128 64))) = [(0, setup_sequence)].
Proof.
  destruct (Setup_pulse_then_one_frame quiet (fresh (blank IFACE_I2C 128 64)))
    as (err & s' & Hrun & _ & _ & Hok & _).
  assert (E : err = None) by (vm_compute in Hrun; injection Hrun as <- _; reflexivity).
  rewrite (Hok E). reflexivity.
Defined.

(** X13.  New stops at the first failure: if the pin cannot be exported
    the bus is not opened, and if the bus cannot be opened no buffer is
    allocated.  When both succeed the buffer gets n = width*height/8 zero
    bytes, the product taken in int, with wrap-around: New panics if n is
    negative or beyond the limit of the allocator, and else returns the
    display with that buffer.  For a non-negative width and a height that
    is a non-negative multiple of 8, with width*height/8 within the limit
    of the allocator, this is a well-formed display on which every pixel
    is clear; when width*height exceeds the range of int, the display
    that New returns is not well-formed. *)
Theorem New_outcomes (env : environment) (pin i addr bus w h : Z) :
  (forall e, env [Export pin] = Some e ->
     New env pin i addr bus w h
       = Done (Some e, {| disp := {| iface := 0; width := 0; height := 0; buf := [] |};
                          log := [Export pin] |})) /\
  (forall e, env [Export pin] = None -> i = IFACE_I2C ->
     env [Export pin; NewBus addr bus] = Some e ->
     New env pin i addr bus w h
       = Done (Some e, {| disp := {| iface := i; width := 0; height := 0; buf := [] |};
                          log := [Export pin; NewBus addr bus] |})) /\
  (env [Export pin] = None ->
   (i = IFACE_I2C -> env [Export pin; NewBus addr bus] = None) ->
   let n := wrap (w * h) ÷ 8 in
   let d := {| iface := i; width := w; height := h; buf := replicate (Z.to_nat n) 0 |} in
   (n < 0 \/ maxAlloc < n -> New env pin i addr bus w h = Fault) /\
   (0 <= n <= maxAlloc ->
    New env pin i addr bus w h
      = Done (None, {| disp := d;
                       log := Export pin :: (if i =? IFACE_I2C then [NewBus addr bus] else []) |}) /\
    (0 <= w -> 0 <= h -> Z.rem h 8 = 0 -> w * h ÷ 8 <= maxAlloc ->
     d = blank i w h /\ wf d /\
     forall x y, on_screen d x y -> pixel d x y = Some false) /\
    (MaxInt < w * h -> ~ wf d))).
Proof.
  split; [|split].
  - intros e He. unfold New, io_bind, obind, call, io_ret. cbn. rewrite He. reflexivity.
  - intros e He -> Hb. unfold New, io_bind, obind, call, set_disp, io_ret. cbn.
    rewrite He. cbn. rewrite Hb. reflexivity.
  - intros He Hb n d.
    assert (Hrun : New env pin i addr bus w h =
              do b <- make n;
              Done (None, {| disp := {| iface := i; width := w; height := h; buf := b |};
                             log := Export pin :: (if i =? IFACE_I2C then [NewBus addr bus] else []) |})).
    { unfold New, io_bind, obind, call, set_disp, io_lift, io_ret. cbn. rewrite He. cbn.
      destruct (Z.eqb_spec i IFACE_I2C) as [Hi | Hi]; cbn.
      - rewrite (Hb Hi). cbn. fold n. destruct (make n); reflexivity.
      - fold n. destruct (make n); reflexivity. }
    rewrite Hrun. unfold make. split.
    + intros Hbad.
      destruct (Z.ltb_spec n 0); [reflexivity|].
      destruct (Z.ltb_spec maxAlloc n); [reflexivity | lia].
    + intros Hn.
      destruct (Z.ltb_spec n 0); [lia|].
      destruct (Z.ltb_spec maxAlloc n); [lia|].
      split; [reflexivity|]. split.
      * intros Hw Hh H8 Hmax.
        assert (Hwh : 0 <= w * h <= 8 * maxAlloc + 7) by (split; [nia | zq]).
        assert (En : n = w * h ÷ 8).
        { subst n. rewrite wrap_small by (unfold MinInt, MaxInt, maxAlloc in *; lia).
          reflexivity. }
        assert (Ed : d = blank i w h) by (subst d; rewrite En; reflexivity).
        split; [exact Ed|]. rewrite Ed.
        assert (Hwf : wf (blank i w h)) by (apply blank_wf; assumption).
        split; [exact Hwf|]. intros x y Hon.
        pose proof (element_in_buf _ x y Hwf Hon) as Hel.
        rewrite pixel_on_screen by exact Hon. cbn [buf width blank] in *.
        unfold len in Hel. rewrite length_replicate in Hel.
        rewrite lookup_replicate_2 by lia. cbn. rewrite Z.bits_0. reflexivity.
      * intros Hbig (_ & _ & _ & Hlen). subst d. unfold len in Hlen.
        cbn [buf width height] in Hlen. rewrite length_replicate, Z2Nat.id in Hlen by lia.
        assert (2 ^ 60 <= w * h ÷ 8) by (unfold MaxInt in Hbig; zq).
        unfold maxAlloc in Hn. lia.
Qed.

Lemma New_outcomes_witness :
  New quiet 60 IFACE_I2C 60 1 (-8) 8 = Fault /\
  pixel (blank IFACE_I2C 128 64) 127 63 = Some false /\
  ~ wf {| iface := IFACE_I2C; width := 2 ^ 32; height := 2 ^ 32; buf := [] |}.
Proof.
  destruct (New_outcomes quiet 60 IFACE_I2C 60 1 (-8) 8) as (_ & _ & H).
  destruct (H eq_refl (fun _ => eq_refl)) as [Hneg _].
  destruct (New_outcomes quiet 60 IFACE_I2C 60 1 128 64) as (_ & _ & H').
  destruct (H' eq_refl (fun _ => eq_refl)) as [_ Hpos].
  destruct (Hpos ltac:(vm_compute; split; discriminate)) as (_ & Hclear & _).
  destruct (Hclear ltac:(lia) ltac:(lia) eq_refl ltac:(vm_compute; discriminate))
    as (Ed & _ & Hpix).
  destruct (New_outcomes quiet 60 IFACE_I2C 60 1 (2 ^ 32) (2 ^ 32)) as (_ & _ & H'').
  destruct (H'' eq_refl (fun _ => eq_refl)) as [_ Hbig].
  destruct (Hbig ltac:(vm_compute; split; discriminate)) as (_ & _ & Hill).
  split; [|split].
  - apply Hneg. left. vm_compute. reflexivity.
  - rewrite <- Ed. apply Hpix. unfold on_screen; cbn; lia.
  - apply Hill. vm_compute. reflexivity.
Defined.

(** * Properties of package gpio *)

Lemma made_app {A : Type} (m : gpio.M A) (s : gpio.state) (l : list gpio.call) :
  gpio.calls (snd (m s)) = gpio.calls s ++ l -> gpio.made m s = l.
Proof.
  intros E. unfold gpio.made. rewrite E. apply drop_app_length.
Qed.

Lemma made_nil {A : Type} (m : gpio.M A) (s : gpio.state) :
  gpio.calls (snd (m s)) = gpio.calls s -> gpio.made m s = [].
Proof.
  intros E. apply made_app. rewrite E, app_nil_r. reflexivity.
Qed.

Ltac gpio_unfold :=
  unfold gpio.Export, gpio.Unexport, gpio.CloseValue, gpio.Value, gpio.SetValue,
    gpio.OpenValue, gpio.Direction, gpio.SetDirection, gpio.Edge, gpio.SetEdge,
    gpio.read_word, gpio.write_word, gpio.value_file, gpio.run_deferred,
    gpio.bind, gpio.ret, gpio.ask, gpio.this, gpio.set_ValueFile, gpio.set_self in *.

(* case analysis on the answer of the world to the first call in the goal *)
Ltac ask_case :=
  match goal with
  | |- context [gpio.ans_err (?w ?l)] => destruct (gpio.ans_err (w l)) eqn:?
  end.

(* the log of a run, as the log before it and what was added *)
Ltac gpio_log := cbn [fst snd gpio.calls gpio.self gpio.Pin gpio.ValueFile];
  rewrite <- ?app_assoc; cbn [app].

Lemma write_word_calls (w : gpio.world) (leaf text : string) (s : gpio.state) :
  exists c l, gpio.made (gpio.write_word w leaf text) s = c :: l.
Proof.
  assert (exists c l, gpio.calls (snd (gpio.write_word w leaf text s)) =
                      gpio.calls s ++ c :: l) as (c & l & E).
  { gpio_unfold. cbn.
    ask_case; do 2 eexists; gpio_log; reflexivity. }
  exists c, l. apply made_app, E.
Qed.

Lemma value_file_calls (w : gpio.world) (flag : Z) (s : gpio.state) :
  exists c l, gpio.calls (snd (gpio.value_file w flag s)) = gpio.calls s ++ c :: l.
Proof.
  gpio_unfold. cbn.
  destruct (gpio.ValueFile (gpio.self s)); cbn.
  - do 2 eexists; reflexivity.
  - ask_case; do 2 eexists; reflexivity.
Qed.

(** X14.  SetValue, SetDirection and SetEdge check their argument before
    they touch the file system: with a value other than 0 and 1, a
    direction other than in and out, an edge other than none, rising,
    falling and both, they return an error made by fmt.Errorf and leave
    the pin and the log as they were; with any other argument they make
    at least one system call. *)
Theorem gpio_setters_check_before_io (w : gpio.world) (s : gpio.state) :
  (forall value : Z,
     (value <> 0 /\ value <> 1 ->
      gpio.SetValue w value s =
        (Some (gpio.Errorf ("Invalid value: " ++ gpio.itoa value)%string), s)) /\
     (gpio.made (gpio.SetValue w value) s = [] <-> value <> 0 /\ value <> 1)) /\
  (forall dir : string,
     (dir <> "in"%string /\ dir <> "out"%string ->
      gpio.SetDirection w dir s =
        (Some (gpio.Errorf ("Invalid direction: " ++ dir)%string), s)) /\
     (gpio.made (gpio.SetDirection w dir) s = [] <->
      dir <> "in"%string /\ dir <> "out"%string)) /\
  (forall edge : string,
     (~ In edge ["none"; "rising"; "falling"; "both"]%string ->
      gpio.SetEdge w edge s =
        (Some (gpio.Errorf ("Invalid edge: " ++ edge)%string), s)) /\
     (gpio.made (gpio.SetEdge w edge) s = [] <->
      ~ In edge ["none"; "rising"; "falling"; "both"]%string)).
Proof.
  split; [|split]; intros x; (split; [|split]).
  - intros [H0 H1]. unfold gpio.SetValue.
    apply Z.eqb_neq in H0, H1. rewrite H0, H1. reflexivity.
  - intros E. unfold gpio.SetValue in E.
    destruct (Z.eqb_spec x 0) as [E0|H0]; [|destruct (Z.eqb_spec x 1) as [E1|H1]];
      cbn [negb andb] in E; try tauto; exfalso.
    all: unfold gpio.made, gpio.bind in E;
      destruct (value_file_calls w gpio.O_WRONLY s) as (c & l & Hl);
      destruct (gpio.value_file w gpio.O_WRONLY s) as [[e|[f p]] s1]; cbn in Hl, E;
      [ rewrite Hl, drop_app_length in E; discriminate |].
    all: unfold gpio.run_deferred, gpio.bind, gpio.ask, gpio.ret in E;
      destruct p; cbn in E; rewrite Hl in E; rewrite <- ?app_assoc in E;
      rewrite drop_app_length in E; discriminate.
  - intros [H0 H1]. unfold gpio.SetValue.
    apply Z.eqb_neq in H0, H1. rewrite H0, H1. cbn. apply made_nil. reflexivity.
  - intros [H0 H1]. unfold gpio.SetDirection.
    apply String.eqb_neq in H0, H1. rewrite H0, H1. reflexivity.
  - intros E. unfold gpio.SetDirection in E.
    destruct (String.eqb_spec x "in") as [E0|H0];
      [|destruct (String.eqb_spec x "out") as [E1|H1]];
      cbn [negb andb] in E; try tauto; exfalso.
    all: destruct (write_word_calls w "direction" x s) as (c & l & Hl);
      rewrite Hl in E; discriminate.
  - intros [H0 H1]. unfold gpio.SetDirection.
    apply String.eqb_neq in H0, H1. rewrite H0, H1. cbn. apply made_nil. reflexivity.
  - intros H. unfold gpio.SetEdge.
    destruct (String.eqb_spec x "none") as [->|H0]; [exfalso; apply H; cbn; tauto|].
    destruct (String.eqb_spec x "rising") as [->|H1]; [exfalso; apply H; cbn; tauto|].
    destruct (String.eqb_spec x "falling") as [->|H2]; [exfalso; apply H; cbn; tauto|].
    destruct (String.eqb_spec x "both") as [->|H3]; [exfalso; apply H; cbn; tauto|].
    reflexivity.
  - intros E H. unfold gpio.SetEdge in E.
    destruct (write_word_calls w "edge" x s) as (c & l & Hl).
    cbn in H. destruct H as [<-|[<-|[<-|[<-|[]]]]]; cbn in E;
      rewrite Hl in E; discriminate.
  - intros H. unfold gpio.SetEdge.
    destruct (String.eqb_spec x "none") as [->|H0]; [exfalso; apply H; cbn; tauto|].
    destruct (String.eqb_spec x "rising") as [->|H1]; [exfalso; apply H; cbn; tauto|].
    destruct (String.eqb_spec x "falling") as [->|H2]; [exfalso; apply H; cbn; tauto|].
    destruct (String.eqb_spec x "both") as [->|H3]; [exfalso; apply H; cbn; tauto|].
    cbn. apply made_nil. reflexivity.
Qed.

Lemma drop_log0 {A : Type} (l : list A) : drop (length l) l = [].
Proof. apply drop_all. Qed.

Lemma drop_log1 {A : Type} (l : list A) (a : A) : drop (length l) (l ++ [a]) = [a].
Proof. apply drop_app_length. Qed.

Lemma drop_log2 {A : Type} (l : list A) (a b : A) :
  drop (length l) ((l ++ [a]) ++ [b]) = [a; b].
Proof. rewrite <- app_assoc. apply drop_app_length. Qed.

Lemma drop_log3 {A : Type} (l : list A) (a b c : A) :
  drop (length l) (((l ++ [a]) ++ [b]) ++ [c]) = [a; b; c].
Proof. rewrite <- !app_assoc. apply drop_app_length. Qed.

Lemma drop_log4 {A : Type} (l : list A) (a b c d : A) :
  drop (length l) ((((l ++ [a]) ++ [b]) ++ [c]) ++ [d]) = [a; b; c; d].
Proof. rewrite <- !app_assoc. apply drop_app_length. Qed.

(* run a method symbolically: split on the cached file and on each answer
   of the world, then read the added calls off the log *)
Ltac gpio_cases s :=
  cbn [fst snd gpio.calls gpio.self gpio.Pin gpio.ValueFile];
  repeat (first
    [ match goal with
      | H : gpio.ValueFile (gpio.self s) = _
        |- context [gpio.ValueFile (gpio.self s)] => rewrite H
      end
    | match goal with
      | |- context [match gpio.ValueFile (gpio.self s) with _ => _ end] =>
          destruct (gpio.ValueFile (gpio.self s)) eqn:?
      end
    | match goal with
      | |- context [match gpio.ans_err (?w ?l) with _ => _ end] =>
          destruct (gpio.ans_err (w l)) eqn:?
      | |- context [if negb (gpio.ans_n (?w ?l) =? 1) then _ else _] =>
          destruct (gpio.ans_n (w l) =? 1) eqn:?
      | |- context [if gpio.IsNotExist ?e then _ else _] =>
          destruct (gpio.IsNotExist e) eqn:?
      end ];
    cbn [fst snd negb gpio.calls gpio.self gpio.Pin gpio.ValueFile]).

Ltac gpio_books :=
  rewrite ?drop_log4, ?drop_log3, ?drop_log2, ?drop_log1, ?drop_log0;
  cbn [gpio.still_open gpio.close_one];
  repeat match goal with
         | H : gpio.ans_err _ = _ |- _ => rewrite H
         end;
  cbn [gpio.still_open gpio.close_one];
  rewrite ?Z.eqb_refl; try reflexivity.

Ltac gpio_account :=
  let s := fresh "s" in
  intros s; unfold gpio.handles, gpio.made; gpio_unfold;
  gpio_cases s; gpio_books.

Lemma Value_accounted (w : gpio.world) : gpio.accounted w (gpio.Value w).
Proof. gpio_account. Qed.

Lemma SetValue_accounted (w : gpio.world) (value : Z) :
  gpio.accounted w (gpio.SetValue w value).
Proof.
  unfold gpio.SetValue.
  destruct (negb (value =? 0) && negb (value =? 1)); gpio_account.
Qed.

Lemma read_word_accounted (w : gpio.world) (leaf : string) :
  gpio.accounted w (gpio.read_word w leaf).
Proof. gpio_account. Qed.

Lemma write_word_accounted (w : gpio.world) (leaf text : string) :
  gpio.accounted w (gpio.write_word w leaf text).
Proof. gpio_account. Qed.

Lemma rejected_accounted (w : gpio.world) (e : option gpio.gerror) :
  gpio.accounted w (gpio.ret e).
Proof. gpio_account. Qed.

Lemma CloseValue_accounted (w : gpio.world) : gpio.accounted w (gpio.CloseValue w).
Proof. gpio_account. Qed.

Lemma Unexport_accounted (w : gpio.world) : gpio.accounted w (gpio.Unexport w).
Proof. gpio_account. Qed.

Lemma Export_accounted (w : gpio.world) (pin : Z) (l : list gpio.call) :
  let s := {| gpio.self := gpio.new_GPIO; gpio.calls := l |} in
  gpio.still_open w l (gpio.made (gpio.Export w pin) s) [] = [] /\
  gpio.ValueFile (gpio.self (snd (gpio.Export w pin s))) = None.
Proof.
  intros s. unfold gpio.made; gpio_unfold. subst s.
  gpio_cases {| gpio.self := gpio.new_GPIO; gpio.calls := l |};
    gpio_books; split; reflexivity.
Qed.

Lemma OpenValue_accounted (w : gpio.world) (s : gpio.state) :
  gpio.ValueFile (gpio.self s) = None ->
  gpio.still_open w (gpio.calls s) (gpio.made (gpio.OpenValue w) s)
    (gpio.handles (gpio.self s)) =
  gpio.handles (gpio.self (snd (gpio.OpenValue w s))).
Proof.
  intros E. unfold gpio.handles, gpio.made; gpio_unfold. rewrite E.
  gpio_cases s; gpio_books.
Qed.

(** X15.  No method of a pin loses track of an open file.  If, before the
    call, the files that are open are those the struct refers to (its
    cached value file, if any), the same holds after Value, SetValue,
    Direction, SetDirection, Edge, SetEdge, CloseValue and Unexport,
    whatever the file system answers; so it does after OpenValue on a pin
    without a cached file; and Export returns a pin without a cached file
    and with every file it opened closed. *)
Theorem gpio_files_accounted (w : gpio.world) :
  gpio.accounted w (gpio.Value w) /\
  (forall value : Z, gpio.accounted w (gpio.SetValue w value)) /\
  gpio.accounted w (gpio.Direction w) /\
  (forall dir : string, gpio.accounted w (gpio.SetDirection w dir)) /\
  gpio.accounted w (gpio.Edge w) /\
  (forall edge : string, gpio.accounted w (gpio.SetEdge w edge)) /\
  gpio.accounted w (gpio.CloseValue w) /\
  gpio.accounted w (gpio.Unexport w) /\
  (forall s : gpio.state,
     gpio.ValueFile (gpio.self s) = None ->
     gpio.still_open w (gpio.calls s) (gpio.made (gpio.OpenValue w) s)
       (gpio.handles (gpio.self s)) =
     gpio.handles (gpio.self (snd (gpio.OpenValue w s)))) /\
  (forall (pin : Z) (l : list gpio.call),
     let s := {| gpio.self := gpio.new_GPIO; gpio.calls := l |} in
     gpio.still_open w l (gpio.made (gpio.Export w pin) s) [] = [] /\
     gpio.ValueFile (gpio.self (snd (gpio.Export w pin s))) = None).
Proof.
  split; [apply Value_accounted|].
  split; [apply SetValue_accounted|].
  split; [apply read_word_accounted|].
  split.
  { intros dir. unfold gpio.SetDirection.
    destruct (_ && _); [apply rejected_accounted | apply write_word_accounted]. }
  split; [apply read_word_accounted|].
  split.
  { intros edge. unfold gpio.SetEdge.
    destruct (_ && _); [apply rejected_accounted | apply write_word_accounted]. }
  split; [apply CloseValue_accounted|].
  split; [apply Unexport_accounted|].
  split; [apply OpenValue_accounted | apply Export_accounted].
Qed.

(** X16.  OpenValue on a pin whose value file is already open does not
    close the old file: when the new OpenFile succeeds, the struct refers
    to the new file only, and no Close has been issued for the old one,
    which stays open although nothing refers to it any more. *)
Theorem gpio_OpenValue_loses_open_file (w : gpio.world) (s : gpio.state) (f0 : gpio.file) :
  gpio.ValueFile (gpio.self s) = Some f0 ->
  gpio.ans_err (w (gpio.calls s ++
     [gpio.OpenFile ("/sys/class/gpio/gpio" ++ gpio.itoa (gpio.Pin (gpio.self s)) ++ "/value")%string
        gpio.O_RDWR gpio.perm_0666])) = None ->
  exists f1 : gpio.file,
    gpio.OpenValue w s =
      (None, {| gpio.self := {| gpio.Pin := gpio.Pin (gpio.self s); gpio.ValueFile := Some f1 |};
                gpio.calls := gpio.calls s ++
                  [gpio.OpenFile ("/sys/class/gpio/gpio" ++ gpio.itoa (gpio.Pin (gpio.self s)) ++ "/value")%string
                     gpio.O_RDWR gpio.perm_0666] |}) /\
    gpio.still_open w (gpio.calls s) (gpio.made (gpio.OpenValue w) s)
      (gpio.handles (gpio.self s)) = [f1; f0].
Proof.
  intros E Hopen. eexists. unfold gpio.handles, gpio.made; gpio_unfold.
  cbn [fst snd gpio.calls gpio.self gpio.Pin gpio.ValueFile].
  rewrite E, Hopen, drop_log1. cbn [gpio.still_open]. rewrite Hopen.
  split; reflexivity.
Qed.

Lemma gpio_OpenValue_loses_open_file_witness :
  exists f1 : gpio.file,
    gpio.OpenValue gpio.calm
      {| gpio.self := {| gpio.Pin := 60; gpio.ValueFile := Some 7 |}; gpio.calls := [] |} =
      (None, {| gpio.self := {| gpio.Pin := 60; gpio.ValueFile := Some f1 |};
                gpio.calls := [gpio.OpenFile "/sys/class/gpio/gpio60/value" 2 438] |}) /\
    gpio.still_open gpio.calm []
      (gpio.made (gpio.OpenValue gpio.calm)
         {| gpio.self := {| gpio.Pin := 60; gpio.ValueFile := Some 7 |}; gpio.calls := [] |})
      [7] = [f1; 7].
Proof.
  exact (gpio_OpenValue_loses_open_file gpio.calm
           {| gpio.self := {| gpio.Pin := 60; gpio.ValueFile := Some 7 |}; gpio.calls := [] |}
           7 eq_refl eq_refl).
Defined.

(** X17.  When Export returns without an error, the struct it returns is
    the pin asked for, without a cached value file, and either the
    directory of the pin was there and nothing was written, or the pin
    number, in decimal, was written to /sys/class/gpio/export and that
    file closed again. *)
Theorem gpio_Export_nil_means_exported (w : gpio.world) (pin : Z) (l : list gpio.call) :
  let s := {| gpio.self := gpio.new_GPIO; gpio.calls := l |} in
  let dir := ("/sys/class/gpio/gpio" ++ gpio.itoa pin)%string in
  fst (gpio.Export w pin s) = None ->
  gpio.self (snd (gpio.Export w pin s)) = {| gpio.Pin := pin; gpio.ValueFile := None |} /\
  ((gpio.ans_err (w (l ++ [gpio.Stat dir])) = None /\
    gpio.made (gpio.Export w pin) s = [gpio.Stat dir]) \/
   (exists (e : gpio.gerror) (f : gpio.file),
      gpio.ans_err (w (l ++ [gpio.Stat dir])) = Some e /\
      gpio.IsNotExist e = true /\
      gpio.made (gpio.Export w pin) s =
        [gpio.Stat dir;
         gpio.OpenFile "/sys/class/gpio/export" gpio.O_WRONLY gpio.perm_0666;
         gpio.Fprintf f (gpio.itoa pin);
         gpio.FileClose f])).
Proof.
  intros s dir. subst s dir. unfold gpio.made; gpio_unfold.
  gpio_cases {| gpio.self := gpio.new_GPIO; gpio.calls := l |};
    intros E; try discriminate; rewrite ?drop_log4, ?drop_log1;
    (split; [reflexivity|]).
  - right. eauto.
  - left. eauto.
Qed.

Lemma gpio_Export_nil_means_exported_witness :
  gpio.self (snd (gpio.Export gpio.unexported 60
                    {| gpio.self := gpio.new_GPIO; gpio.calls := [] |})) =
    {| gpio.Pin := 60; gpio.ValueFile := None |} /\
  gpio.made (gpio.Export gpio.unexported 60)
    {| gpio.self := gpio.new_GPIO; gpio.calls := [] |} =
    [gpio.Stat "/sys/class/gpio/gpio60";
     gpio.OpenFile "/sys/class/gpio/export" 1 438;
     gpio.Fprintf 3 "60";
     gpio.FileClose 3].
Proof.
  destruct (gpio_Export_nil_means_exported gpio.unexported 60 [] eq_refl)
    as [Hself _].
  split; [exact Hself | reflexivity].
Defined.

(** X18.  Once OpenValue has succeeded, the pin is read and written
    through the file it opened: SetValue with 0 or 1 rewinds that file and
    prints the value to it, Value rewinds it and scans from it, neither
    opens or closes a file nor changes the struct, and the result of
    SetValue is the error of the print alone (the result of Seek is not
    looked at); CloseValue then closes that file. *)
Theorem gpio_value_file_reused (w : gpio.world) (s : gpio.state) (value : Z) :
  fst (gpio.OpenValue w s) = None ->
  value = 0 \/ value = 1 ->
  let s1 := snd (gpio.OpenValue w s) in
  exists f : gpio.file,
    gpio.ValueFile (gpio.self s1) = Some f /\
    gpio.made (gpio.SetValue w value) s1 =
      [gpio.Seek f 0 0; gpio.Fprintf f (gpio.itoa value)] /\
    gpio.self (snd (gpio.SetValue w value s1)) = gpio.self s1 /\
    fst (gpio.SetValue w value s1) =
      gpio.ans_err (w (gpio.calls s1 ++
                         [gpio.Seek f 0 0; gpio.Fprintf f (gpio.itoa value)])) /\
    gpio.made (gpio.Value w) s1 = [gpio.Seek f 0 0; gpio.Fscanf f "%d"] /\
    gpio.self (snd (gpio.Value w s1)) = gpio.self s1 /\
    gpio.made (gpio.CloseValue w) s1 = [gpio.FileClose f].
Proof.
  intros Hopen Hv s1.
  assert (exists f, gpio.ValueFile (gpio.self s1) = Some f) as [f Hf].
  { subst s1. revert Hopen. gpio_unfold.
    cbn [fst snd gpio.calls gpio.self gpio.Pin gpio.ValueFile].
    intros ->. eauto. }
  clearbody s1. exists f. split; [exact Hf|].
  assert (gpio.SetValue w value s1 =
          (gpio.ans_err (w ((gpio.calls s1 ++ [gpio.Seek f 0 0]) ++
                              [gpio.Fprintf f (gpio.itoa value)])),
           {| gpio.self := gpio.self s1;
              gpio.calls := (gpio.calls s1 ++ [gpio.Seek f 0 0]) ++
                              [gpio.Fprintf f (gpio.itoa value)] |})) as ES.
  { unfold gpio.SetValue.
    replace (negb (value =? 0) && negb (value =? 1)) with false
      by (destruct Hv as [-> | ->]; reflexivity).
    gpio_unfold. cbn [fst snd gpio.calls gpio.self gpio.Pin gpio.ValueFile].
    rewrite Hf. reflexivity. }
  assert (gpio.calls (snd (gpio.Value w s1)) =
            (gpio.calls s1 ++ [gpio.Seek f 0 0]) ++ [gpio.Fscanf f "%d"%string] /\
          gpio.self (snd (gpio.Value w s1)) = gpio.self s1) as [EV1 EV2].
  { gpio_unfold. cbn [fst snd gpio.calls gpio.self gpio.Pin gpio.ValueFile].
    rewrite Hf. split; reflexivity. }
  unfold gpio.made. rewrite ES, EV1, EV2.
  cbn [fst snd gpio.calls gpio.self]. rewrite !drop_log2.
  repeat (split; [first [reflexivity | rewrite <- app_assoc; reflexivity]|]).
  gpio_unfold. cbn [fst snd gpio.calls gpio.self gpio.Pin gpio.ValueFile].
  rewrite Hf. cbn [fst snd gpio.calls]. apply drop_log1.
Qed.

Lemma gpio_value_file_reused_witness :
  exists f : gpio.file,
    gpio.made (gpio.SetValue gpio.calm 1)
      (snd (gpio.OpenValue gpio.calm
              {| gpio.self := {| gpio.Pin := 60; gpio.ValueFile := None |};
                 gpio.calls := [] |})) =
      [gpio.Seek f 0 0; gpio.Fprintf f "1"].
Proof.
  destruct (gpio_value_file_reused gpio.calm
              {| gpio.self := {| gpio.Pin := 60; gpio.ValueFile := None |};
                 gpio.calls := [] |} 1 eq_refl (or_intror eq_refl))
    as (f & _ & H & _).
  exists f. exact H.
Defined.

(** X19.  Value, Direction and Edge return without an error only when
    the scan of the file read exactly one item and reported no error, and
    what they return is then what the scan stored. *)
Theorem gpio_readers_need_one_item (w : gpio.world) (s : gpio.state) :
  (forall value : Z,
     fst (gpio.Value w s) = (value, None) ->
     exists (f : gpio.file) (pre : list gpio.call),
       let l := gpio.calls s ++ pre ++ [gpio.Fscanf f "%d"] in
       gpio.ans_n (w l) = 1 /\ gpio.ans_err (w l) = None /\
       gpio.ans_int (w l) = value) /\
  (forall dir : string,
     fst (gpio.Direction w s) = (dir, None) ->
     exists (f : gpio.file) (pre : list gpio.call),
       let l := gpio.calls s ++ pre ++ [gpio.Fscanf f "%s"] in
       gpio.ans_n (w l) = 1 /\ gpio.ans_err (w l) = None /\
       gpio.ans_str (w l) = dir) /\
  (forall edge : string,
     fst (gpio.Edge w s) = (edge, None) ->
     exists (f : gpio.file) (pre : list gpio.call),
       let l := gpio.calls s ++ pre ++ [gpio.Fscanf f "%s"] in
       gpio.ans_n (w l) = 1 /\ gpio.ans_err (w l) = None /\
       gpio.ans_str (w l) = edge).
Proof.
  split; [|split]; intros x; gpio_unfold; gpio_cases s; intros [= E1 E2];
    try discriminate; do 2 eexists; cbn zeta;
    rewrite app_assoc; (split; [apply Z.eqb_eq; eassumption|]);
    (split; [exact E2 | exact E1]).
Qed.
